(** * SoarZip browse-state core: navigation history, path filter,
      selection model and loading gate.

    A shallow embedding of the TypeScript sources
    [services/navigationService.ts], [services/fileService.ts],
    [services/appState.ts], [ui/uiManager.ts], [ui/fileExplorer.ts],
    [setup/navigation.ts], [setup/toolbar.ts] and
    [services/archiveService.ts], followed by the properties of the
    specification that can be settled on them.

    Conventions.  JavaScript strings are modelled by [string] (the paths
    handled here are compared and cut character by character only);
    arrays by [list]; the [Set<string>] of selected paths by
    [gset string]; numbers that can be [-1] by [Z].  Module-level
    mutable variables become record fields and every function takes the
    state it reads and returns the state it leaves. *)

From Stdlib Require Import ZArith String Ascii List Bool Lia.
From stdpp Require Import base gmap sets list strings.

Local Open Scope string_scope.
Local Open Scope Z_scope.

(** ** JavaScript string and array primitives used by the sources *)

Module Js.

(** [s.substring(n)] for [0 <= n]: the characters from position [n] on. *)
Fixpoint substring_from (n : nat) (s : string) : string :=
  match n, s with
  | O, _ => s
  | S _, EmptyString => EmptyString
  | S n', String _ s' => substring_from n' s'
  end.

(** [s.substring(0, n)] for [0 <= n]. *)
Fixpoint substring_to (n : nat) (s : string) : string :=
  match n, s with
  | O, _ => EmptyString
  | S _, EmptyString => EmptyString
  | S n', String c s' => String c (substring_to n' s')
  end.

(** [s.startsWith(p)]. *)
Definition startsWith (p s : string) : bool := String.prefix p s.

(** [s.endsWith(p)]. *)
Definition endsWith (p s : string) : bool :=
  (String.length p <=? String.length s)%nat &&
  String.eqb (substring_from (String.length s - String.length p) s) p.

(** [s.includes(needle)]: [needle] occurs at some position of [s]. *)
Fixpoint includes (needle s : string) : bool :=
  String.prefix needle s ||
  match s with
  | EmptyString => false
  | String _ s' => includes needle s'
  end.

(** [s.slice(0, -1)]: all characters but the last. *)
Fixpoint dropLast (s : string) : string :=
  match s with
  | EmptyString => EmptyString
  | String c EmptyString => EmptyString
  | String c s' => String c (dropLast s')
  end.

(** [s.split('/')]: the segments between slashes; never empty. *)
Fixpoint split_slash (s : string) : list string :=
  match s with
  | EmptyString => [EmptyString]
  | String c s' =>
      if Ascii.eqb c "/" then EmptyString :: split_slash s'
      else match split_slash s' with
           | seg :: rest => String c seg :: rest
           | [] => [String c EmptyString]
           end
  end.

(** JavaScript truthiness of a string: non-empty. *)
Definition truthy (s : string) : bool := negb (String.eqb s "").

(** [s.split('/').filter(Boolean).length]. *)
Definition segmentCount (s : string) : nat :=
  List.length (List.filter truthy (split_slash s)).

(** [s.lastIndexOf('/')], [-1] when there is no slash. *)
Fixpoint lastIndexOf_slash_from (i : Z) (s : string) : Z :=
  match s with
  | EmptyString => -1
  | String c s' =>
      let later := lastIndexOf_slash_from (i + 1) s' in
      if 0 <=? later then later
      else if Ascii.eqb c "/" then i else -1
  end.

Definition lastIndexOf_slash (s : string) : Z := lastIndexOf_slash_from 0 s.

(** The regular expression [/^\/\/|\/$/] tried at one start position.
    [atStart] tells whether the position is 0 (where [^] can match);
    the result is the length of the match.  The first alternative is
    tried first. *)
Definition matchRootOrTrailingSlash (atStart : bool) (s : string) : option nat :=
  match s with
  | String "/" (String "/" _) => if atStart then Some 2%nat else None
  | String "/" EmptyString => Some 1%nat
  | _ => None
  end.

(** [s.replace(/^\/\/|\/$/, '')] without the [g] flag: the start
    positions are tried from left to right and only the first match is
    removed. *)
Fixpoint replaceScan (atStart : bool) (s : string) : string :=
  match matchRootOrTrailingSlash atStart s with
  | Some n => substring_from n s
  | None =>
      match s with
      | EmptyString => EmptyString
      | String c s' => String c (replaceScan false s')
      end
  end.

Definition replaceRootOrTrailingSlash (s : string) : string := replaceScan true s.

(** [s.replace(/^\/+/, '')]: the longest run of leading slashes is removed. *)
Fixpoint replaceLeadingSlashes (s : string) : string :=
  match s with
  | String "/" s' => replaceLeadingSlashes s'
  | _ => s
  end.

(** [a[i]] for an integer [i]: [undefined] (here [None]) outside the array. *)
Definition index {A} (a : list A) (i : Z) : option A :=
  if i <? 0 then None else nth_error a (Z.to_nat i).

(** [a.slice(0, e)]: a negative [e] counts from the end. *)
Definition slice0 {A} (a : list A) (e : Z) : list A :=
  let len := Z.of_nat (List.length a) in
  let k := if e <? 0 then Z.max (len + e) 0 else Z.min e len in
  firstn (Z.to_nat k) a.

End Js.

(** ** services/fileService.ts *)

Record FileItem := {
  name : string;
  is_dir : bool;
  size : Z;
  modified_date : string;
  type_name : string
}.

(** The predicate of the [files.filter] call of [filterFilesByFolder]. *)
Definition shouldInclude (currentFolderNormalized : string) (file : FileItem) : bool :=
  let relativePath := Js.replaceRootOrTrailingSlash (name file) in
  if String.eqb currentFolderNormalized "" then
    negb (Js.includes "/" relativePath)
  else
    let startsWithCurrentFolder :=
      Js.startsWith (currentFolderNormalized ++ "/") relativePath in
    let isDirectChild :=
      if startsWithCurrentFolder then
        negb (Js.includes "/"
                (Js.substring_from (String.length currentFolderNormalized + 1) relativePath))
      else false in
    startsWithCurrentFolder && isDirectChild.

Definition filterFilesByFolder (files : list FileItem) (currentFolder : string)
  : list FileItem :=
  if (List.length files =? 0)%nat then []
  else
    let currentFolderNormalized := Js.replaceRootOrTrailingSlash currentFolder in
    List.filter (shouldInclude currentFolderNormalized) files.

Record FileStats := { count : nat; totalSize : Z }.

(** The predicate of the [files.filter] call of [getFileStats]. *)
Definition inCurrentFolder (currentFolder : string) (file : FileItem) : bool :=
  if String.eqb currentFolder "" then
    negb (Js.includes "/" (name file))
    || ((Js.segmentCount (name file) =? 1)%nat && Js.endsWith "/" (name file))
  else
    Js.startsWith currentFolder (name file)
    && (String.eqb (name file) currentFolder
        || (Js.segmentCount
              (Js.substring_from (String.length currentFolder) (name file)) <=? 1)%nat).

Definition getFileStats (files : list FileItem) (currentFolder : string) : FileStats :=
  let currentFiles := List.filter (inCurrentFolder currentFolder) files in
  {| count := List.length currentFiles;
     totalSize := fold_left (fun sum file => sum + size file) currentFiles 0 |}.

(** ** services/navigationService.ts *)

(** What [getPreviousPath] and [getNextPath] hand back: [null], a path,
    or [undefined] when the array has no element at the new index. *)
Inductive PathResult :=
| PathNull
| PathUndefined
| Path (p : string).

Definition ofIndex (o : option string) : PathResult :=
  match o with
  | Some p => Path p
  | None => PathUndefined
  end.

(** [x !== null]. *)
Definition notNull (r : PathResult) : bool :=
  match r with
  | PathNull => false
  | _ => true
  end.

(** [a[i] !== path]: an [undefined] element differs from every string. *)
Definition strictNeq (o : option string) (path : string) : bool :=
  match o with
  | Some p => negb (String.eqb p path)
  | None => true
  end.

Record NavigationHistory := {
  history : list string;
  currentIndex : Z
}.

(** The singleton [new NavigationHistory()]. *)
Definition newNavigationHistory : NavigationHistory :=
  {| history := []; currentIndex := -1 |}.

Definition addPath (path : string) (h : NavigationHistory) : NavigationHistory :=
  let h1 :=
    if currentIndex h <? Z.of_nat (List.length (history h)) - 1 then
      {| history := Js.slice0 (history h) (currentIndex h + 1);
         currentIndex := currentIndex h |}
    else h in
  if strictNeq (Js.index (history h1) (currentIndex h1)) path then
    let pushed := (history h1 ++ [path])%list in
    {| history := pushed; currentIndex := Z.of_nat (List.length pushed) - 1 |}
  else h1.

Definition getPreviousPath (h : NavigationHistory) : PathResult * NavigationHistory :=
  if 0 <? currentIndex h then
    let h' := {| history := history h; currentIndex := currentIndex h - 1 |} in
    (ofIndex (Js.index (history h') (currentIndex h')), h')
  else (PathNull, h).

Definition getNextPath (h : NavigationHistory) : PathResult * NavigationHistory :=
  if currentIndex h <? Z.of_nat (List.length (history h)) - 1 then
    let h' := {| history := history h; currentIndex := currentIndex h + 1 |} in
    (ofIndex (Js.index (history h') (currentIndex h')), h')
  else (PathNull, h).

Definition getParentPath (currentPath : string) : string :=
  if negb (Js.truthy currentPath) then ""
  else
    let normalizedPath :=
      if Js.endsWith "/" currentPath then Js.dropLast currentPath else currentPath in
    let lastSlashIndex := Js.lastIndexOf_slash normalizedPath in
    if lastSlashIndex <? 0 then ""
    else if lastSlashIndex =? 0 then "/"
    else Js.substring_to (Z.to_nat lastSlashIndex) normalizedPath ++ "/".

Definition reset (initialPath : string) (_ : NavigationHistory) : NavigationHistory :=
  {| history := [initialPath]; currentIndex := 0 |}.

Definition canGoBack (h : NavigationHistory) : bool := 0 <? currentIndex h.

Definition canGoForward (h : NavigationHistory) : bool :=
  currentIndex h <? Z.of_nat (List.length (history h)) - 1.

Definition getCurrentPath (h : NavigationHistory) : string :=
  if (0 <=? currentIndex h) && (currentIndex h <? Z.of_nat (List.length (history h))) then
    match Js.index (history h) (currentIndex h) with
    | Some p => p
    | None => ""
    end
  else "".

Definition normalizeFolderPath (folderPath : string) : string :=
  if negb (Js.truthy folderPath) then ""
  else
    let normalizedPath := Js.replaceLeadingSlashes folderPath in
    if Js.truthy normalizedPath && negb (Js.endsWith "/" normalizedPath)
    then normalizedPath ++ "/"
    else normalizedPath.

(** [back()] and [forward()] of the specification: the state left by
    [getPreviousPath] and [getNextPath]. *)
Definition back (h : NavigationHistory) : NavigationHistory := snd (getPreviousPath h).
Definition forward (h : NavigationHistory) : NavigationHistory := snd (getNextPath h).

(** [visit(p1); ...; visit(pn)] in this order. *)
Definition visitAll (paths : list string) (h : NavigationHistory) : NavigationHistory :=
  fold_left (fun acc p => addPath p acc) paths h.

(** The states the class can be in: freshly constructed, or with the
    cursor on an element. *)
Definition wfHistory (h : NavigationHistory) : Prop :=
  (history h = [] /\ currentIndex h = -1)
  \/ (0 <= currentIndex h < Z.of_nat (List.length (history h))).

(** No two neighbours of the list are equal. *)
Fixpoint noConsecutiveDuplicates (l : list string) : Prop :=
  match l with
  | a :: ((b :: _) as tl) => a <> b /\ noConsecutiveDuplicates tl
  | _ => True
  end.

(** ** ui/fileExplorer.ts *)

(** How a call ends: it returns, or an exception leaves it.  Either way
    the module variables keep what was written before. *)
Inductive Outcome (S : Type) :=
| Returned (s : S)
| Thrown (s : S).
Arguments Returned {S} s.
Arguments Thrown {S} s.

Definition stateOf {S} (o : Outcome S) : S :=
  match o with
  | Returned s => s
  | Thrown s => s
  end.

(** The [dataset] of a [.file-item] element; [data_index] is the
    attribute read back through [parseInt]. *)
Record FileItemElement := {
  data_filename : option string;
  data_index : option Z
}.

(** The part of a mouse event the handlers read: the closest
    [.file-item] ancestor of the target, if any, and the modifier keys. *)
Record MouseEvent := {
  target : option FileItemElement;
  ctrlKey : bool;
  metaKey : bool;
  shiftKey : bool
}.

(** [!filePath] for [string | undefined]. *)
Definition missing (filePath : option string) : bool :=
  match filePath with
  | Some p => negb (Js.truthy p)
  | None => true
  end.

Module FileExplorer.

Record State := {
  isLoading : bool;
  selectedFiles : gset string;
  lastClickedIndex : Z;
  currentRenderedFiles : list FileItem;
  (** whether [currentOnFileDblClick] holds the callback of [refreshUI];
      [currentOnFileClick] is [undefined] at every call site *)
  onFileDblClick : bool
}.

Definition initial : State :=
  {| isLoading := false; selectedFiles := ∅; lastClickedIndex := -1;
     currentRenderedFiles := []; onFileDblClick := false |}.

Definition withSelection (sel : gset string) (anchor : Z) (s : State) : State :=
  {| isLoading := isLoading s; selectedFiles := sel; lastClickedIndex := anchor;
     currentRenderedFiles := currentRenderedFiles s;
     onFileDblClick := onFileDblClick s |}.

(** The element [appendFileItem] builds for [file] at [index]. *)
Definition appendFileItem (file : FileItem) (index : nat) : FileItemElement :=
  {| data_filename := Some (name file); data_index := Some (Z.of_nat index) |}.

(** The state part of [updateFileList]; the list body is emptied and
    filled again with [appendFileItem file i] for every [files[i]]. *)
Definition updateFileList (files : list FileItem) (onDblClick : bool) (s : State) : State :=
  {| isLoading := isLoading s; selectedFiles := ∅; lastClickedIndex := -1;
     currentRenderedFiles := files; onFileDblClick := onDblClick |}.

(** [for (let i = start; i <= end; i++) selectedFiles.add(currentRenderedFiles[i].name)],
    with [n] the number of iterations left.  Reading [.name] of a missing
    element throws; the flag tells whether the loop ran to its end. *)
Fixpoint addRange (files : list FileItem) (i : Z) (n : nat) (sel : gset string)
  : gset string * bool :=
  match n with
  | O => (sel, true)
  | S n' =>
      match Js.index files i with
      | Some file => addRange files (i + 1) n' ({[ name file ]} ∪ sel)
      | None => (sel, false)
      end
  end.

Definition handleFileListClick (event : MouseEvent) (s : State) : Outcome State :=
  if isLoading s then Returned s
  else
    match target event with
    | Some fileItemElement =>
        let filePath := data_filename fileItemElement in
        let fileIndex := default (-1) (data_index fileItemElement) in
        if missing filePath || (fileIndex =? -1) then Returned s
        else
          match Js.index (currentRenderedFiles s) fileIndex with
          | None => Returned s
          | Some file =>
              let path := default "" filePath in
              let ctrlPressed := ctrlKey event || metaKey event in
              let shiftPressed := shiftKey event in
              if shiftPressed && negb (lastClickedIndex s =? -1) then
                let start := Z.min (lastClickedIndex s) fileIndex in
                let end_ := Z.max (lastClickedIndex s) fileIndex in
                let kept := if negb ctrlPressed then ∅ else selectedFiles s in
                let '(sel, finished) :=
                  addRange (currentRenderedFiles s) start (Z.to_nat (end_ - start + 1)) kept in
                if finished then Returned (withSelection sel (lastClickedIndex s) s)
                else Thrown (withSelection sel (lastClickedIndex s) s)
              else if ctrlPressed then
                let sel :=
                  if bool_decide (path ∈ selectedFiles s)
                  then selectedFiles s ∖ {[ path ]}
                  else {[ path ]} ∪ selectedFiles s in
                Returned (withSelection sel fileIndex s)
              else
                Returned (withSelection {[ path ]} fileIndex s)
          end
    | None => Returned (withSelection ∅ (-1) s)
    end.

(** The part of [handleFileListDblClick] that runs inside the module: it
    returns the file whose default action (and callback) the caller runs
    next, if the double click reached one. *)
Definition handleFileListDblClick (event : MouseEvent) (s : State)
  : State * option FileItem :=
  if isLoading s then (s, None)
  else
    match target event with
    | Some fileItemElement =>
        let fileIndex := default (-1) (data_index fileItemElement) in
        if fileIndex =? -1 then (s, None)
        else
          match Js.index (currentRenderedFiles s) fileIndex with
          | None => (s, None)
          | Some file => (withSelection ∅ (-1) s, Some file)
          end
    | None => (s, None)
    end.

(** The selection part of [handleFileListContextMenu]. *)
Definition handleFileListContextMenu (event : MouseEvent) (s : State) : State :=
  if isLoading s then s
  else
    match target event with
    | Some fileItemElement =>
        let filePath := data_filename fileItemElement in
        let fileIndex := default (-1) (data_index fileItemElement) in
        if negb (missing filePath) && negb (fileIndex =? -1) then
          match Js.index (currentRenderedFiles s) fileIndex with
          | Some file =>
              let path := default "" filePath in
              if negb (bool_decide (path ∈ selectedFiles s))
              then withSelection {[ path ]} (lastClickedIndex s) s
              else s
          | None => s
          end
        else s
    | None => s
    end.

Definition setLoading (loading : bool) (s : State) : State :=
  {| isLoading := loading; selectedFiles := selectedFiles s;
     lastClickedIndex := lastClickedIndex s;
     currentRenderedFiles := currentRenderedFiles s;
     onFileDblClick := onFileDblClick s |}.

(** [event] hits nothing or an item of the list rendered last. *)
Definition onRenderedItem (event : MouseEvent) (s : State) : Prop :=
  match target event with
  | Some element =>
      exists i file,
        currentRenderedFiles s !! i = Some file /\ element = appendFileItem file i
  | None => True
  end.

(** The clicks of the specification, as events on the item rendered for
    [file] at [index]. *)
Definition clickSimple (file : FileItem) (index : nat) : MouseEvent :=
  {| target := Some (appendFileItem file index);
     ctrlKey := false; metaKey := false; shiftKey := false |}.

Definition clickToggle (file : FileItem) (index : nat) : MouseEvent :=
  {| target := Some (appendFileItem file index);
     ctrlKey := true; metaKey := false; shiftKey := false |}.

Definition clickRange (file : FileItem) (index : nat) (preserveExisting : bool) : MouseEvent :=
  {| target := Some (appendFileItem file index);
     ctrlKey := preserveExisting; metaKey := false; shiftKey := true |}.

Definition withoutShift (event : MouseEvent) : MouseEvent :=
  {| target := target event; ctrlKey := ctrlKey event;
     metaKey := metaKey event; shiftKey := false |}.

(** What can happen to the module state: a new list is rendered, or an
    event reaches one of the three handlers, or the flag is set. *)
Inductive step : State -> State -> Prop :=
| step_update files cb s :
    step s (updateFileList files cb s)
| step_click event s :
    onRenderedItem event s ->
    step s (stateOf (handleFileListClick event s))
| step_dblclick event s :
    onRenderedItem event s ->
    step s (fst (handleFileListDblClick event s))
| step_contextmenu event s :
    onRenderedItem event s ->
    step s (handleFileListContextMenu event s)
| step_loading loading s :
    step s (setLoading loading s).

Inductive reachable : State -> Prop :=
| reachable_initial : reachable initial
| reachable_step s s' : reachable s -> step s s' -> reachable s'.


End FileExplorer.

(** ** services/appState.ts *)

Module AppState.

Record State := {
  currentArchivePath : string;
  currentFiles : list FileItem;
  isLoading : bool
}.

Definition initial : State :=
  {| currentArchivePath := ""; currentFiles := []; isLoading := false |}.

Definition setCurrentArchivePath (path : string) (s : State) : State :=
  {| currentArchivePath := path; currentFiles := currentFiles s; isLoading := isLoading s |}.

Definition setCurrentFiles (files : list FileItem) (s : State) : State :=
  {| currentArchivePath := currentArchivePath s; currentFiles := files;
     isLoading := isLoading s |}.

Definition setIsLoading (loading : bool) (s : State) : State :=
  {| currentArchivePath := currentArchivePath s; currentFiles := currentFiles s;
     isLoading := loading |}.

Definition resetAppState (_ : State) : State := initial.

End AppState.

(** ** The application: the module states side by side *)

Inductive View := HomePage | FileBrowser.

(** What leaves the front end: a backend command or a notification. *)
Inductive Effect :=
| Invoke (command : string)
| ShowError
| ShowInfo
| ShowSuccess.

(** How an awaited backend call settles. *)
Inductive Settled (A : Type) :=
| Resolved (a : A)
| Rejected.
Arguments Resolved {A} a.
Arguments Rejected {A}.

(** The view shown, the toolbar, the two [sessionStorage] keys of the
    clipboard, the files captured by the [onConfirm] callback of an
    open delete confirmation, and the effects so far (latest first). *)
Record Shell := {
  view : View;
  toolbarEnabled : bool;
  clipboardFiles : option (list string);
  clipboardOperation : option bool;
  confirmDialog : option (list string);
  trace : list Effect
}.

Record App := {
  navigationHistory : NavigationHistory;
  appState : AppState.State;
  fileExplorer : FileExplorer.State;
  shell : Shell
}.

Definition initialApp : App :=
  {| navigationHistory := newNavigationHistory;
     appState := AppState.initial;
     fileExplorer := FileExplorer.initial;
     shell := {| view := HomePage; toolbarEnabled := false; clipboardFiles := None;
                 clipboardOperation := None; confirmDialog := None; trace := [] |} |}.

Definition withNavigation (h : NavigationHistory) (a : App) : App :=
  {| navigationHistory := h; appState := appState a;
     fileExplorer := fileExplorer a; shell := shell a |}.

Definition withAppState (s : AppState.State) (a : App) : App :=
  {| navigationHistory := navigationHistory a; appState := s;
     fileExplorer := fileExplorer a; shell := shell a |}.

Definition withExplorer (e : FileExplorer.State) (a : App) : App :=
  {| navigationHistory := navigationHistory a; appState := appState a;
     fileExplorer := e; shell := shell a |}.

Definition withShell (sh : Shell) (a : App) : App :=
  {| navigationHistory := navigationHistory a; appState := appState a;
     fileExplorer := fileExplorer a; shell := sh |}.

Definition emit (e : Effect) (a : App) : App :=
  let sh := shell a in
  withShell {| view := view sh; toolbarEnabled := toolbarEnabled sh;
               clipboardFiles := clipboardFiles sh;
               clipboardOperation := clipboardOperation sh;
               confirmDialog := confirmDialog sh; trace := e :: trace sh |} a.

Definition show (v : View) (a : App) : App :=
  let sh := shell a in
  withShell {| view := v; toolbarEnabled := toolbarEnabled sh;
               clipboardFiles := clipboardFiles sh;
               clipboardOperation := clipboardOperation sh;
               confirmDialog := confirmDialog sh; trace := trace sh |} a.

Definition showHomePage : App -> App := show HomePage.
Definition showFileBrowser : App -> App := show FileBrowser.

Definition updateToolbarButtonsState (archiveLoaded : bool) (a : App) : App :=
  let sh := shell a in
  withShell {| view := view sh; toolbarEnabled := archiveLoaded;
               clipboardFiles := clipboardFiles sh;
               clipboardOperation := clipboardOperation sh;
               confirmDialog := confirmDialog sh; trace := trace sh |} a.

Definition setClipboard (files : option (list string)) (op : option bool) (a : App) : App :=
  let sh := shell a in
  withShell {| view := view sh; toolbarEnabled := toolbarEnabled sh;
               clipboardFiles := files; clipboardOperation := op;
               confirmDialog := confirmDialog sh; trace := trace sh |} a.

Definition setConfirmDialog (pending : option (list string)) (a : App) : App :=
  let sh := shell a in
  withShell {| view := view sh; toolbarEnabled := toolbarEnabled sh;
               clipboardFiles := clipboardFiles sh;
               clipboardOperation := clipboardOperation sh;
               confirmDialog := pending; trace := trace sh |} a.

Definition getIsLoading (a : App) : bool := AppState.isLoading (appState a).
Definition getCurrentFiles (a : App) : list FileItem := AppState.currentFiles (appState a).
Definition getCurrentArchivePath (a : App) : string :=
  AppState.currentArchivePath (appState a).

Definition setIsLoading (loading : bool) (a : App) : App :=
  withAppState (AppState.setIsLoading loading (appState a)) a.
Definition setCurrentFiles (files : list FileItem) (a : App) : App :=
  withAppState (AppState.setCurrentFiles files (appState a)) a.
Definition setCurrentArchivePath (path : string) (a : App) : App :=
  withAppState (AppState.setCurrentArchivePath path (appState a)) a.
Definition resetAppState (a : App) : App :=
  withAppState (AppState.resetAppState (appState a)) a.

(** [getSelectedFiles()]: the selected paths as an array. *)
Definition getSelectedFiles (a : App) : list string :=
  elements (FileExplorer.selectedFiles (fileExplorer a)).

(** ** ui/uiManager.ts, setup/navigation.ts, services/archiveService.ts,
       setup/toolbar.ts

    [String.prototype.localeCompare] depends on the host's locale and is
    a parameter. *)

Section Controller.

Variable localeCompare : string -> string -> Z.

(** The comparator of [sortFiles]. *)
Definition compareFiles (a b : FileItem) : Z :=
  if negb (Bool.eqb (is_dir a) (is_dir b)) then (if is_dir a then -1 else 1)
  else localeCompare (name a) (name b).

Fixpoint insertSorted (x : FileItem) (l : list FileItem) : list FileItem :=
  match l with
  | [] => [x]
  | y :: l' => if compareFiles x y <=? 0 then x :: l else y :: insertSorted x l'
  end.

(** [[...files].sort(compare)]: a copy, sorted, equal keys in input order. *)
Definition sortFiles (files : list FileItem) : list FileItem :=
  fold_right insertSorted [] files.

(** The state part of [refreshUI]; breadcrumbs, button classes and the
    status bar text are redrawn from the state and keep none. *)
Definition refreshUI (a : App) : App :=
  let currentFolder := getCurrentPath (navigationHistory a) in
  let filteredFiles := filterFilesByFolder (getCurrentFiles a) currentFolder in
  let sortedFiles := sortFiles filteredFiles in
  withExplorer (FileExplorer.updateFileList sortedFiles true (fileExplorer a)) a.

Definition navigateToFolder (folderPath : string) (a : App) : App :=
  if getIsLoading a then a
  else
    let normalizedPath := normalizeFolderPath folderPath in
    refreshUI (withNavigation (addPath normalizedPath (navigationHistory a)) a).

Definition updateLoadingStatus (loading : bool) (a : App) : App :=
  let a1 := setIsLoading loading a in
  withExplorer (FileExplorer.setLoading loading (fileExplorer a1)) a1.

(** [resetAppToHome]: the title call is not awaited, and the status
    bar is redrawn from the state and keeps none. *)
Definition resetAppToHome (a : App) : App :=
  let a1 := showHomePage (resetAppState a) in
  let a2 := emit (Invoke "set_window_title") a1 in
  let a3 := updateToolbarButtonsState false a2 in
  withNavigation (reset "" (navigationHistory a3)) a3.

(** *** setup/navigation.ts: the listeners of [setupNavButtons] *)

Definition backClick (a : App) : App :=
  if getIsLoading a || negb (canGoBack (navigationHistory a)) then a
  else
    let '(prevPath, h) := getPreviousPath (navigationHistory a) in
    let a1 := withNavigation h a in
    if notNull prevPath then refreshUI a1 else a1.

Definition forwardClick (a : App) : App :=
  if getIsLoading a || negb (canGoForward (navigationHistory a)) then a
  else
    let '(nextPath, h) := getNextPath (navigationHistory a) in
    let a1 := withNavigation h a in
    if notNull nextPath then refreshUI a1 else a1.

Definition upClick (a : App) : App :=
  if getIsLoading a then a
  else
    let currentPath := getCurrentPath (navigationHistory a) in
    if Js.truthy currentPath then navigateToFolder (getParentPath currentPath) a
    else a.

(** The refresh listener up to its [await]; the flag tells whether the
    backend was called. *)
Definition refreshClick (a : App) : App * bool :=
  let archivePath := getCurrentArchivePath a in
  if getIsLoading a || negb (Js.truthy archivePath) then (a, false)
  else (emit (Invoke "open_archive") (updateLoadingStatus true a), true).

(** The refresh listener from the settlement of [openArchive] on:
    [try] or [catch], then [finally]. *)
Definition refreshSettled (r : Settled (list FileItem)) (a : App) : App :=
  let a1 :=
    match r with
    | Resolved files => refreshUI (setCurrentFiles files a)
    | Rejected => emit ShowError a
    end in
  updateLoadingStatus false a1.

(** *** ui/fileExplorer.ts and ui/uiManager.ts together: clicks on the list *)

Definition click (event : MouseEvent) (a : App) : App :=
  withExplorer (stateOf (FileExplorer.handleFileListClick event (fileExplorer a))) a.

(** The [onFileDblClick] callback [refreshUI] installs. *)
Definition onFileDblClickCallback (file : FileItem) (a : App) : App :=
  if getIsLoading a then a
  else if is_dir file then navigateToFolder (name file) a
  else a.

Definition dblClick (event : MouseEvent) (a : App) : App :=
  let '(e, hit) := FileExplorer.handleFileListDblClick event (fileExplorer a) in
  let a1 := withExplorer e a in
  match hit with
  | None => a1
  | Some file =>
      let a2 :=
        if FileExplorer.onFileDblClick e then onFileDblClickCallback file a1 else a1 in
      if is_dir file then navigateToFolder (name file) a2
      else emit ShowInfo a2
  end.

(** *** services/archiveService.ts: [loadArchive], cut at its two awaits *)

Definition loadArchiveBegin (archivePath : string) (a : App) : App :=
  emit (Invoke "open_archive") (setIsLoading true a).

(** From the settlement of [invokeOpenArchive] to the next [await]
    ([true]), or through [catch] and [finally] to the end ([false]). *)
Definition loadArchiveOpened (archivePath : string) (r : Settled (list FileItem)) (a : App)
  : App * bool :=
  match r with
  | Resolved files =>
      let a1 := setCurrentFiles files (setCurrentArchivePath archivePath a) in
      let a2 := withNavigation (reset "" (navigationHistory a1)) a1 in
      (emit (Invoke "set_window_title") (showFileBrowser a2), true)
  | Rejected =>
      let a1 := emit ShowError a in
      let a2 := updateToolbarButtonsState false (showHomePage (resetAppState a1)) in
      (setIsLoading false a2, false)
  end.

(** From the settlement of [setWindowTitle], which catches its own
    failure, through [finally]. *)
Definition loadArchiveTitled (a : App) : App :=
  let a1 := updateToolbarButtonsState true (emit ShowSuccess (refreshUI a)) in
  setIsLoading false a1.

(** [loadArchive] when nothing else runs during its awaits. *)
Definition loadArchive (archivePath : string) (r : Settled (list FileItem)) (a : App) : App :=
  let '(a1, awaiting) := loadArchiveOpened archivePath r (loadArchiveBegin archivePath a) in
  if awaiting then loadArchiveTitled a1 else a1.

(** *** setup/toolbar.ts: clipboard, paste and delete *)

Definition handleCopy (a : App) : App :=
  let selectedFiles := getSelectedFiles a in
  if (List.length selectedFiles =? 0)%nat then emit ShowInfo a
  else emit ShowInfo (setClipboard (Some selectedFiles) (Some false) a).

Definition handleCut (a : App) : App :=
  let selectedFiles := getSelectedFiles a in
  if (List.length selectedFiles =? 0)%nat then emit ShowInfo a
  else emit ShowInfo (setClipboard (Some selectedFiles) (Some true) a).

(** The tail shared by the mutation commands: the reload settles, then
    [finally]. *)
Definition reloadSettled (r : Settled (list FileItem)) (a : App) : App :=
  let a1 :=
    match r with
    | Resolved files => emit ShowSuccess (refreshUI (setCurrentFiles files a))
    | Rejected => emit ShowError a
    end in
  setIsLoading false a1.

(** [handlePaste] up to its first [await]; the flag tells whether the
    backend was called. *)
Definition handlePaste (a : App) : App * bool :=
  match clipboardFiles (shell a), clipboardOperation (shell a) with
  | Some clipboard, Some _ =>
      if (List.length clipboard =? 0)%nat then (emit ShowInfo a, false)
      else (emit (Invoke "paste_files_in_archive") (setIsLoading true a), true)
  | _, _ => (emit ShowInfo a, false)
  end.

(** From the settlement of the paste to the next [await] ([true]), or
    through [catch] and [finally] ([false]). *)
Definition pasteSettled (r : Settled unit) (a : App) : App * bool :=
  match r with
  | Resolved _ =>
      let a1 :=
        match clipboardOperation (shell a) with
        | Some true => setClipboard None None a
        | _ => a
        end in
      (emit (Invoke "open_archive") a1, true)
  | Rejected => (setIsLoading false (emit ShowError a), false)
  end.

(** [handleDelete]: with a selection, the confirmation opens and its
    callback keeps [filesToDelete]; an open dialog is not replaced. *)
Definition handleDelete (a : App) : App :=
  let filesToDelete := getSelectedFiles a in
  if (List.length filesToDelete =? 0)%nat then emit ShowInfo a
  else
    match confirmDialog (shell a) with
    | Some _ => a
    | None => setConfirmDialog (Some filesToDelete) a
    end.

(** The confirm button: the callback runs up to its first [await]. *)
Definition confirmClick (a : App) : App * bool :=
  match confirmDialog (shell a) with
  | Some filesToDelete =>
      (emit (Invoke "delete_files_in_archive")
         (setIsLoading true (setConfirmDialog None a)), true)
  | None => (a, false)
  end.

Definition deleteSettled (r : Settled unit) (a : App) : App * bool :=
  match r with
  | Resolved _ => (emit (Invoke "open_archive") a, true)
  | Rejected => (setIsLoading false (emit ShowError a), false)
  end.

(** A command run from its button to its end, nothing else in between. *)
Definition runPaste (mutation : Settled unit) (reload : Settled (list FileItem)) (a : App)
  : App :=
  let '(a1, called) := handlePaste a in
  if called then
    let '(a2, awaiting) := pasteSettled mutation a1 in
    if awaiting then reloadSettled reload a2 else a2
  else a1.

Definition runDelete (mutation : Settled unit) (reload : Settled (list FileItem)) (a : App)
  : App :=
  let '(a1, called) := confirmClick (handleDelete a) in
  if called then
    let '(a2, awaiting) := deleteSettled mutation a1 in
    if awaiting then reloadSettled reload a2 else a2
  else a1.

(** The navigation actions of the specification. *)
Inductive NavAction :=
| GoBack
| GoForward
| GoUp
| FolderClick (folderPath : string)
| DoubleClick (event : MouseEvent).

Definition navigate (act : NavAction) (a : App) : App :=
  match act with
  | GoBack => backClick a
  | GoForward => forwardClick a
  | GoUp => upClick a
  | FolderClick folderPath => navigateToFolder folderPath a
  | DoubleClick event => dblClick event a
  end.

End Controller.

(** The comparison used where a concrete one is needed. *)
Definition codeUnitCompare (a b : string) : Z :=
  match String.compare a b with
  | Lt => -1
  | Eq => 0
  | Gt => 1
  end.

Definition mkFile (n : string) : FileItem :=
  {| name := n; is_dir := false; size := 0; modified_date := ""; type_name := "" |}.

Definition mkDir (n : string) : FileItem :=
  {| name := n; is_dir := true; size := 0; modified_date := ""; type_name := "" |}.

(** ** The path filter in the words of the specification

    These three definitions are not taken from the source: they restate
    section 4.1 ([children]) and are compared with [filterFilesByFolder]
    below. *)

(** One trailing slash removed. *)
Definition stripTrailingSlash (s : string) : string :=
  if Js.endsWith "/" s then Js.dropLast s else s.

(** One leading slash removed. *)
Definition stripLeadingSlash (s : string) : string :=
  match s with
  | String "/" s' => s'
  | _ => s
  end.

(** [path] is a direct child of the folder with normalized [prefix]. *)
Definition directChild (prefix path : string) : bool :=
  if String.eqb prefix "" then negb (Js.includes "/" path)
  else
    Js.startsWith (prefix ++ "/") path
    && negb (Js.includes "/" (Js.substring_from (String.length prefix + 1) path)).

(** [children(entries, folder)] read literally: the folder loses a
    leading and a trailing slash, the entry paths are taken as they are. *)
Definition specChildren (entries : list FileItem) (folder : string) : list FileItem :=
  let prefix := stripTrailingSlash (stripLeadingSlash folder) in
  List.filter (fun e => directChild prefix (name e)) entries.

(** The entry list of the examples of section 8. *)
Definition exampleEntries : list FileItem :=
  [mkFile "a.txt"; mkFile "dir/b.txt"; mkFile "dir/sub/c.txt"].

(** ** Auxiliary notions and sample states of the properties *)

(** The last character of [s] is a slash. *)
Fixpoint lastIsSlash (s : string) : bool :=
  match s with
  | EmptyString => false
  | String c EmptyString => Ascii.eqb c "/"
  | String _ s' => lastIsSlash s'
  end.

(** The cursor is on the last entry. *)
Definition atEnd (h : NavigationHistory) : Prop :=
  0 <= currentIndex h /\ currentIndex h = Z.of_nat (List.length (history h)) - 1.


(** Five rendered rows, for the examples. *)
Definition fiveRows : FileExplorer.State :=
  FileExplorer.updateFileList [mkFile "a"; mkFile "b"; mkFile "c"; mkFile "d"; mkFile "e"]
    false FileExplorer.initial.

(** A right click on the row of [file] at [index]. *)
Definition rightClick (file : FileItem) (index : nat) : MouseEvent :=
  {| target := Some (FileExplorer.appendFileItem file index);
     ctrlKey := false; metaKey := false; shiftKey := false |}.

(** An archive is open in the folder [dir/], row [dir/b.txt] is selected, the
    clipboard holds a copied path, and a reload is outstanding. *)
Definition busyApp : App :=
  {| navigationHistory := {| history := [""; "dir/"]; currentIndex := 1 |};
     appState := {| AppState.currentArchivePath := "x.zip";
                    AppState.currentFiles := [mkFile "dir/b.txt"];
                    AppState.isLoading := true |};
     fileExplorer := {| FileExplorer.isLoading := true;
                        FileExplorer.selectedFiles := {[ "dir/b.txt" ]};
                        FileExplorer.lastClickedIndex := 0;
                        FileExplorer.currentRenderedFiles := [mkFile "dir/b.txt"];
                        FileExplorer.onFileDblClick := true |};
     shell := {| view := FileBrowser; toolbarEnabled := true;
                 clipboardFiles := Some ["dir/b.txt"];
                 clipboardOperation := Some false;
                 confirmDialog := None; trace := [] |} |}.

(** ** services/windowService.ts: path utilities *)

(** [s.replace(/\\/g, '/')]: every backslash becomes a slash. *)
Fixpoint replaceBackslashes (s : string) : string :=
  match s with
  | EmptyString => EmptyString
  | String c s' =>
      String (if Ascii.eqb c "\" then "/"%char else c) (replaceBackslashes s')
  end.

(** [s.lastIndexOf(c)] for a one-character [c], counted from [i]. *)
Fixpoint lastIndexOf_from (c : ascii) (i : Z) (s : string) : Z :=
  match s with
  | EmptyString => -1
  | String x s' =>
      let later := lastIndexOf_from c (i + 1) s' in
      if 0 <=? later then later
      else if Ascii.eqb x c then i else -1
  end.

Definition lastIndexOf (c : ascii) (s : string) : Z := lastIndexOf_from c 0 s.

Definition getFileNameFromPath (filePath : string) : string :=
  if negb (Js.truthy filePath) then ""
  else
    let parts := Js.split_slash (replaceBackslashes filePath) in
    match Js.index parts (Z.of_nat (List.length parts) - 1) with
    | Some part => part
    | None => ""
    end.

Definition getDirectoryPath (filePath : string) : string :=
  if negb (Js.truthy filePath) then ""
  else
    let normalizedPath := replaceBackslashes filePath in
    let lastSlashIndex := lastIndexOf "/" normalizedPath in
    if lastSlashIndex =? -1 then ""
    else Js.substring_to (Z.to_nat lastSlashIndex) normalizedPath.

Definition getFileNameWithoutExtension (filePath : string) : string :=
  let fileName := getFileNameFromPath filePath in
  let lastDotIndex := lastIndexOf "." fileName in
  if (lastDotIndex =? -1) || (lastDotIndex =? 0) then fileName
  else Js.substring_to (Z.to_nat lastDotIndex) fileName.

Definition getDefaultExtractPath (archivePath : string) : string :=
  let dirPath := getDirectoryPath archivePath in
  let baseName := getFileNameWithoutExtension archivePath in
  if negb (Js.truthy dirPath) then baseName
  else dirPath ++ "/" ++ baseName.

(** ** services/fileService.ts: [getDisplayName] *)

(** [s.replace(/\/$/, '')]: the pattern matches at the last position
    only, when a slash stands there. *)
Fixpoint replaceTrailingSlash (s : string) : string :=
  match s with
  | EmptyString => EmptyString
  | String c EmptyString => if Ascii.eqb c "/" then EmptyString else s
  | String c s' => String c (replaceTrailingSlash s')
  end.

Definition getDisplayName (file : FileItem) (currentFolder : string) : string :=
  let currentFolderPrefix := Js.replaceRootOrTrailingSlash currentFolder in
  let displayName :=
    if Js.truthy currentFolderPrefix
       && Js.startsWith (currentFolderPrefix ++ "/") (name file)
    then Js.substring_from (String.length currentFolderPrefix + 1) (name file)
    else name file in
  replaceTrailingSlash displayName.

(** ** ui/fileExplorer.ts: [updatePathNavigation]

    The click listener of the archive item passes the literal [''];
    the listeners of the folder items are closures over the one
    variable [currentPath] declared before the loop, which they read
    when the click happens. *)
Inductive ClickArgument :=
| Literal (path : string)
| CurrentPathVariable.

Record PathNavigation := {
  pathItems : list (string * ClickArgument);
  currentPathVariable : string
}.

(** The [segments.forEach] loop: each segment is appended to the
    variable and gets an item. *)
Fixpoint appendSegments (segments : list string) (nav : PathNavigation) : PathNavigation :=
  match segments with
  | [] => nav
  | segment :: rest =>
      appendSegments rest
        {| pathItems := (pathItems nav ++ [(segment, CurrentPathVariable)])%list;
           currentPathVariable := currentPathVariable nav ++ segment ++ "/" |}
  end.

(** The items of the path bar ([archiveName] empty stands for a
    missing name: only the placeholder is shown). *)
Definition updatePathNavigation (currentFolder archiveName : string) : PathNavigation :=
  if negb (Js.truthy archiveName) then
    {| pathItems := []; currentPathVariable := "" |}
  else
    let archiveItem := (archiveName, Literal "") in
    if negb (Js.truthy currentFolder) then
      {| pathItems := [archiveItem]; currentPathVariable := "" |}
    else
      let segments := List.filter Js.truthy (Js.split_slash currentFolder) in
      appendSegments segments
        {| pathItems := [archiveItem]; currentPathVariable := "" |}.

(** What [onFolderClick] receives when item [i] is clicked. *)
Definition clickedPath (nav : PathNavigation) (i : nat) : option string :=
  match nth_error (pathItems nav) i with
  | Some (_, Literal path) => Some path
  | Some (_, CurrentPathVariable) => Some (currentPathVariable nav)
  | None => None
  end.

(** ** ui/uiManager.ts: [performSearch]

    [String.prototype.toLowerCase] is a parameter, like [localeCompare]. *)
Section Search.

Variable localeCompare : string -> string -> Z.
Variable toLowerCase : string -> string.

(** The predicate of the [filesToSearch.filter] call. *)
Definition matchesQuery (query : string) (file : FileItem) : bool :=
  let fileName := getFileNameFromPath (name file) in
  let displayName := if Js.truthy fileName then fileName else name file in
  Js.includes (toLowerCase query) (toLowerCase displayName).

Definition performSearch (query : string) (a : App) : App :=
  let currentArchivePath := getCurrentArchivePath a in
  if negb (Js.truthy currentArchivePath) then emit ShowError a
  else if getIsLoading a then a
  else
    let currentFolder := getCurrentPath (navigationHistory a) in
    let filesToSearch := filterFilesByFolder (getCurrentFiles a) currentFolder in
    let searchResults := List.filter (matchesQuery query) filesToSearch in
    let a1 :=
      withExplorer
        (FileExplorer.updateFileList (sortFiles localeCompare searchResults) false
           (fileExplorer a)) a in
    if (List.length searchResults =? 0)%nat then emit ShowInfo a1 else a1.

End Search.

(** ** ui/fileExplorer.ts: the rows of the list body

    [updateFileList] empties [.file-list-body], appends the first
    [BATCH_SIZE] rows at once and leaves the others to [renderBatch]
    calls scheduled through [setTimeout].  No call in the sources
    cancels a scheduled batch. *)

Module FileListBody.

Definition BATCH_SIZE : nat := 100.

(** A scheduled [renderBatch(endIndex)]; its closure holds the [files]
    of the [updateFileList] call it comes from. *)
Record Timer := {
  files : list FileItem;
  startIndex : nat
}.

(** The module variables, the [.file-item] children of
    [.file-list-body] in document order, and the scheduled batches,
    oldest first. *)
Record Page := {
  explorer : FileExplorer.State;
  children : list FileItemElement;
  timers : list Timer
}.

Definition initial : Page :=
  {| explorer := FileExplorer.initial; children := []; timers := [] |}.

Definition withExplorer (e : FileExplorer.State) (p : Page) : Page :=
  {| explorer := e; children := children p; timers := timers p |}.

(** [for (let i = startIndex; i < endIndex; i++)
       appendFileItem(batchFragment, files[i], currentFolder, i)],
    with [n] the number of iterations left; [files[i]] exists in each,
    as [endIndex] is at most [files.length]. *)
Fixpoint batchFragment (files : list FileItem) (i n : nat) : list FileItemElement :=
  match n with
  | O => []
  | S n' =>
      match files !! i with
      | Some file => FileExplorer.appendFileItem file i :: batchFragment files (S i) n'
      | None => []
      end
  end.

(** [renderBatch(startIndex)] of the call for [files]: the batch is
    appended to the body and the next one scheduled, if rows are left.
    (The timer that ends the fade-in touches no row.) *)
Definition renderBatch (files : list FileItem) (startIndex : nat) (p : Page) : Page :=
  let endIndex := Nat.min (startIndex + BATCH_SIZE) (List.length files) in
  {| explorer := explorer p;
     children := (children p ++ batchFragment files startIndex (endIndex - startIndex))%list;
     timers :=
       if (endIndex <? List.length files)%nat
       then (timers p ++ [{| files := files; startIndex := endIndex |}])%list
       else timers p |}.

(** [updateFileList] on a page that has [.file-list-body]: the module
    variables are set, the body is emptied (an empty list leaves the
    [.empty-folder] note, which is no [.file-item]) and the first batch
    rendered.  The scheduled batches stay scheduled. *)
Definition updateFileList (files : list FileItem) (onDblClick : bool) (p : Page) : Page :=
  let p1 :=
    {| explorer := FileExplorer.updateFileList files onDblClick (explorer p);
       children := [];
       timers := timers p |} in
  if (List.length files =? 0)%nat then p1 else renderBatch files 0 p1.

(** The oldest scheduled batch runs. *)
Definition runTimer (p : Page) : Page :=
  match timers p with
  | [] => p
  | t :: rest =>
      renderBatch (files t) (startIndex t)
        {| explorer := explorer p; children := children p; timers := rest |}
  end.

(** A mouse event whose target lies in the [k]-th row of the body, or
    in no row when the body has fewer rows. *)
Definition eventOn (k : nat) (ctrl meta shift : bool) (p : Page) : MouseEvent :=
  {| target := children p !! k; ctrlKey := ctrl; metaKey := meta; shiftKey := shift |}.

Definition click (event : MouseEvent) (p : Page) : Page :=
  withExplorer (stateOf (FileExplorer.handleFileListClick event (explorer p))) p.

Definition dblclick (event : MouseEvent) (p : Page) : Page :=
  withExplorer (fst (FileExplorer.handleFileListDblClick event (explorer p))) p.

Definition contextmenu (event : MouseEvent) (p : Page) : Page :=
  withExplorer (FileExplorer.handleFileListContextMenu event (explorer p)) p.

Definition setLoading (loading : bool) (p : Page) : Page :=
  withExplorer (FileExplorer.setLoading loading (explorer p)) p.

(** What can happen to the page when a list is rendered only after the
    batches of the list before it have all run: a render, a batch, an
    event on a row of the body or on none, the flag. *)
Inductive step : Page -> Page -> Prop :=
| step_update files cb p :
    timers p = [] ->
    step p (updateFileList files cb p)
| step_timer p :
    step p (runTimer p)
| step_click k ctrl meta shift p :
    step p (click (eventOn k ctrl meta shift p) p)
| step_dblclick k ctrl meta shift p :
    step p (dblclick (eventOn k ctrl meta shift p) p)
| step_contextmenu k ctrl meta shift p :
    step p (contextmenu (eventOn k ctrl meta shift p) p)
| step_loading loading p :
    step p (setLoading loading p).

Inductive reachable : Page -> Prop :=
| reachable_initial : reachable initial
| reachable_step p p' : reachable p -> step p p' -> reachable p'.


End FileListBody.



(** ** Invariants stated below *)

(** The history is in a state of the class and holds no two equal
    neighbours. *)
Definition historyInvariant (h : NavigationHistory) : Prop :=
  wfHistory h /\ noConsecutiveDuplicates (history h).

(** The anchor of the selection is unset or the index of a rendered row. *)
Definition anchorInRange (s : FileExplorer.State) : Prop :=
  FileExplorer.lastClickedIndex s = -1
  \/ 0 <= FileExplorer.lastClickedIndex s
       < Z.of_nat (List.length (FileExplorer.currentRenderedFiles s)).

(** A folder path made of segments, each followed by a slash. *)
Definition joinSegments (segments : list string) : string :=
  fold_right (fun segment rest => segment ++ "/" ++ rest) "" segments.

(** A path segment: not empty, no slash. *)
Definition isSegment (s : string) : Prop := s <> "" /\ Js.includes "/" s = false.

(** Adjacent elements are in order for [compare]. *)
Fixpoint adjacentSorted {A} (compare : A -> A -> Z) (l : list A) : Prop :=
  match l with
  | a :: ((b :: _) as tl) => compare a b <= 0 /\ adjacentSorted compare tl
  | _ => True
  end.

(** No directory comes after a file. *)
Fixpoint directoriesFirst (l : list FileItem) : Prop :=
  match l with
  | [] => True
  | x :: l' =>
      (is_dir x = false -> Forall (fun y => is_dir y = false) l')
      /\ directoriesFirst l'
  end.

(** * Properties *)

(** ** Strings *)

Lemma substring_from_all (s : string) :
  Js.substring_from (String.length s) s = EmptyString.
Proof. induction s as [|c s IH]; simpl; auto. Qed.

Lemma endsWith_slash (s : string) : Js.endsWith "/" s = lastIsSlash s.
Proof.
  unfold Js.endsWith.
  induction s as [|c s IH]; [reflexivity|].
  destruct s as [|c' s'].
  - simpl. destruct (Ascii.eqb_spec c "/") as [->|Hne]; [reflexivity|].
    destruct c as [[] [] [] [] [] [] [] []]; try reflexivity; congruence.
  - change (lastIsSlash (String c (String c' s'))) with (lastIsSlash (String c' s')).
    rewrite <- IH. simpl String.length.
    replace (S (S (String.length s')) - 1)%nat with (S (String.length s')) by lia.
    replace (S (String.length s') - 1)%nat with (String.length s') by lia.
    reflexivity.
Qed.

Lemma replaceScan_unfold (atStart : bool) (s : string) :
  Js.replaceScan atStart s =
  match Js.matchRootOrTrailingSlash atStart s with
  | Some n => Js.substring_from n s
  | None =>
      match s with
      | EmptyString => EmptyString
      | String c s' => String c (Js.replaceScan false s')
      end
  end.
Proof. destruct s; reflexivity. Qed.

Lemma replaceScan_inner (s : string) :
  Js.replaceScan false s = if lastIsSlash s then Js.dropLast s else s.
Proof.
  induction s as [|c s IH]; [reflexivity|].
  destruct s as [|c' s'].
  - simpl. destruct (Ascii.eqb_spec c "/") as [->|Hne]; [reflexivity|].
    destruct c as [[] [] [] [] [] [] [] []]; try reflexivity; congruence.
  - assert (Hm : Js.matchRootOrTrailingSlash false (String c (String c' s')) = None).
    { destruct c as [[] [] [] [] [] [] [] []]; try reflexivity.
      destruct c' as [[] [] [] [] [] [] [] []]; reflexivity. }
    rewrite replaceScan_unfold, Hm, IH.
    change (lastIsSlash (String c (String c' s'))) with (lastIsSlash (String c' s')).
    destruct (lastIsSlash (String c' s')); reflexivity.
Qed.

(** The regular expression replacement, read off position by position:
    a leading [//] goes; otherwise a trailing [/] goes; otherwise
    nothing changes. *)
Lemma replaceRootOrTrailingSlash_cases (s : string) :
  Js.replaceRootOrTrailingSlash s =
  if Js.startsWith "//" s then Js.substring_from 2 s
  else if Js.endsWith "/" s then Js.dropLast s
  else s.
Proof.
  rewrite endsWith_slash. unfold Js.replaceRootOrTrailingSlash, Js.startsWith.
  destruct s as [|c s]; [reflexivity|].
  destruct (Ascii.eqb_spec c "/") as [->|Hc].
  - destruct s as [|c' s']; [reflexivity|].
    destruct (Ascii.eqb_spec c' "/") as [->|Hc'].
    + simpl. destruct s'; reflexivity.
    + assert (Hm : Js.matchRootOrTrailingSlash true (String "/" (String c' s')) = None).
      { destruct c' as [[] [] [] [] [] [] [] []]; try reflexivity; congruence. }
      assert (Hp : String.prefix "//" (String "/" (String c' s')) = false).
      { destruct c' as [[] [] [] [] [] [] [] []]; try reflexivity; congruence. }
      rewrite replaceScan_unfold, Hm, Hp, replaceScan_inner.
      change (lastIsSlash (String "/" (String c' s'))) with (lastIsSlash (String c' s')).
      destruct (lastIsSlash (String c' s')); reflexivity.
  - assert (Hm : Js.matchRootOrTrailingSlash true (String c s) = None).
    { destruct c as [[] [] [] [] [] [] [] []]; try reflexivity; congruence. }
    assert (Hp : String.prefix "//" (String c s) = false).
    { destruct c as [[] [] [] [] [] [] [] []]; try reflexivity; congruence. }
    rewrite replaceScan_unfold, Hm, Hp, replaceScan_inner.
    destruct s as [|c' s'].
    + simpl. destruct (Ascii.eqb_spec c "/"); [congruence|reflexivity].
    + change (lastIsSlash (String c (String c' s'))) with (lastIsSlash (String c' s')).
      destruct (lastIsSlash (String c' s')); reflexivity.
Qed.

(** The replacement on the shapes of path that occur. *)
Example replace_trailing : Js.replaceRootOrTrailingSlash "dir/sub/" = "dir/sub".
Proof. reflexivity. Qed.

Example replace_root_first : Js.replaceRootOrTrailingSlash "//dir/" = "dir/".
Proof. reflexivity. Qed.

Example replace_single_leading : Js.replaceRootOrTrailingSlash "/dir/" = "/dir".
Proof. reflexivity. Qed.

Example replace_plain : Js.replaceRootOrTrailingSlash "a.txt" = "a.txt".
Proof. reflexivity. Qed.

Example split_segments : Js.split_slash "/a//b/" = [""; "a"; ""; "b"; ""].
Proof. reflexivity. Qed.

Example parent_paths :
  getParentPath "folder/subfolder/" = "folder/"
  /\ getParentPath "folder/" = ""
  /\ getParentPath "/x/" = "/"
  /\ normalizeFolderPath "//a/b" = "a/b/".
Proof. repeat split. Qed.

Lemma length_append_slash (p : string) :
  String.length (p ++ "/") = S (String.length p).
Proof. induction p as [|c p IH]; simpl; [reflexivity|now rewrite IH]. Qed.

Lemma prefix_length (p s : string) :
  String.prefix p s = true -> (String.length p <= String.length s)%nat.
Proof.
  revert s. induction p as [|c p IH]; intros s H; simpl; [lia|].
  destruct s as [|c' s']; simpl in H; [discriminate|].
  destruct (ascii_dec c c'); [|discriminate].
  specialize (IH _ H). simpl. lia.
Qed.

Lemma prefix_cons (a b : ascii) (p s : string) :
  String.prefix (String a p) (String b s) = Ascii.eqb a b && String.prefix p s.
Proof.
  change (String.prefix (String a p) (String b s))
    with (if ascii_dec a b then String.prefix p s else false).
  destruct (ascii_dec a b) as [->|Hne].
  - now rewrite Ascii.eqb_refl.
  - apply Ascii.eqb_neq in Hne. now rewrite Hne.
Qed.

Lemma prefix_refl (s : string) : String.prefix s s = true.
Proof.
  induction s as [|c s IH]; simpl; [reflexivity|].
  destruct (ascii_dec c c); [assumption|congruence].
Qed.

Lemma substring_from_length (n : nat) (s : string) :
  (String.length (Js.substring_from n s) <= String.length s)%nat.
Proof.
  revert s. induction n as [|n IH]; intros s; simpl; [lia|].
  destruct s as [|c s']; simpl; [lia|]. specialize (IH s'). lia.
Qed.

Lemma dropLast_length (s : string) :
  (String.length (Js.dropLast s) <= String.length s)%nat.
Proof.
  induction s as [|c s IH]; simpl; [lia|].
  destruct s as [|c' s']; simpl in *; lia.
Qed.

Lemma replaceRootOrTrailingSlash_length (s : string) :
  (String.length (Js.replaceRootOrTrailingSlash s) <= String.length s)%nat.
Proof.
  rewrite replaceRootOrTrailingSlash_cases.
  destruct (Js.startsWith "//" s); [apply substring_from_length|].
  destruct (Js.endsWith "/" s); [apply dropLast_length|lia].
Qed.

(** ** PathFilter *)

(** The early return for an empty list agrees with the filter. *)
Lemma filterFilesByFolder_filter (files : list FileItem) (folder : string) :
  filterFilesByFolder files folder =
  List.filter (shouldInclude (Js.replaceRootOrTrailingSlash folder)) files.
Proof. unfold filterFilesByFolder. destruct files; reflexivity. Qed.

(** A child of a folder with a non-empty prefix has a normalized path
    longer than the prefix. *)
Lemma shouldInclude_longer (prefix : string) (e : FileItem) :
  prefix <> "" -> shouldInclude prefix e = true ->
  (String.length prefix < String.length (Js.replaceRootOrTrailingSlash (name e)))%nat.
Proof.
  intros Hne H. unfold shouldInclude in H.
  destruct (String.eqb_spec prefix "") as [->|_]; [congruence|].
  apply andb_prop in H as [H _]. unfold Js.startsWith in H.
  apply prefix_length in H. rewrite length_append_slash in H. lia.
Qed.

(** The folder's own entry is not among its children, whether it is
    written like the folder string or like the prefix. *)
Lemma own_entry_excluded (files : list FileItem) (folder : string) (e : FileItem) :
  Js.replaceRootOrTrailingSlash folder <> "" ->
  In e (filterFilesByFolder files folder) ->
  name e <> folder /\ name e <> Js.replaceRootOrTrailingSlash folder.
Proof.
  intros Hne Hin. rewrite filterFilesByFolder_filter in Hin.
  apply filter_In in Hin as [_ Hinc].
  pose proof (shouldInclude_longer _ _ Hne Hinc) as Hlen.
  split; intros Heq; rewrite Heq in Hlen; [lia|].
  pose proof (replaceRootOrTrailingSlash_length
                (Js.replaceRootOrTrailingSlash folder)) as Hle.
  lia.
Qed.

(** C3, as the code has it.  For the entries [a.txt], [dir/b.txt],
    [dir/sub/c.txt] the children of the root are exactly the entries
    without a slash, here [a.txt] alone: the filter selects among the
    given entries and a top-level directory is listed only when the list
    holds an entry for it (fourth part).  The children of [dir/] are
    exactly [dir/b.txt].  For a folder with a non-empty prefix, no child
    has the folder string or the prefix as its path. *)
Theorem children_of_example_entries :
  filterFilesByFolder exampleEntries "" = [mkFile "a.txt"]
  /\ filterFilesByFolder exampleEntries "dir/" = [mkFile "dir/b.txt"]
  /\ (forall files folder e,
        Js.replaceRootOrTrailingSlash folder <> "" ->
        In e (filterFilesByFolder files folder) ->
        name e <> folder /\ name e <> Js.replaceRootOrTrailingSlash folder)
  /\ filterFilesByFolder (mkDir "dir/" :: exampleEntries) ""
     = [mkDir "dir/"; mkFile "a.txt"].
Proof.
  split; [reflexivity|]. split; [reflexivity|].
  split; [apply own_entry_excluded|reflexivity].
Qed.

Lemma children_of_example_entries_witness :
  name (mkFile "dir/b.txt") <> "dir/" /\ name (mkFile "dir/b.txt") <> "dir".
Proof.
  destruct children_of_example_entries as (_ & _ & H & _).
  apply (H exampleEntries "dir/" (mkFile "dir/b.txt")).
  - vm_compute. discriminate.
  - vm_compute. auto.
Defined.

(** C3 as stated fails: the root listing of the example entries holds
    no directory [dir] (no entry of that path, none flagged as a
    directory), and at the root an entry whose path equals the (empty)
    prefix is listed. *)
Lemma children_root_has_no_dir :
  ~ (exists e, In e (filterFilesByFolder exampleEntries "")
               /\ (name e = "dir" \/ name e = "dir/" \/ is_dir e = true))
  /\ In (mkFile "") (filterFilesByFolder [mkFile ""] "").
Proof.
  split.
  - intros (e & Hin & H). vm_compute in Hin.
    destruct Hin as [<-|[]]. vm_compute in H.
    destruct H as [H|[H|H]]; discriminate.
  - vm_compute. auto.
Qed.

(** C4 as stated fails.  The directory entry [x/] is listed at the root
    although its path holds a slash (the entry paths lose a trailing
    slash before the test); and for the folder [/dir] the single leading
    slash stays in the prefix, so [dir/b.txt] is not listed. *)
Lemma children_differ_from_literal_reading :
  filterFilesByFolder [mkDir "x/"; mkFile "x/y.txt"; mkFile "z.txt"] ""
    <> specChildren [mkDir "x/"; mkFile "x/y.txt"; mkFile "z.txt"] ""
  /\ filterFilesByFolder [mkFile "dir/b.txt"] "/dir"
    <> specChildren [mkFile "dir/b.txt"] "/dir".
Proof. split; vm_compute; discriminate. Qed.

Lemma normalize_without_root (s : string) :
  Js.startsWith "//" s = false ->
  Js.replaceRootOrTrailingSlash s = stripTrailingSlash s.
Proof.
  intros H. rewrite replaceRootOrTrailingSlash_cases, H. reflexivity.
Qed.

Lemma startsWith_slash_root (s : string) :
  Js.startsWith "/" s = false -> Js.startsWith "//" s = false.
Proof.
  unfold Js.startsWith. destruct s as [|c s]; [reflexivity|].
  rewrite !prefix_cons. destruct (Ascii.eqb "/" c); [|reflexivity].
  destruct s; intros H; discriminate H.
Qed.

Lemma shouldInclude_directChild (prefix : string) (e : FileItem) :
  shouldInclude prefix e = directChild prefix (Js.replaceRootOrTrailingSlash (name e)).
Proof.
  unfold shouldInclude, directChild.
  destruct (String.eqb prefix ""); [reflexivity|].
  destruct (Js.startsWith (prefix ++ "/") (Js.replaceRootOrTrailingSlash (name e)));
    reflexivity.
Qed.

(** C4, as the code has it.  For a folder string without a leading
    slash and entries whose paths do not begin with [//], the prefix is
    the folder without one trailing slash, and the result is the input
    list filtered in place (same order, nothing added) by: the entry
    path without one trailing slash holds no slash (empty prefix), or
    starts with prefix and slash with no slash after that (non-empty
    prefix). *)
Theorem filterFilesByFolder_direct_children (files : list FileItem) (folder : string) :
  Js.startsWith "/" folder = false ->
  Forall (fun e => Js.startsWith "//" (name e) = false) files ->
  filterFilesByFolder files folder =
  List.filter
    (fun e => directChild (stripTrailingSlash folder) (stripTrailingSlash (name e)))
    files.
Proof.
  intros Hfolder Hfiles. rewrite filterFilesByFolder_filter.
  rewrite (normalize_without_root folder) by now apply startsWith_slash_root.
  induction Hfiles as [|e files He _ IH]; [reflexivity|].
  simpl. rewrite IH, shouldInclude_directChild, (normalize_without_root _ He).
  reflexivity.
Qed.

Lemma filterFilesByFolder_direct_children_witness :
  filterFilesByFolder [mkDir "x/"; mkFile "x/y.txt"; mkFile "z.txt"] "x/" =
  List.filter
    (fun e => directChild (stripTrailingSlash "x/") (stripTrailingSlash (name e)))
    [mkDir "x/"; mkFile "x/y.txt"; mkFile "z.txt"].
Proof.
  apply filterFilesByFolder_direct_children.
  - reflexivity.
  - repeat constructor.
Defined.

(** The result is a sublist of the input: input order, nothing new. *)
Lemma filterFilesByFolder_sublist (files : list FileItem) (folder : string) :
  sublist (filterFilesByFolder files folder) files.
Proof.
  rewrite filterFilesByFolder_filter.
  induction files as [|e files IH]; simpl; [constructor|].
  destruct (shouldInclude _ e); now constructor.
Qed.

(** ** getFileStats against filterFilesByFolder *)

(** A list holding only the folder's own entry: counted once by the
    statistics, not listed by the filter. *)
Lemma own_entry_counted (folder : string) (e : FileItem) :
  Js.replaceRootOrTrailingSlash folder <> "" -> name e = folder ->
  count (getFileStats [e] folder) = 1%nat /\ filterFilesByFolder [e] folder = [].
Proof.
  intros Hne Hname. split.
  - unfold getFileStats, inCurrentFolder. simpl. rewrite Hname.
    destruct (String.eqb_spec folder "") as [->|_]; [now vm_compute in Hne|].
    unfold Js.startsWith. rewrite prefix_refl, String.eqb_refl. reflexivity.
  - destruct (filterFilesByFolder [e] folder) as [|x l] eqn:Hf; [reflexivity|].
    assert (Hin : In x (filterFilesByFolder [e] folder)) by (rewrite Hf; now left).
    pose proof (own_entry_excluded _ _ _ Hne Hin) as [Hx _].
    rewrite filterFilesByFolder_filter in Hin. apply filter_In in Hin as [[<-|[]] _].
    congruence.
Qed.

(** C10.  There are an entry list and a folder whose own entry is in the
    list for which the item count of [getFileStats] is not the number of
    entries [filterFilesByFolder] returns: for [dir/] and [dir/b.txt] in
    the folder [dir/] the count is 2 and one row is listed. *)
Theorem stats_count_differs_from_listing :
  exists files folder,
    (exists e, In e files /\ name e = folder)
    /\ count (getFileStats files folder) = 2%nat
    /\ List.length (filterFilesByFolder files folder) = 1%nat
    /\ count (getFileStats files folder)
       <> List.length (filterFilesByFolder files folder).
Proof.
  exists [mkDir "dir/"; mkFile "dir/b.txt"], "dir/".
  split; [exists (mkDir "dir/"); split; [now left|reflexivity]|].
  split; [reflexivity|]. split; [reflexivity|]. vm_compute. discriminate.
Qed.

(** ** NavigationHistory *)

Lemma NavigationHistory_eta (h : NavigationHistory) :
  h = {| history := history h; currentIndex := currentIndex h |}.
Proof. destruct h; reflexivity. Qed.

Lemma index_nonneg {A} (l : list A) (i : Z) :
  0 <= i -> Js.index l i = nth_error l (Z.to_nat i).
Proof. intros H. unfold Js.index. destruct (Z.ltb_spec i 0); [lia|reflexivity]. Qed.

Lemma index_negative {A} (l : list A) (i : Z) : i < 0 -> Js.index l i = None.
Proof. intros H. unfold Js.index. destruct (Z.ltb_spec i 0); [reflexivity|lia]. Qed.

Lemma slice0_firstn {A} (l : list A) (e : Z) :
  0 <= e -> Js.slice0 l e = firstn (Z.to_nat e) l.
Proof.
  intros H. unfold Js.slice0. destruct (Z.ltb_spec e 0); [lia|].
  destruct (Z.le_ge_cases e (Z.of_nat (List.length l))).
  - now rewrite Z.min_l.
  - rewrite Z.min_r, Nat2Z.id by assumption.
    rewrite List.firstn_all. symmetry. apply List.firstn_all2. lia.
Qed.

Lemma index_firstn {A} (l : list A) (i : Z) :
  Js.index (firstn (Z.to_nat (i + 1)) l) i = Js.index l i.
Proof.
  destruct (Z.lt_ge_cases i 0).
  - now rewrite !index_negative.
  - rewrite !index_nonneg, List.nth_error_firstn by assumption.
    destruct (Nat.ltb_spec (Z.to_nat i) (Z.to_nat (i + 1))); [reflexivity|lia].
Qed.

(** [addPath] on a state of the class: the entries after the cursor go
    first, and only then is the path compared with the current one. *)
Lemma addPath_cases (path : string) (h : NavigationHistory) :
  wfHistory h ->
  addPath path h =
  let kept := firstn (Z.to_nat (currentIndex h + 1)) (history h) in
  if strictNeq (Js.index (history h) (currentIndex h)) path then
    {| history := (kept ++ [path])%list;
       currentIndex := Z.of_nat (List.length (kept ++ [path])%list) - 1 |}
  else {| history := kept; currentIndex := currentIndex h |}.
Proof.
  intros Hwf. unfold addPath.
  assert (Hlo : -1 <= currentIndex h) by (destruct Hwf as [[_ ->]|?]; lia).
  destruct (Z.ltb_spec (currentIndex h) (Z.of_nat (List.length (history h)) - 1)) as [Hlt|Hge].
  - cbn [history currentIndex]. rewrite slice0_firstn by lia.
    rewrite index_firstn. reflexivity.
  - assert (Hall : firstn (Z.to_nat (currentIndex h + 1)) (history h) = history h).
    { apply List.firstn_all2. destruct Hwf as [[-> ->]|?]; simpl; lia. }
    cbv zeta. rewrite Hall.
    destruct (strictNeq _ path); [reflexivity|apply NavigationHistory_eta].
Qed.

Lemma strictNeq_false (o : option string) (path : string) :
  strictNeq o path = false <-> o = Some path.
Proof.
  destruct o as [p|]; simpl.
  - rewrite negb_false_iff, String.eqb_eq. split; congruence.
  - split; discriminate.
Qed.

Lemma wfHistory_reset (initialPath : string) (h : NavigationHistory) :
  wfHistory (reset initialPath h).
Proof. right. simpl. lia. Qed.

Lemma wfHistory_addPath (path : string) (h : NavigationHistory) :
  wfHistory h -> wfHistory (addPath path h).
Proof.
  intros Hwf. rewrite addPath_cases by assumption. cbv zeta.
  destruct (strictNeq _ path) eqn:Hneq.
  - right. cbn [history currentIndex]. rewrite List.length_app. simpl. lia.
  - destruct Hwf as [[Hh Hc]|Hc].
    + left. cbn [history currentIndex]. rewrite Hh, Hc. split; reflexivity.
    + right. cbn [history currentIndex]. rewrite List.length_firstn. lia.
Qed.

Lemma wfHistory_back (h : NavigationHistory) : wfHistory h -> wfHistory (back h).
Proof.
  intros Hwf. unfold back, getPreviousPath.
  destruct (Z.ltb_spec 0 (currentIndex h)); [|assumption].
  destruct Hwf as [[_ Hc]|Hc]; [lia|]. right. simpl. lia.
Qed.

Lemma wfHistory_forward (h : NavigationHistory) : wfHistory h -> wfHistory (forward h).
Proof.
  intros Hwf. unfold forward, getNextPath.
  destruct (Z.ltb_spec (currentIndex h) (Z.of_nat (List.length (history h)) - 1));
    [|assumption].
  destruct Hwf as [[Hh Hc]|Hc]; [rewrite Hh, Hc in *; simpl in *; lia|].
  right. simpl. lia.
Qed.

(** [back] and [forward] move the cursor only. *)
Lemma history_back (h : NavigationHistory) : history (back h) = history h.
Proof.
  unfold back, getPreviousPath. destruct (0 <? currentIndex h); reflexivity.
Qed.

Lemma history_forward (h : NavigationHistory) : history (forward h) = history h.
Proof.
  unfold forward, getNextPath.
  destruct (currentIndex h <? Z.of_nat (List.length (history h)) - 1); reflexivity.
Qed.

(** C1, as the code has it.  On every state of the class, [visit(path)]
    first discards the entries after the cursor.  With [path] the
    current entry it then appends nothing and leaves the cursor where it
    is: the result is the entries up to the cursor, and it is the state
    before exactly when the cursor was on the last entry.  With any
    other [path] it appends [path] and moves the cursor to the last
    position, after which there is no way forward.  From [a, b, c] at
    cursor 2, [back()] then [visit(d)] gives [a, b, d] at cursor 2 with
    [canGoForward()] false. *)
Theorem addPath_visit :
  (forall h path,
     wfHistory h ->
     let kept := firstn (Z.to_nat (currentIndex h + 1)) (history h) in
     let h' := addPath path h in
     (Js.index (history h) (currentIndex h) = Some path ->
        h' = {| history := kept; currentIndex := currentIndex h |}
        /\ Js.index (history h') (currentIndex h') = Some path
        /\ (h' = h <-> canGoForward h = false))
     /\ (Js.index (history h) (currentIndex h) <> Some path ->
        history h' = (kept ++ [path])%list
        /\ currentIndex h' = Z.of_nat (List.length (history h')) - 1
        /\ canGoForward h' = false))
  /\ (let h := visitAll ["b"; "c"] (reset "a" newNavigationHistory) in
      h = {| history := ["a"; "b"; "c"]; currentIndex := 2 |}
      /\ back h = {| history := ["a"; "b"; "c"]; currentIndex := 1 |}
      /\ addPath "d" (back h) = {| history := ["a"; "b"; "d"]; currentIndex := 2 |}
      /\ canGoForward (addPath "d" (back h)) = false).
Proof.
  split; [|repeat split; reflexivity].
  intros h path Hwf kept h'. subst h'. rewrite addPath_cases by assumption.
  fold kept. cbv zeta. split; intros Hcur.
  - apply strictNeq_false in Hcur as Hs. rewrite Hs. cbn [history currentIndex].
    split; [reflexivity|].
    split; [unfold kept; now rewrite index_firstn|].
    unfold canGoForward. rewrite Z.ltb_ge. split.
    + intros Heq. apply (f_equal (fun x => List.length (history x))) in Heq.
      cbn [history] in Heq.
      pose proof (List.firstn_le_length (Z.to_nat (currentIndex h + 1)) (history h))
        as Hle.
      fold kept in Hle.
      assert (Hlo : -1 <= currentIndex h) by (destruct Hwf as [[_ ->]|?]; lia).
      lia.
    + intros Hfwd.
      assert (Hall : kept = history h) by (apply List.firstn_all2; lia).
      rewrite Hall. symmetry. apply NavigationHistory_eta.
  - destruct (strictNeq _ path) eqn:Hs; [|apply strictNeq_false in Hs; contradiction].
    cbn [history currentIndex]. split; [reflexivity|]. split; [reflexivity|].
    unfold canGoForward. cbn [history currentIndex]. apply Z.ltb_irrefl.
Qed.

Lemma addPath_visit_witness :
  let h := {| history := ["a"; "b"; "c"]; currentIndex := 1 |} in
  addPath "b" h = {| history := ["a"; "b"]; currentIndex := 1 |}
  /\ history (addPath "d" h) = ["a"; "b"; "d"]
  /\ currentIndex (addPath "d" h) = Z.of_nat (List.length (history (addPath "d" h))) - 1
  /\ canGoForward (addPath "d" h) = false.
Proof.
  intros h. destruct addPath_visit as [H _].
  assert (Hwf : wfHistory h) by (right; simpl; lia).
  split.
  - destruct (H h "b" Hwf) as [Hsame _].
    destruct (Hsame eq_refl) as [Heq _]. exact Heq.
  - destruct (H h "d" Hwf) as [_ Hdiff]. apply Hdiff.
    vm_compute. discriminate.
Defined.

(** C1 as stated fails: after [back()] from [a, b, c], visiting the
    current path [b] again is not a no-op, the entry [c] is lost. *)
Lemma addPath_current_path_drops_forward :
  let h := back (visitAll ["b"; "c"] (reset "a" newNavigationHistory)) in
  Js.index (history h) (currentIndex h) = Some "b"
  /\ addPath "b" h = {| history := ["a"; "b"]; currentIndex := 1 |}
  /\ history (addPath "b" h) <> history h.
Proof. repeat split. vm_compute. discriminate. Qed.

Lemma getCurrentPath_atEnd (h : NavigationHistory) (p : string) :
  atEnd h ->
  getCurrentPath h = p <-> Js.index (history h) (currentIndex h) = Some p.
Proof.
  intros [H0 Hend]. unfold getCurrentPath.
  destruct (Z.leb_spec 0 (currentIndex h)); [|lia].
  destruct (Z.ltb_spec (currentIndex h) (Z.of_nat (List.length (history h)))); [|lia].
  simpl. rewrite index_nonneg by assumption.
  destruct (nth_error (history h) (Z.to_nat (currentIndex h))) as [q|] eqn:Hq.
  - split; congruence.
  - apply List.nth_error_None in Hq. lia.
Qed.

Lemma atEnd_wf (h : NavigationHistory) : atEnd h -> wfHistory h.
Proof. intros [H0 Hend]. right. lia. Qed.

Lemma addPath_atEnd (path : string) (h : NavigationHistory) :
  atEnd h ->
  atEnd (addPath path h)
  /\ getCurrentPath (addPath path h) = path
  /\ (getCurrentPath h <> path ->
      List.length (history (addPath path h)) = S (List.length (history h))).
Proof.
  intros Hend. pose proof Hend as [H0 Hc].
  rewrite addPath_cases by now apply atEnd_wf. cbv zeta.
  assert (Hall : firstn (Z.to_nat (currentIndex h + 1)) (history h) = history h).
  { apply List.firstn_all2. lia. }
  rewrite Hall. destruct (strictNeq _ path) eqn:Hs.
  - assert (Hpushed : atEnd {| history := (history h ++ [path])%list;
                              currentIndex :=
                                Z.of_nat (List.length (history h ++ [path])%list) - 1 |}).
    { split; cbn [history currentIndex]; rewrite ?List.length_app; simpl; lia. }
    split; [exact Hpushed|]. split.
    + apply getCurrentPath_atEnd; [exact Hpushed|]. cbn [history currentIndex].
      rewrite List.length_app. simpl List.length.
      rewrite index_nonneg by lia.
      replace (Z.to_nat (Z.of_nat (List.length (history h) + 1) - 1))
        with (List.length (history h)) by lia.
      rewrite List.nth_error_app2 by lia. now rewrite Nat.sub_diag.
    + intros _. cbn [history]. rewrite List.length_app. simpl. lia.
  - apply strictNeq_false in Hs. rewrite <- NavigationHistory_eta.
    apply getCurrentPath_atEnd in Hs; [|assumption].
    split; [assumption|]. split; [assumption|]. intros Hne. contradiction.
Qed.

Lemma last_cons_default (x : string) (l : list string) (d d' : string) :
  List.last (x :: l) d = List.last (x :: l) d'.
Proof.
  revert x. induction l as [|y l IH]; intros x; [reflexivity|].
  change (List.last (y :: l) d = List.last (y :: l) d'). apply IH.
Qed.

Lemma visitAll_atEnd (paths : list string) (h : NavigationHistory) :
  atEnd h ->
  noConsecutiveDuplicates (getCurrentPath h :: paths) ->
  atEnd (visitAll paths h)
  /\ List.length (history (visitAll paths h))
     = (List.length (history h) + List.length paths)%nat
  /\ getCurrentPath (visitAll paths h) = List.last paths (getCurrentPath h).
Proof.
  revert h. induction paths as [|p paths IH]; intros h Hend Hnd.
  - simpl. split; [assumption|]. split; [lia|reflexivity].
  - destruct Hnd as [Hne Hnd].
    destruct (addPath_atEnd p h Hend) as (Hend' & Hcur & Hlen).
    specialize (Hlen Hne).
    change (visitAll (p :: paths) h) with (visitAll paths (addPath p h)).
    destruct (IH (addPath p h) Hend') as (He & Hl & Hc).
    { now rewrite Hcur. }
    split; [assumption|]. split; [rewrite Hl, Hlen; simpl; lia|].
    rewrite Hc, Hcur. destruct paths as [|q paths]; [reflexivity|].
    change (List.last (p :: q :: paths) (getCurrentPath h))
      with (List.last (q :: paths) (getCurrentPath h)).
    apply last_cons_default.
Qed.

Lemma iter_back (k : nat) (h : NavigationHistory) :
  Z.of_nat k <= currentIndex h ->
  Nat.iter k back h =
  {| history := history h; currentIndex := currentIndex h - Z.of_nat k |}.
Proof.
  induction k as [|k IH]; intros Hk.
  - simpl. rewrite Z.sub_0_r. apply NavigationHistory_eta.
  - simpl Nat.iter. rewrite IH by lia. unfold back, getPreviousPath.
    cbn [history currentIndex].
    destruct (Z.ltb_spec 0 (currentIndex h - Z.of_nat k)); [|lia].
    cbn [snd]. f_equal. lia.
Qed.

Lemma iter_forward (k : nat) (h : NavigationHistory) :
  currentIndex h + Z.of_nat k <= Z.of_nat (List.length (history h)) - 1 ->
  Nat.iter k forward h =
  {| history := history h; currentIndex := currentIndex h + Z.of_nat k |}.
Proof.
  induction k as [|k IH]; intros Hk.
  - simpl. rewrite Z.add_0_r. apply NavigationHistory_eta.
  - simpl Nat.iter. rewrite IH by lia. unfold forward, getNextPath.
    cbn [history currentIndex].
    destruct (Z.ltb_spec (currentIndex h + Z.of_nat k)
                (Z.of_nat (List.length (history h)) - 1)); [|lia].
    cbn [snd]. f_equal. lia.
Qed.

(** C2.  After [reset] and [visit(p1) ... visit(pn)] without consecutive
    duplicates the current path is [pn]; [k <= n - 1] calls of [back()]
    move the cursor [k] places down and leave the entries as they are,
    and [k] calls of [forward()] after them restore the state, so the
    current path is [pn] again.  Neither call ever changes the entries. *)
Theorem back_forward_roundtrip (initialPath : string) (paths : list string) (k : nat) :
  paths <> [] ->
  noConsecutiveDuplicates paths ->
  (k <= List.length paths - 1)%nat ->
  let h := visitAll paths (reset initialPath newNavigationHistory) in
  let hb := Nat.iter k back h in
  let h' := Nat.iter k forward hb in
  getCurrentPath h = List.last paths ""
  /\ currentIndex hb = currentIndex h - Z.of_nat k
  /\ history hb = history h
  /\ h' = h
  /\ getCurrentPath h' = List.last paths ""
  /\ (forall g, history (back g) = history g /\ history (forward g) = history g).
Proof.
  intros Hne Hnd Hk h hb h'.
  destruct paths as [|p1 rest]; [congruence|].
  set (h0 := reset initialPath newNavigationHistory).
  assert (H0 : atEnd h0) by (split; simpl; lia).
  destruct (addPath_atEnd p1 h0 H0) as (H1 & Hcur1 & _).
  assert (Hlen1 : (1 <= List.length (history (addPath p1 h0)))%nat).
  { destruct H1 as [Hp Hq]. lia. }
  destruct (visitAll_atEnd rest (addPath p1 h0) H1) as (Hend & Hlen & Hcur).
  { now rewrite Hcur1. }
  change (visitAll rest (addPath p1 h0)) with h in Hend, Hlen, Hcur.
  assert (Hlast : getCurrentPath h = List.last (p1 :: rest) "").
  { rewrite Hcur, Hcur1. destruct rest as [|q rest]; [reflexivity|].
    change (List.last (p1 :: q :: rest) "") with (List.last (q :: rest) "").
    apply last_cons_default. }
  destruct Hend as [Hc0 Hc]. simpl List.length in Hk.
  assert (Hhb : hb = {| history := history h;
                        currentIndex := currentIndex h - Z.of_nat k |}).
  { apply iter_back. lia. }
  assert (Hh' : h' = h).
  { subst h'. rewrite Hhb, iter_forward by (cbn [history currentIndex]; lia).
    cbn [history currentIndex]. rewrite (NavigationHistory_eta h) at 3.
    f_equal. lia. }
  split; [exact Hlast|]. split; [now rewrite Hhb|]. split; [now rewrite Hhb|].
  split; [exact Hh'|]. split; [now rewrite Hh'|].
  intros g. split; [apply history_back|apply history_forward].
Qed.

Lemma back_forward_roundtrip_witness :
  let h := visitAll ["b"; "c"; "b"] (reset "" newNavigationHistory) in
  getCurrentPath h = "b"
  /\ currentIndex (Nat.iter 2 back h) = currentIndex h - 2
  /\ history (Nat.iter 2 back h) = history h
  /\ Nat.iter 2 forward (Nat.iter 2 back h) = h
  /\ getCurrentPath (Nat.iter 2 forward (Nat.iter 2 back h)) = "b"
  /\ (forall g, history (back g) = history g /\ history (forward g) = history g).
Proof.
  apply (back_forward_roundtrip "" ["b"; "c"; "b"] 2).
  - discriminate.
  - simpl. repeat split; discriminate.
  - simpl. lia.
Defined.

(** ** SelectionModel (ui/fileExplorer.ts) *)

Section ExplorerProperties.

Import FileExplorer.

Lemma index_lookup {A} (l : list A) (i : nat) : Js.index l (Z.of_nat i) = l !! i.
Proof.
  rewrite index_nonneg, Nat2Z.id by lia.
  revert i. induction l as [|x l IH]; intros [|i]; simpl; auto.
Qed.

Lemma missing_name (file : FileItem) :
  name file <> "" -> missing (Some (name file)) = false.
Proof.
  intros H. unfold missing, Js.truthy.
  destruct (String.eqb_spec (name file) ""); [contradiction|reflexivity].
Qed.

Lemma of_nat_not_unset (i : nat) : (Z.of_nat i =? -1) = false.
Proof. apply Z.eqb_neq. lia. Qed.

Lemma addRange_step (files : list FileItem) (i : nat) (file : FileItem)
      (n : nat) (sel : gset string) :
  files !! i = Some file ->
  addRange files (Z.of_nat i) (S n) sel
  = addRange files (Z.of_nat (S i)) n ({[ name file ]} ∪ sel).
Proof.
  intros H. simpl addRange. rewrite index_lookup, H.
  replace (Z.of_nat i + 1) with (Z.of_nat (S i)) by lia. reflexivity.
Qed.

(** A click without modifiers on a rendered item. *)
Lemma clickSimple_result (s : State) (i : nat) (file : FileItem) :
  isLoading s = false ->
  currentRenderedFiles s !! i = Some file ->
  name file <> "" ->
  handleFileListClick (clickSimple file i) s
  = Returned (withSelection {[ name file ]} (Z.of_nat i) s).
Proof.
  intros Hidle Hfile Hname. unfold handleFileListClick, clickSimple.
  cbn [target ctrlKey metaKey shiftKey appendFileItem data_filename data_index default from_option id].
  rewrite Hidle, (missing_name _ Hname), of_nat_not_unset, index_lookup, Hfile.
  reflexivity.
Qed.

(** A shift-click on a rendered item when an anchor is set. *)
Lemma clickRange_result (s : State) (i : nat) (file : FileItem) (preserve : bool) :
  isLoading s = false ->
  currentRenderedFiles s !! i = Some file ->
  name file <> "" ->
  lastClickedIndex s <> -1 ->
  handleFileListClick (clickRange file i preserve) s
  = let start := Z.min (lastClickedIndex s) (Z.of_nat i) in
    let end_ := Z.max (lastClickedIndex s) (Z.of_nat i) in
    let '(sel, finished) :=
      addRange (currentRenderedFiles s) start (Z.to_nat (end_ - start + 1))
        (if preserve then selectedFiles s else ∅) in
    if finished then Returned (withSelection sel (lastClickedIndex s) s)
    else Thrown (withSelection sel (lastClickedIndex s) s).
Proof.
  intros Hidle Hfile Hname Hanchor. unfold handleFileListClick, clickRange.
  cbn [target ctrlKey metaKey shiftKey appendFileItem data_filename data_index default from_option id].
  rewrite Hidle, (missing_name _ Hname), of_nat_not_unset, index_lookup, Hfile.
  apply Z.eqb_neq in Hanchor. rewrite Hanchor, orb_false_r.
  destruct preserve; reflexivity.
Qed.

(** A shift-click on an item leaves the anchor where it is, whenever
    one is set. *)
Lemma shift_click_keeps_anchor (event : MouseEvent) (s : State) :
  shiftKey event = true -> target event <> None -> lastClickedIndex s <> -1 ->
  lastClickedIndex (stateOf (handleFileListClick event s)) = lastClickedIndex s.
Proof.
  intros Hshift Htarget Hanchor. unfold handleFileListClick.
  apply Z.eqb_neq in Hanchor. rewrite Hshift, Hanchor.
  destruct (isLoading s); [reflexivity|].
  destruct (target event) as [element|]; [|contradiction].
  destruct (missing _ || _); [reflexivity|].
  destruct (Js.index _ _); [|reflexivity].
  cbn [andb negb]. destruct (addRange _ _ _ _) as [sel []]; reflexivity.
Qed.

(** C5, as the code has it.  On a rendered list with items at indices
    1, 2 and 4 (paths not empty), a plain click on item 1, a shift-click
    on item 4 and a shift-click on item 2 all return, the anchor is 1
    after each of them, and the selection ends as the paths of items 1
    and 2.  A shift-click on an item never moves an anchor that is set;
    it does set one when none is. *)
Theorem range_selection_anchor_stable (s : State) (f1 f2 f4 : FileItem) :
  isLoading s = false ->
  currentRenderedFiles s !! 1%nat = Some f1 ->
  currentRenderedFiles s !! 2%nat = Some f2 ->
  currentRenderedFiles s !! 4%nat = Some f4 ->
  name f1 <> "" -> name f2 <> "" -> name f4 <> "" ->
  exists s1 s2 s3,
    handleFileListClick (clickSimple f1 1) s = Returned s1
    /\ handleFileListClick (clickRange f4 4 false) s1 = Returned s2
    /\ handleFileListClick (clickRange f2 2 false) s2 = Returned s3
    /\ lastClickedIndex s1 = 1 /\ lastClickedIndex s2 = 1 /\ lastClickedIndex s3 = 1
    /\ selectedFiles s3 = {[ name f1; name f2 ]}
    /\ (forall event s',
          shiftKey event = true -> target event <> None -> lastClickedIndex s' <> -1 ->
          lastClickedIndex (stateOf (handleFileListClick event s')) = lastClickedIndex s').
Proof.
  intros Hidle H1 H2 H4 Hn1 Hn2 Hn4.
  destruct (lookup_lt_is_Some_2 (currentRenderedFiles s) 3) as [f3 H3].
  { apply lookup_lt_Some in H4. lia. }
  set (files := currentRenderedFiles s) in *.
  set (s1 := withSelection {[ name f1 ]} 1 s).
  set (s2 := withSelection
               ({[ name f4 ]} ∪ ({[ name f3 ]} ∪ ({[ name f2 ]} ∪ ({[ name f1 ]} ∪ ∅))))
               1 s1).
  set (s3 := withSelection ({[ name f2 ]} ∪ ({[ name f1 ]} ∪ ∅)) 1 s2).
  exists s1, s2, s3.
  split; [now apply clickSimple_result|].
  split.
  { rewrite clickRange_result by (try assumption; simpl; lia).
    cbn [s1 withSelection lastClickedIndex currentRenderedFiles selectedFiles].
    fold files.
    change (Z.to_nat (Z.max 1 (Z.of_nat 4) - Z.min 1 (Z.of_nat 4) + 1)) with 4%nat.
    change (Z.min 1 (Z.of_nat 4)) with (Z.of_nat 1).
    rewrite (addRange_step _ _ _ _ _ H1), (addRange_step _ _ _ _ _ H2),
      (addRange_step _ _ _ _ _ H3), (addRange_step _ _ _ _ _ H4).
    reflexivity. }
  split.
  { rewrite clickRange_result by (try assumption; simpl; lia).
    cbn [s1 s2 withSelection lastClickedIndex currentRenderedFiles selectedFiles].
    fold files.
    change (Z.to_nat (Z.max 1 (Z.of_nat 2) - Z.min 1 (Z.of_nat 2) + 1)) with 2%nat.
    change (Z.min 1 (Z.of_nat 2)) with (Z.of_nat 1).
    rewrite (addRange_step _ _ _ _ _ H1), (addRange_step _ _ _ _ _ H2).
    reflexivity. }
  split; [reflexivity|]. split; [reflexivity|]. split; [reflexivity|].
  split.
  { cbn [s3 withSelection selectedFiles].
    rewrite (right_id_L ∅ (∪)). apply (comm_L (∪)). }
  intros event s'. apply shift_click_keeps_anchor.
Qed.

Lemma range_selection_anchor_stable_witness :
  exists s1 s2 s3,
    handleFileListClick (clickSimple (mkFile "b") 1) fiveRows = Returned s1
    /\ handleFileListClick (clickRange (mkFile "e") 4 false) s1 = Returned s2
    /\ handleFileListClick (clickRange (mkFile "c") 2 false) s2 = Returned s3
    /\ lastClickedIndex s1 = 1 /\ lastClickedIndex s2 = 1 /\ lastClickedIndex s3 = 1
    /\ selectedFiles s3 = {[ name (mkFile "b"); name (mkFile "c") ]}
    /\ (forall event s',
          shiftKey event = true -> target event <> None -> lastClickedIndex s' <> -1 ->
          lastClickedIndex (stateOf (handleFileListClick event s')) = lastClickedIndex s').
Proof.
  apply (range_selection_anchor_stable fiveRows (mkFile "b") (mkFile "c") (mkFile "e"));
    try reflexivity; simpl; discriminate.
Defined.

(** C5 as stated fails: a shift-click can change the anchor.  On a
    freshly rendered list, where the anchor is -1, a shift-click on
    row 4 moves the anchor to 4 and selects that row alone. *)
Lemma shift_click_moves_unset_anchor :
  let s := stateOf (handleFileListClick (clickRange (mkFile "e") 4 false) fiveRows) in
  lastClickedIndex fiveRows = -1
  /\ lastClickedIndex s = 4
  /\ lastClickedIndex s <> lastClickedIndex fiveRows
  /\ selectedFiles s = {[ "e" ]}.
Proof.
  cbv zeta. split; [reflexivity|]. split; [reflexivity|].
  split; [vm_compute; discriminate|reflexivity].
Qed.

(** C6, as the code has it.  With no anchor set, a shift-click on a
    rendered item is handled like the same click without shift: alone it
    replaces the selection by the clicked path, with ctrl it toggles the
    clicked path in the selection; either way the clicked index becomes
    the anchor. *)
Theorem shift_click_without_anchor
        (s : State) (i : nat) (file : FileItem) (preserveExisting : bool) :
  isLoading s = false ->
  currentRenderedFiles s !! i = Some file ->
  name file <> "" ->
  lastClickedIndex s = -1 ->
  handleFileListClick (clickRange file i preserveExisting) s
  = handleFileListClick (withoutShift (clickRange file i preserveExisting)) s
  /\ handleFileListClick (clickRange file i preserveExisting) s
     = Returned
         (withSelection
            (if preserveExisting then
               if bool_decide (name file ∈ selectedFiles s)
               then selectedFiles s ∖ {[ name file ]}
               else {[ name file ]} ∪ selectedFiles s
             else {[ name file ]})
            (Z.of_nat i) s).
Proof.
  intros Hidle Hfile Hname Hanchor.
  unfold handleFileListClick, withoutShift, clickRange.
  cbn [target ctrlKey metaKey shiftKey appendFileItem data_filename data_index default from_option id].
  rewrite Hidle, (missing_name _ Hname), of_nat_not_unset, index_lookup, Hfile, Hanchor.
  rewrite orb_false_r. cbn [Z.eqb negb andb].
  destruct preserveExisting; split; reflexivity.
Qed.

Lemma shift_click_without_anchor_witness :
  handleFileListClick (clickRange (mkFile "b") 1 false) fiveRows
  = handleFileListClick (withoutShift (clickRange (mkFile "b") 1 false)) fiveRows
  /\ handleFileListClick (clickRange (mkFile "b") 1 false) fiveRows
     = Returned (withSelection {[ name (mkFile "b") ]} (Z.of_nat 1) fiveRows).
Proof.
  apply (shift_click_without_anchor fiveRows 1 (mkFile "b") false);
    try reflexivity; simpl; discriminate.
Defined.

(** C6 as stated fails.  With no anchor, a shift-click on row 1 sets
    the anchor to 1; and with ctrl held as well, on a row that is
    already selected (here through the context menu, which sets no
    anchor), it removes the row from the selection. *)
Lemma shift_click_without_anchor_sets_anchor :
  lastClickedIndex fiveRows = -1
  /\ lastClickedIndex
       (stateOf (handleFileListClick (clickRange (mkFile "b") 1 false) fiveRows)) = 1
  /\ (let s := handleFileListContextMenu (rightClick (mkFile "b") 1) fiveRows in
      lastClickedIndex s = -1
      /\ selectedFiles s = {[ "b" ]}
      /\ selectedFiles
           (stateOf (handleFileListClick (clickRange (mkFile "b") 1 true) s)) = ∅).
Proof.
  split; [reflexivity|]. split; [reflexivity|].
  split; [reflexivity|]. split; [reflexivity|].
  vm_compute. reflexivity.
Qed.

(** Toggling, on the five rows: a plain click on [a], ctrl-click on
    [b], ctrl-click on [a] leave [b] selected and the anchor on row 0. *)
Example toggle_sequence :
  let s1 := stateOf (handleFileListClick (clickSimple (mkFile "a") 0) fiveRows) in
  let s2 := stateOf (handleFileListClick (clickToggle (mkFile "b") 1) s1) in
  let s3 := stateOf (handleFileListClick (clickToggle (mkFile "a") 0) s2) in
  selectedFiles s1 = {[ "a" ]}
  /\ selectedFiles s2 = {[ "a"; "b" ]}
  /\ selectedFiles s3 = {[ "b" ]}
  /\ lastClickedIndex s3 = 0.
Proof. vm_compute. repeat split. Qed.

(** *** The selection stays inside the rendered list *)








(** *** The rows of the body and the list rendered last *)












End ExplorerProperties.

(** ** LoadingGate and the controller *)

Section ControllerProperties.

Variable localeCompare : string -> string -> Z.

Lemma navigateToFolder_busy (folderPath : string) (a : App) :
  getIsLoading a = true -> navigateToFolder localeCompare folderPath a = a.
Proof. intros H. unfold navigateToFolder. now rewrite H. Qed.

Lemma backClick_busy (a : App) : getIsLoading a = true -> backClick localeCompare a = a.
Proof. intros H. unfold backClick. now rewrite H. Qed.

Lemma forwardClick_busy (a : App) :
  getIsLoading a = true -> forwardClick localeCompare a = a.
Proof. intros H. unfold forwardClick. now rewrite H. Qed.

Lemma upClick_busy (a : App) : getIsLoading a = true -> upClick localeCompare a = a.
Proof. intros H. unfold upClick. now rewrite H. Qed.

(** While the gate is set, a double click does what the list module
    does on its own (it may clear the selection) and, on a file that is
    not a directory, shows the preview notice; it never navigates. *)
Lemma dblClick_busy (event : MouseEvent) (a : App) :
  getIsLoading a = true ->
  dblClick localeCompare event a =
  let '(e, hit) := FileExplorer.handleFileListDblClick event (fileExplorer a) in
  match hit with
  | Some file =>
      if is_dir file then withExplorer e a else emit ShowInfo (withExplorer e a)
  | None => withExplorer e a
  end.
Proof.
  intros H. unfold dblClick.
  destruct (FileExplorer.handleFileListDblClick event (fileExplorer a)) as [e hit].
  destruct hit as [file|]; [|reflexivity].
  assert (Hbusy : getIsLoading (withExplorer e a) = true) by exact H.
  unfold onFileDblClickCallback. rewrite Hbusy.
  destruct (FileExplorer.onFileDblClick e), (is_dir file);
    rewrite ?navigateToFolder_busy by exact Hbusy; reflexivity.
Qed.

(** Every redraw goes through [updateFileList]: after [refreshUI] the
    selection is empty and the anchor unset, and the rows are the sorted
    children of the current folder. *)
Lemma refreshUI_clears_selection (a : App) :
  FileExplorer.selectedFiles (fileExplorer (refreshUI localeCompare a)) = ∅
  /\ FileExplorer.lastClickedIndex (fileExplorer (refreshUI localeCompare a)) = -1
  /\ FileExplorer.currentRenderedFiles (fileExplorer (refreshUI localeCompare a))
     = sortFiles localeCompare
         (filterFilesByFolder (getCurrentFiles a)
            (getCurrentPath (navigationHistory a)))
  /\ navigationHistory (refreshUI localeCompare a) = navigationHistory a
  /\ appState (refreshUI localeCompare a) = appState a.
Proof. repeat split. Qed.

(** C8, as the code has it.  While [appState.isLoading] is set, every
    navigation action (back, forward, up, folder click, double click)
    leaves the history entries, the cursor, the cached entry list and
    the gate as they are; back, forward, up and folder click leave the
    whole state as it is, and a double click on a directory changes the
    file list module only (its selection), without any effect.  In
    particular the back button does not move the cursor although
    [canGoBack()] holds. *)
Theorem busy_rejects_navigation (act : NavAction) (a : App) :
  getIsLoading a = true ->
  navigationHistory (navigate localeCompare act a) = navigationHistory a
  /\ getCurrentFiles (navigate localeCompare act a) = getCurrentFiles a
  /\ getIsLoading (navigate localeCompare act a) = true
  /\ ((forall event, act <> DoubleClick event) -> navigate localeCompare act a = a)
  /\ (forall event file,
        act = DoubleClick event ->
        snd (FileExplorer.handleFileListDblClick event (fileExplorer a)) = Some file ->
        is_dir file = true ->
        navigate localeCompare act a
        = withExplorer (fst (FileExplorer.handleFileListDblClick event (fileExplorer a))) a)
  /\ (canGoBack (navigationHistory a) = true ->
      currentIndex (navigationHistory (backClick localeCompare a))
      = currentIndex (navigationHistory a)).
Proof.
  intros H.
  assert (Hstay : forall a', (forall event, act <> DoubleClick event) ->
                             navigate localeCompare act a = a' -> a' = a).
  { intros a' Hact <-. destruct act; cbn [navigate];
      [now apply backClick_busy|now apply forwardClick_busy|now apply upClick_busy
      |now apply navigateToFolder_busy|now contradiction (Hact event)]. }
  destruct act as [| | |folderPath|event]; cbn [navigate];
    rewrite ?backClick_busy, ?forwardClick_busy, ?upClick_busy,
      ?navigateToFolder_busy, ?(dblClick_busy event) by exact H;
    try (repeat split; solve [assumption|reflexivity|discriminate|intros; discriminate]).
  destruct (FileExplorer.handleFileListDblClick event (fileExplorer a))
    as [e hit] eqn:Hdbl.
  assert (Hresult :
    forall a', a' = match hit with
                    | Some file =>
                        if is_dir file then withExplorer e a
                        else emit ShowInfo (withExplorer e a)
                    | None => withExplorer e a
                    end ->
    navigationHistory a' = navigationHistory a
    /\ getCurrentFiles a' = getCurrentFiles a /\ getIsLoading a' = true).
  { intros a' ->. destruct hit as [file|]; [destruct (is_dir file)|];
      repeat split; exact H. }
  destruct (Hresult _ eq_refl) as (Hn & Hf & Hl).
  split; [exact Hn|]. split; [exact Hf|]. split; [exact Hl|].
  split; [intros Hact; now contradiction (Hact event)|].
  split; [|reflexivity].
  intros event' file Hev Hhit Hdir. injection Hev as Hev. subst event'.
  rewrite Hdbl in Hhit |- *. cbn [snd fst] in Hhit |- *.
  rewrite Hhit, Hdir. reflexivity.
Qed.

End ControllerProperties.

Lemma busy_rejects_navigation_witness :
  navigationHistory (navigate codeUnitCompare GoBack busyApp) = navigationHistory busyApp
  /\ getCurrentFiles (navigate codeUnitCompare GoBack busyApp) = getCurrentFiles busyApp
  /\ getIsLoading (navigate codeUnitCompare GoBack busyApp) = true
  /\ ((forall event, GoBack <> DoubleClick event) ->
      navigate codeUnitCompare GoBack busyApp = busyApp)
  /\ (forall event file,
        GoBack = DoubleClick event ->
        snd (FileExplorer.handleFileListDblClick event (fileExplorer busyApp)) = Some file ->
        is_dir file = true ->
        navigate codeUnitCompare GoBack busyApp
        = withExplorer
            (fst (FileExplorer.handleFileListDblClick event (fileExplorer busyApp)))
            busyApp)
  /\ (canGoBack (navigationHistory busyApp) = true ->
      currentIndex (navigationHistory (backClick codeUnitCompare busyApp))
      = currentIndex (navigationHistory busyApp)).
Proof.
  apply (busy_rejects_navigation codeUnitCompare GoBack busyApp). reflexivity.
Defined.

(** C8 as stated fails for the commands.  While the gate is set, the
    paste handler calls the backend at once, and the delete handler
    opens its confirmation, whose callback calls the backend; when the
    backend answers, the cached entry list is replaced and the gate is
    cleared. *)
Lemma busy_commands_are_dispatched :
  getIsLoading busyApp = true
  /\ handlePaste busyApp
     = (emit (Invoke "paste_files_in_archive") busyApp, true)
  /\ getCurrentFiles
       (runPaste codeUnitCompare (Resolved tt)
          (Resolved [mkFile "dir/b.txt"; mkFile "b.txt"]) busyApp)
     <> getCurrentFiles busyApp
  /\ getIsLoading
       (runPaste codeUnitCompare (Resolved tt)
          (Resolved [mkFile "dir/b.txt"; mkFile "b.txt"]) busyApp) = false
  /\ confirmDialog (shell (handleDelete busyApp)) = Some ["dir/b.txt"]
  /\ snd (confirmClick (handleDelete busyApp)) = true
  /\ getCurrentFiles (runDelete codeUnitCompare (Resolved tt) (Resolved []) busyApp)
     <> getCurrentFiles busyApp.
Proof.
  split; [reflexivity|]. split; [reflexivity|].
  split; [vm_compute; discriminate|]. split; [reflexivity|].
  split; [vm_compute; reflexivity|]. split; [vm_compute; reflexivity|].
  vm_compute. discriminate.
Qed.

(** C9.  [loadArchive] sets the gate before its first await, the gate
    is still set at the second one, and it is clear when [loadArchive]
    is done, for either answer of the backend.  When the backend
    rejects, [loadArchive] leaves the archive path and the cached list
    empty, the home page shown, the toolbar disabled and one error
    notice; the history and the file list (rows, selection) are as
    before the call, where [resetAppToHome] puts the history back to the
    single root entry.  After browsing into [dir/] of an archive, a
    rejected [loadArchive] so leaves the history at [dir/] with a way
    back, the row of the closed archive in the list, and a Back button
    that still moves in that history.  A refresh whose backend call
    rejects only shows an error and clears the gate: the cached list,
    the archive path, the history and the rendered rows are as
    before. *)
Theorem loadArchive_gate_and_failure
        (localeCompare : string -> string -> Z) (archivePath : string) :
  (forall a, getIsLoading (loadArchiveBegin archivePath a) = true)
  /\ (forall files a,
        getIsLoading
          (fst (loadArchiveOpened archivePath (Resolved files)
                  (loadArchiveBegin archivePath a))) = true)
  /\ (forall r a, getIsLoading (loadArchive localeCompare archivePath r a) = false)
  /\ (forall a,
        let a' := loadArchive localeCompare archivePath Rejected a in
        appState a' = AppState.initial
        /\ view (shell a') = HomePage
        /\ toolbarEnabled (shell a') = false
        /\ trace (shell a') = ShowError :: Invoke "open_archive" :: trace (shell a)
        /\ navigationHistory a' = navigationHistory a
        /\ fileExplorer a' = fileExplorer a)
  /\ (forall a,
        let a' := resetAppToHome a in
        appState a' = AppState.initial
        /\ view (shell a') = HomePage
        /\ toolbarEnabled (shell a') = false
        /\ navigationHistory a' = {| history := [""]; currentIndex := 0 |}
        /\ fileExplorer a' = fileExplorer a)
  /\ (let a :=
        navigateToFolder localeCompare "dir/"
          (loadArchive localeCompare "x.zip"
             (Resolved [mkDir "dir/"; mkFile "dir/b.txt"]) initialApp) in
      let a' := loadArchive localeCompare archivePath Rejected a in
      navigationHistory a = {| history := [""; "dir/"]; currentIndex := 1 |}
      /\ navigationHistory a' = {| history := [""; "dir/"]; currentIndex := 1 |}
      /\ canGoBack (navigationHistory a') = true
      /\ FileExplorer.currentRenderedFiles (fileExplorer a') = [mkFile "dir/b.txt"]
      /\ navigationHistory a' <> navigationHistory (resetAppToHome a)
      /\ navigationHistory (backClick localeCompare a')
         = {| history := [""; "dir/"]; currentIndex := 0 |})
  /\ (forall a,
        let a' := refreshSettled localeCompare Rejected a in
        getIsLoading a' = false
        /\ FileExplorer.isLoading (fileExplorer a') = false
        /\ getCurrentFiles a' = getCurrentFiles a
        /\ getCurrentArchivePath a' = getCurrentArchivePath a
        /\ navigationHistory a' = navigationHistory a
        /\ FileExplorer.currentRenderedFiles (fileExplorer a')
           = FileExplorer.currentRenderedFiles (fileExplorer a)
        /\ FileExplorer.selectedFiles (fileExplorer a')
           = FileExplorer.selectedFiles (fileExplorer a)
        /\ trace (shell a') = ShowError :: trace (shell a)).
Proof.
  split; [reflexivity|].
  split; [reflexivity|].
  split; [intros [files|] a; reflexivity|].
  split; [intros a; repeat split|].
  split; [intros a; repeat split|].
  split.
  { cbv zeta. split; [reflexivity|]. split; [reflexivity|]. split; [reflexivity|].
    split; [reflexivity|]. split; [cbv; discriminate|reflexivity]. }
  intros a. repeat split.
Qed.

(** The gate, set by a refresh, is cleared when the backend answers,
    whichever way. *)
Lemma refresh_gate (localeCompare : string -> string -> Z) (a : App) :
  (getIsLoading a = false -> getCurrentArchivePath a <> "" ->
   snd (refreshClick a) = true /\ getIsLoading (fst (refreshClick a)) = true)
  /\ (forall r, getIsLoading (refreshSettled localeCompare r a) = false).
Proof.
  split.
  - intros Hidle Hpath. unfold refreshClick, Js.truthy. rewrite Hidle.
    destruct (String.eqb_spec (getCurrentArchivePath a) ""); [contradiction|].
    split; reflexivity.
  - intros [files|]; reflexivity.
Qed.

(** * Further properties of the sources *)

(** ** More on strings *)

Lemma append_cons (x : ascii) (a b : string) : String x a ++ b = String x (a ++ b).
Proof. reflexivity. Qed.

Lemma append_assoc (a b c : string) : (a ++ b) ++ c = a ++ (b ++ c).
Proof.
  induction a as [|x a IH]; [reflexivity|]. rewrite !append_cons. f_equal. exact IH.
Qed.

Lemma append_empty_r (a : string) : a ++ "" = a.
Proof.
  induction a as [|x a IH]; [reflexivity|]. rewrite append_cons. f_equal. exact IH.
Qed.

Lemma length_append (a b : string) :
  String.length (a ++ b) = (String.length a + String.length b)%nat.
Proof.
  induction a as [|x a IH]; [reflexivity|]. rewrite append_cons. simpl. f_equal.
  exact IH.
Qed.

Lemma includes_slash_cons (c : ascii) (s : string) :
  Js.includes "/" (String c s) = Ascii.eqb c "/" || Js.includes "/" s.
Proof.
  cbn [Js.includes]. rewrite prefix_cons. rewrite (Ascii.eqb_sym "/" c).
  destruct s; simpl; now rewrite andb_true_r.
Qed.

Lemma includes_slash_append (a b : string) :
  Js.includes "/" (a ++ b) = Js.includes "/" a || Js.includes "/" b.
Proof.
  induction a as [|x a IH].
  - change ("" ++ b) with b. destruct b; reflexivity.
  - rewrite append_cons, !includes_slash_cons, IH. now rewrite orb_assoc.
Qed.

Lemma append_slash_not_empty (a : string) : a ++ "/" <> "".
Proof. destruct a; discriminate. Qed.

Lemma lastIsSlash_cons (c : ascii) (s : string) :
  s <> "" -> lastIsSlash (String c s) = lastIsSlash s.
Proof. destruct s; [contradiction|reflexivity]. Qed.

Lemma dropLast_cons (c : ascii) (s : string) :
  s <> "" -> Js.dropLast (String c s) = String c (Js.dropLast s).
Proof. destruct s; [contradiction|reflexivity]. Qed.

Lemma lastIsSlash_append_slash (a : string) : lastIsSlash (a ++ "/") = true.
Proof.
  induction a as [|x a IH]; [reflexivity|].
  rewrite append_cons, lastIsSlash_cons by apply append_slash_not_empty. exact IH.
Qed.

Lemma dropLast_append_slash (a : string) : Js.dropLast (a ++ "/") = a.
Proof.
  induction a as [|x a IH]; [reflexivity|].
  rewrite append_cons, dropLast_cons by apply append_slash_not_empty. now rewrite IH.
Qed.

(** A string that ends with a slash is its [dropLast] and a slash. *)
Lemma lastIsSlash_append (a b : string) :
  b <> "" -> lastIsSlash (a ++ b) = lastIsSlash b.
Proof.
  intros Hb. induction a as [|c a IH]; [reflexivity|].
  rewrite append_cons, lastIsSlash_cons; [exact IH|].
  destruct a; [exact Hb|discriminate].
Qed.

Lemma lastIsSlash_split (s : string) :
  lastIsSlash s = true -> s = Js.dropLast s ++ "/".
Proof.
  induction s as [|c s IH]; [discriminate|].
  destruct s as [|c' s'].
  - simpl. intros H. apply Ascii.eqb_eq in H. now subst.
  - intros H. rewrite lastIsSlash_cons in H by discriminate.
    rewrite dropLast_cons, append_cons by discriminate. f_equal. now apply IH.
Qed.

Lemma lastIsSlash_no_slash (s : string) :
  Js.includes "/" s = false -> lastIsSlash s = false.
Proof.
  induction s as [|c s IH]; [reflexivity|].
  rewrite includes_slash_cons. intros H. apply orb_false_elim in H as [Hc Hs].
  destruct s; [exact Hc|now apply IH].
Qed.

Lemma substring_to_append (a b : string) :
  Js.substring_to (String.length a) (a ++ b) = a.
Proof.
  induction a as [|x a IH]; [now destruct b|]. rewrite append_cons. simpl. f_equal.
  exact IH.
Qed.

Lemma substring_from_append (a b : string) :
  Js.substring_from (String.length a) (a ++ b) = b.
Proof. induction a as [|x a IH]; [reflexivity|]. rewrite append_cons. exact IH. Qed.

Lemma prefix_append (a b : string) : String.prefix a (a ++ b) = true.
Proof.
  induction a as [|x a IH]; [now destruct b|].
  now rewrite append_cons, prefix_cons, Ascii.eqb_refl.
Qed.

(** A prefix splits the string. *)
Lemma prefix_split (p s : string) :
  String.prefix p s = true -> s = p ++ Js.substring_from (String.length p) s.
Proof.
  revert s. induction p as [|x p IH]; intros s H; [reflexivity|].
  destruct s as [|y s]; [discriminate|].
  rewrite prefix_cons in H. apply andb_prop in H as [Hx Hp].
  apply Ascii.eqb_eq in Hx. subst y. rewrite append_cons. simpl. f_equal.
  now apply IH.
Qed.

(** Either there is no slash, or there is a last one. *)
Lemma last_slash_split (s : string) :
  Js.includes "/" s = false
  \/ exists a b, s = a ++ String "/" b /\ Js.includes "/" b = false.
Proof.
  induction s as [|c s IH]; [now left|].
  destruct IH as [Hs|(a & b & -> & Hb)].
  - destruct (Ascii.eqb_spec c "/") as [->|Hc].
    + right. exists "", s. split; [reflexivity|exact Hs].
    + left. rewrite includes_slash_cons, Hs.
      apply Ascii.eqb_neq in Hc. now rewrite Hc.
  - right. exists (String c a), b. split; [reflexivity|exact Hb].
Qed.

Lemma lastIndexOf_slash_from_none (i : Z) (s : string) :
  Js.includes "/" s = false -> Js.lastIndexOf_slash_from i s = -1.
Proof.
  revert i. induction s as [|c s IH]; intros i H; [reflexivity|].
  rewrite includes_slash_cons in H. apply orb_false_elim in H as [Hc Hs].
  cbn [Js.lastIndexOf_slash_from]. rewrite (IH _ Hs), Hc. reflexivity.
Qed.

Lemma lastIndexOf_slash_from_last (i : Z) (a b : string) :
  0 <= i -> Js.includes "/" b = false ->
  Js.lastIndexOf_slash_from i (a ++ String "/" b) = i + Z.of_nat (String.length a).
Proof.
  revert i. induction a as [|x a IH]; intros i Hi Hb.
  - change ("" ++ String "/" b) with (String "/" b). cbn [Js.lastIndexOf_slash_from].
    rewrite (lastIndexOf_slash_from_none _ _ Hb). simpl. lia.
  - rewrite append_cons. cbn [Js.lastIndexOf_slash_from]. rewrite IH by (assumption || lia).
    destruct (Z.leb_spec 0 (i + 1 + Z.of_nat (String.length a))); [|lia].
    simpl String.length. lia.
Qed.

Lemma replaceLeadingSlashes_cons (c : ascii) (s : string) :
  Js.replaceLeadingSlashes (String c s)
  = if Ascii.eqb c "/" then Js.replaceLeadingSlashes s else String c s.
Proof. destruct c as [[] [] [] [] [] [] [] []]; reflexivity. Qed.

Lemma startsWith_slash_cons (c : ascii) (s : string) :
  Js.startsWith "/" (String c s) = Ascii.eqb c "/".
Proof.
  unfold Js.startsWith. rewrite prefix_cons, (Ascii.eqb_sym "/" c).
  destruct s; simpl; now rewrite andb_true_r.
Qed.

Lemma replaceLeadingSlashes_no_leading (s : string) :
  Js.startsWith "/" (Js.replaceLeadingSlashes s) = false.
Proof.
  induction s as [|c s IH]; [reflexivity|].
  rewrite replaceLeadingSlashes_cons. destruct (Ascii.eqb c "/") eqn:Hc; [exact IH|].
  now rewrite startsWith_slash_cons.
Qed.

Lemma replaceLeadingSlashes_id (s : string) :
  Js.startsWith "/" s = false -> Js.replaceLeadingSlashes s = s.
Proof.
  destruct s as [|c s]; [reflexivity|].
  rewrite startsWith_slash_cons, replaceLeadingSlashes_cons. now intros ->.
Qed.

Lemma truthy_false (s : string) : Js.truthy s = false <-> s = "".
Proof.
  unfold Js.truthy. rewrite negb_false_iff. apply String.eqb_eq.
Qed.

Lemma truthy_true (s : string) : Js.truthy s = true <-> s <> "".
Proof.
  unfold Js.truthy. rewrite negb_true_iff. apply String.eqb_neq.
Qed.

(** ** navigationService.ts: [normalizeFolderPath] and [getParentPath] *)

(** A string without leading slash that is empty or ends with a slash
    is left alone by [normalizeFolderPath]. *)
Lemma normalizeFolderPath_fixed (p : string) :
  Js.startsWith "/" p = false ->
  p = "" \/ Js.endsWith "/" p = true ->
  normalizeFolderPath p = p.
Proof.
  intros Hlead Hend. unfold normalizeFolderPath.
  destruct (Js.truthy p) eqn:Ht; [|apply truthy_false in Ht; now subst].
  cbn [negb]. rewrite (replaceLeadingSlashes_id _ Hlead), Ht.
  destruct Hend as [-> | ->]; [discriminate Ht|reflexivity].
Qed.

Lemma normalizeFolderPath_ends (folderPath : string) :
  Js.startsWith "/" (normalizeFolderPath folderPath) = false
  /\ (normalizeFolderPath folderPath = ""
      \/ Js.endsWith "/" (normalizeFolderPath folderPath) = true).
Proof.
  unfold normalizeFolderPath.
  destruct (Js.truthy folderPath); [|now split; [|left]]. cbn [negb].
  pose proof (replaceLeadingSlashes_no_leading folderPath) as Hlead.
  set (r := Js.replaceLeadingSlashes folderPath) in *.
  destruct (Js.truthy r) eqn:Ht.
  - destruct (Js.endsWith "/" r) eqn:He; cbn [negb andb].
    + split; [exact Hlead|now right].
    + split.
      * destruct r as [|c r']; [discriminate|].
        change (String c r' ++ "/") with (String c (r' ++ "/")).
        rewrite startsWith_slash_cons in *. exact Hlead.
      * right. rewrite endsWith_slash. apply lastIsSlash_append_slash.
  - cbn [andb]. apply truthy_false in Ht. split; [exact Hlead|now left].
Qed.

(** X1.  [normalizeFolderPath] returns a path without leading slash
    that is empty or ends with a slash, and it changes no path it has
    returned. *)
Theorem normalizeFolderPath_normal_form (folderPath : string) :
  let p := normalizeFolderPath folderPath in
  Js.startsWith "/" p = false
  /\ (p = "" \/ Js.endsWith "/" p = true)
  /\ normalizeFolderPath p = p.
Proof.
  cbv zeta.
  destruct (normalizeFolderPath_ends folderPath) as [Hlead Hend].
  split; [exact Hlead|]. split; [exact Hend|].
  now apply normalizeFolderPath_fixed.
Qed.

Lemma getParentPath_unfold (p : string) :
  p <> "" ->
  getParentPath p =
  let n := if lastIsSlash p then Js.dropLast p else p in
  let i := Js.lastIndexOf_slash n in
  if i <? 0 then "" else if i =? 0 then "/"
  else Js.substring_to (Z.to_nat i) n ++ "/".
Proof.
  intros Hp. unfold getParentPath. apply truthy_true in Hp. rewrite Hp.
  cbn [negb]. now rewrite endsWith_slash.
Qed.

(** The parent path when the path, without its trailing slash, has a
    last slash after [a]. *)
Lemma getParentPath_last_slash (p a b : string) :
  p <> "" ->
  (if lastIsSlash p then Js.dropLast p else p) = a ++ String "/" b ->
  Js.includes "/" b = false ->
  getParentPath p = a ++ "/".
Proof.
  intros Hp Hn Hb. rewrite getParentPath_unfold by assumption. cbv zeta.
  rewrite Hn. unfold Js.lastIndexOf_slash.
  rewrite lastIndexOf_slash_from_last by (assumption || lia).
  destruct (Z.ltb_spec (0 + Z.of_nat (String.length a)) 0); [lia|].
  destruct (Z.eqb_spec (0 + Z.of_nat (String.length a)) 0) as [H0|H0].
  - destruct a; [reflexivity|simpl in H0; lia].
  - replace (Z.to_nat (0 + Z.of_nat (String.length a))) with (String.length a) by lia.
    now rewrite substring_to_append.
Qed.

Lemma getParentPath_no_slash (p : string) :
  p <> "" ->
  Js.includes "/" (if lastIsSlash p then Js.dropLast p else p) = false ->
  getParentPath p = "".
Proof.
  intros Hp Hn. rewrite getParentPath_unfold by assumption. cbv zeta.
  unfold Js.lastIndexOf_slash. now rewrite lastIndexOf_slash_from_none.
Qed.

Lemma getParentPath_segment (folder segment t : string) :
  folder = "" \/ Js.endsWith "/" folder = true ->
  isSegment segment ->
  t = "" \/ t = "/" ->
  getParentPath (folder ++ segment ++ t) = folder.
Proof.
  intros Hfolder [Hne Hseg] Ht.
  assert (Hp : folder ++ segment ++ t <> "").
  { destruct folder; [|discriminate].
    destruct segment; [contradiction|discriminate]. }
  assert (Hn : (if lastIsSlash (folder ++ segment ++ t)
                then Js.dropLast (folder ++ segment ++ t)
                else folder ++ segment ++ t) = folder ++ segment).
  { destruct Ht as [-> | ->].
    - rewrite append_empty_r, lastIsSlash_append by exact Hne.
      now rewrite (lastIsSlash_no_slash _ Hseg).
    - rewrite <- append_assoc, lastIsSlash_append_slash. apply dropLast_append_slash. }
  destruct Hfolder as [-> | Hend].
  - apply getParentPath_no_slash; [exact Hp|]. now rewrite Hn.
  - rewrite endsWith_slash in Hend. apply lastIsSlash_split in Hend.
    rewrite Hend at 2. apply (getParentPath_last_slash _ _ segment); [exact Hp| |exact Hseg].
    rewrite Hn. rewrite Hend at 1. now rewrite append_assoc.
Qed.

(** X2.  Going up from a child gives the folder back: for a folder
    that is the root or ends with a slash, and a segment without slash,
    the parent of folder + segment + slash (a folder in it) and the
    parent of folder + segment (a file in it) are both the folder. *)
Theorem getParentPath_of_child (folder segment : string) :
  folder = "" \/ Js.endsWith "/" folder = true ->
  isSegment segment ->
  getParentPath (folder ++ segment ++ "/") = folder
  /\ getParentPath (folder ++ segment) = folder.
Proof.
  intros Hfolder Hseg. split.
  - apply getParentPath_segment; [exact Hfolder|exact Hseg|now right].
  - pose proof (getParentPath_segment folder segment "" Hfolder Hseg (or_introl eq_refl))
      as H.
    now rewrite append_empty_r in H.
Qed.

Lemma getParentPath_of_child_witness :
  getParentPath ("docs/" ++ "images" ++ "/") = "docs/"
  /\ getParentPath ("docs/" ++ "images") = "docs/".
Proof.
  apply (getParentPath_of_child "docs/" "images").
  - right. reflexivity.
  - split; [discriminate|reflexivity].
Defined.

(** X3.  The parent of a non-empty path is a proper prefix of it, so
    going up repeatedly reaches the root; and the parent of a normalized
    path is normalized. *)
Theorem getParentPath_proper_prefix (p : string) :
  p <> "" ->
  String.prefix (getParentPath p) p = true
  /\ (String.length (getParentPath p) < String.length p)%nat
  /\ (normalizeFolderPath p = p ->
      normalizeFolderPath (getParentPath p) = getParentPath p).
Proof.
  intros Hp.
  set (n := if lastIsSlash p then Js.dropLast p else p).
  assert (Hsplit : exists t, p = n ++ t /\ (t = "" -> lastIsSlash p = false)
                             /\ (t = "" \/ t = "/")).
  { subst n. destruct (lastIsSlash p) eqn:Hl.
    - exists "/". split; [now apply lastIsSlash_split|]. split; [discriminate|now right].
    - exists "". split; [now rewrite append_empty_r|]. split; [reflexivity|now left]. }
  destruct Hsplit as (t & Hpt & Ht & Htcases).
  destruct (last_slash_split n) as [Hnone|(a & b & Hn & Hb)].
  - rewrite (getParentPath_no_slash p Hp Hnone).
    split; [now destruct p|]. split; [destruct p; [contradiction|simpl; lia]|].
    intros _. reflexivity.
  - rewrite (getParentPath_last_slash p a b Hp Hn Hb).
    assert (Hpab : p = (a ++ "/") ++ b ++ t).
    { rewrite Hpt, Hn. rewrite !append_assoc. reflexivity. }
    split; [rewrite Hpab; apply prefix_append|].
    split.
    + rewrite Hpab. rewrite !length_append. simpl.
      destruct Htcases as [-> | ->]; [|simpl; lia].
      destruct b as [|c b]; [|simpl; lia].
      specialize (Ht eq_refl).
      assert (Hp' : p = a ++ "/").
      { rewrite Hpab. change ("" ++ "") with "". apply append_empty_r. }
      rewrite Hp', lastIsSlash_append_slash in Ht. discriminate Ht.
    + intros Hnorm.
      destruct (normalizeFolderPath_ends p) as (Hlead & _).
      rewrite Hnorm in Hlead. apply normalizeFolderPath_fixed.
      * destruct a as [|c a].
        -- rewrite Hpab in Hlead.
           change (("" ++ "/") ++ b ++ t) with (String "/" (b ++ t)) in Hlead.
           rewrite startsWith_slash_cons in Hlead. discriminate Hlead.
        -- rewrite Hpab in Hlead. rewrite !append_cons, startsWith_slash_cons in *.
           exact Hlead.
      * right. rewrite endsWith_slash. apply lastIsSlash_append_slash.
Qed.

Lemma getParentPath_proper_prefix_witness :
  String.prefix (getParentPath "a/b/c/") "a/b/c/" = true
  /\ (String.length (getParentPath "a/b/c/") < String.length "a/b/c/")%nat
  /\ (normalizeFolderPath "a/b/c/" = "a/b/c/" ->
      normalizeFolderPath (getParentPath "a/b/c/") = getParentPath "a/b/c/").
Proof. apply (getParentPath_proper_prefix "a/b/c/"). discriminate. Defined.

(** ** navigationService.ts: the history as a state machine *)

Lemma noConsecutiveDuplicates_firstn (n : nat) (l : list string) :
  noConsecutiveDuplicates l -> noConsecutiveDuplicates (firstn n l).
Proof.
  revert l. induction n as [|n IH]; intros l H; [exact I|].
  destruct l as [|a [|b tl]]; [exact I|destruct n; exact I|].
  destruct H as [Hab H]. specialize (IH (b :: tl) H).
  destruct n as [|n]; [exact I|]. split; [exact Hab|exact IH].
Qed.

Lemma noConsecutiveDuplicates_snoc (l : list string) (path : string) :
  noConsecutiveDuplicates l ->
  (forall x, nth_error l (List.length l - 1) = Some x -> x <> path) ->
  noConsecutiveDuplicates (l ++ [path])%list.
Proof.
  induction l as [|a l IH]; intros H Hlast; [exact I|].
  destruct l as [|b tl].
  - split; [apply Hlast; reflexivity|exact I].
  - destruct H as [Hab H]. split; [exact Hab|]. apply IH; [exact H|].
    intros x Hx. apply Hlast. simpl in Hx |- *.
    now rewrite Nat.sub_0_r in *.
Qed.

Lemma getCurrentPath_in_range (h : NavigationHistory) :
  0 <= currentIndex h < Z.of_nat (List.length (history h)) ->
  exists p, Js.index (history h) (currentIndex h) = Some p /\ getCurrentPath h = p.
Proof.
  intros Hc. unfold getCurrentPath.
  destruct (Z.leb_spec 0 (currentIndex h)); [|lia].
  destruct (Z.ltb_spec (currentIndex h) (Z.of_nat (List.length (history h)))); [|lia].
  cbn [andb]. rewrite index_nonneg by lia.
  destruct (nth_error (history h) (Z.to_nat (currentIndex h))) as [p|] eqn:Hp.
  - now exists p.
  - apply List.nth_error_None in Hp. lia.
Qed.

(** After [addPath path] the current path is [path], from every state
    of the class. *)
Lemma getCurrentPath_addPath (path : string) (h : NavigationHistory) :
  wfHistory h -> getCurrentPath (addPath path h) = path.
Proof.
  intros Hwf. pose proof (wfHistory_addPath path h Hwf) as Hwf'.
  rewrite addPath_cases in * by assumption. cbv zeta in *.
  destruct (strictNeq _ path) eqn:Hs.
  - destruct (getCurrentPath_in_range
                {| history := (firstn (Z.to_nat (currentIndex h + 1)) (history h) ++ [path])%list;
                   currentIndex :=
                     Z.of_nat (List.length
                       (firstn (Z.to_nat (currentIndex h + 1)) (history h) ++ [path])%list) - 1 |})
      as (p & Hp & ->).
    { cbn [history currentIndex]. rewrite List.length_app. simpl. lia. }
    cbn [history currentIndex] in Hp. rewrite index_nonneg in Hp
      by (rewrite List.length_app; simpl; lia).
    rewrite List.length_app in Hp. simpl List.length in Hp.
    rewrite List.nth_error_app2 in Hp by lia.
    replace (Z.to_nat (Z.of_nat (List.length (firstn (Z.to_nat (currentIndex h + 1)) (history h)) + 1) - 1)
             - List.length (firstn (Z.to_nat (currentIndex h + 1)) (history h)))%nat
      with 0%nat in Hp by lia.
    simpl in Hp. congruence.
  - apply strictNeq_false in Hs.
    destruct Hwf as [[Hh Hc]|Hc].
    + rewrite Hh, Hc in Hs. discriminate Hs.
    + destruct (getCurrentPath_in_range
                  {| history := firstn (Z.to_nat (currentIndex h + 1)) (history h);
                     currentIndex := currentIndex h |}) as (p & Hp & ->).
      { cbn [history currentIndex]. rewrite List.length_firstn. lia. }
      cbn [history currentIndex] in Hp. rewrite index_firstn in Hp. congruence.
Qed.

Lemma historyInvariant_addPath (path : string) (h : NavigationHistory) :
  historyInvariant h -> historyInvariant (addPath path h).
Proof.
  intros [Hwf Hnd]. split; [now apply wfHistory_addPath|].
  rewrite addPath_cases by assumption. cbv zeta.
  pose proof (noConsecutiveDuplicates_firstn (Z.to_nat (currentIndex h + 1)) _ Hnd)
    as Hkept.
  destruct (strictNeq _ path) eqn:Hs; cbn [history]; [|exact Hkept].
  apply noConsecutiveDuplicates_snoc; [exact Hkept|].
  intros x Hx Heq. subst x.
  destruct Hwf as [[Hh Hc]|Hc].
  - rewrite Hh in Hx. destruct (Z.to_nat (currentIndex h + 1)); discriminate Hx.
  - rewrite List.length_firstn, List.nth_error_firstn in Hx.
    replace (Nat.min (Z.to_nat (currentIndex h + 1)) (List.length (history h)) - 1)%nat
      with (Z.to_nat (currentIndex h)) in Hx by lia.
    destruct (Nat.ltb_spec (Z.to_nat (currentIndex h)) (Z.to_nat (currentIndex h + 1)));
      [|lia].
    rewrite <- index_nonneg in Hx by lia.
    apply strictNeq_false in Hx. congruence.
Qed.

(** X4.  The history keeps its invariant: the freshly constructed
    object and every [reset] satisfy it, and [addPath], [back] and
    [forward] preserve it: the cursor is on an entry (or the history is
    the fresh empty one) and no two neighbouring entries are equal. *)
Theorem historyInvariant_preserved :
  historyInvariant newNavigationHistory
  /\ (forall initialPath h, historyInvariant (reset initialPath h))
  /\ (forall h,
        historyInvariant h ->
        (forall path, historyInvariant (addPath path h))
        /\ historyInvariant (back h)
        /\ historyInvariant (forward h)).
Proof.
  split; [split; [left; split; reflexivity|exact I]|].
  split; [intros p h; split; [apply wfHistory_reset|exact I]|].
  intros h Hinv. split; [intros path; now apply historyInvariant_addPath|].
  destruct Hinv as [Hwf Hnd]. split; split.
  - now apply wfHistory_back.
  - now rewrite history_back.
  - now apply wfHistory_forward.
  - now rewrite history_forward.
Qed.

Lemma historyInvariant_preserved_witness :
  (forall path, historyInvariant (addPath path (reset "" newNavigationHistory)))
  /\ historyInvariant (back (reset "" newNavigationHistory))
  /\ historyInvariant (forward (reset "" newNavigationHistory)).
Proof.
  destruct historyInvariant_preserved as (_ & Hreset & Hstep).
  apply Hstep. apply Hreset.
Defined.

(** X5.  On a state of the class: when [canGoBack()] holds,
    [getPreviousPath()] returns the entry that becomes current, a
    following [getNextPath()] undoes it, and [canGoForward()] holds in
    between; when it does not hold, [getPreviousPath()] returns null
    and changes nothing.  The same with back and forward exchanged. *)
Theorem back_forward_inverse (h : NavigationHistory) :
  wfHistory h ->
  (canGoBack h = true ->
   getPreviousPath h = (Path (getCurrentPath (back h)), back h)
   /\ canGoForward (back h) = true
   /\ forward (back h) = h)
  /\ (canGoBack h = false -> getPreviousPath h = (PathNull, h))
  /\ (canGoForward h = true ->
      getNextPath h = (Path (getCurrentPath (forward h)), forward h)
      /\ canGoBack (forward h) = true
      /\ back (forward h) = h)
  /\ (canGoForward h = false -> getNextPath h = (PathNull, h)).
Proof.
  intros Hwf.
  assert (Hlo : -1 <= currentIndex h
                /\ currentIndex h < Z.of_nat (List.length (history h))
                /\ (0 <= currentIndex h \/ history h = [])).
  { destruct Hwf as [[Hh Hc]|Hc]; [rewrite Hh, Hc; simpl|]; repeat split; auto; lia. }
  destruct Hlo as (Hlo & Hhi & Hempty).
  split; [|split; [|split]].
  - unfold canGoBack. intros Hb. apply Z.ltb_lt in Hb.
    assert (Hback : back h = {| history := history h; currentIndex := currentIndex h - 1 |}).
    { unfold back, getPreviousPath. apply Z.ltb_lt in Hb. now rewrite Hb. }
    rewrite Hback.
    destruct (getCurrentPath_in_range
                {| history := history h; currentIndex := currentIndex h - 1 |})
      as (p & Hp & Hcur); [cbn [history currentIndex]; lia|].
    split.
    + unfold getPreviousPath. pose proof Hb as Hb'. apply Z.ltb_lt in Hb'.
      rewrite Hb'. cbn [history currentIndex] in *. now rewrite Hp, Hcur.
    + split.
      * unfold canGoForward. cbn [history currentIndex]. apply Z.ltb_lt. lia.
      * unfold forward, getNextPath. cbn [history currentIndex].
        destruct (Z.ltb_spec (currentIndex h - 1) (Z.of_nat (List.length (history h)) - 1));
          [|lia].
        cbn [snd]. rewrite (NavigationHistory_eta h) at 3. f_equal. lia.
  - unfold canGoBack, getPreviousPath. now intros ->.
  - unfold canGoForward. intros Hf. apply Z.ltb_lt in Hf.
    assert (H0 : 0 <= currentIndex h).
    { destruct Hempty as [?|Hh]; [assumption|]. rewrite Hh in Hf. simpl in Hf. lia. }
    assert (Hfwd : forward h = {| history := history h; currentIndex := currentIndex h + 1 |}).
    { unfold forward, getNextPath. apply Z.ltb_lt in Hf. now rewrite Hf. }
    rewrite Hfwd.
    destruct (getCurrentPath_in_range
                {| history := history h; currentIndex := currentIndex h + 1 |})
      as (p & Hp & Hcur); [cbn [history currentIndex]; lia|].
    split.
    + unfold getNextPath. pose proof Hf as Hf'. apply Z.ltb_lt in Hf'.
      rewrite Hf'. cbn [history currentIndex] in *. now rewrite Hp, Hcur.
    + split.
      * unfold canGoBack. cbn [currentIndex]. apply Z.ltb_lt. lia.
      * unfold back, getPreviousPath. cbn [history currentIndex].
        destruct (Z.ltb_spec 0 (currentIndex h + 1)); [|lia].
        cbn [snd]. rewrite (NavigationHistory_eta h) at 3. f_equal. lia.
  - unfold canGoForward, getNextPath. now intros ->.
Qed.

Lemma back_forward_inverse_witness :
  let h := {| history := [""; "a/"; "a/b/"]; currentIndex := 1 |} in
  (canGoBack h = true ->
   getPreviousPath h = (Path (getCurrentPath (back h)), back h)
   /\ canGoForward (back h) = true
   /\ forward (back h) = h)
  /\ (canGoBack h = false -> getPreviousPath h = (PathNull, h))
  /\ (canGoForward h = true ->
      getNextPath h = (Path (getCurrentPath (forward h)), forward h)
      /\ canGoBack (forward h) = true
      /\ back (forward h) = h)
  /\ (canGoForward h = false -> getNextPath h = (PathNull, h)).
Proof.
  apply (back_forward_inverse {| history := [""; "a/"; "a/b/"]; currentIndex := 1 |}).
  right. simpl. lia.
Defined.

(** ** fileService.ts: more on the path filter *)

Lemma includes_slash_after (a b : string) : Js.includes "/" (a ++ String "/" b) = true.
Proof.
  rewrite includes_slash_append, includes_slash_cons, Ascii.eqb_refl.
  now rewrite orb_true_r.
Qed.

(** The part before the last slash is determined by the string. *)
Lemma last_slash_unique (a1 b1 a2 b2 : string) :
  a1 ++ String "/" b1 = a2 ++ String "/" b2 ->
  Js.includes "/" b1 = false -> Js.includes "/" b2 = false ->
  a1 = a2.
Proof.
  revert a2. induction a1 as [|c a1 IH]; intros [|c' a2] H H1 H2.
  - reflexivity.
  - change ("" ++ String "/" b1) with (String "/" b1) in H.
    rewrite append_cons in H. injection H as _ H.
    rewrite H, includes_slash_after in H1. discriminate H1.
  - change ("" ++ String "/" b2) with (String "/" b2) in H.
    rewrite append_cons in H. injection H as _ H.
    rewrite <- H, includes_slash_after in H2. discriminate H2.
  - rewrite !append_cons in H. injection H as -> H. f_equal. now apply (IH a2).
Qed.

(** What passing the filter means for an entry, with [prefix] not empty. *)
Lemma shouldInclude_split (prefix : string) (e : FileItem) :
  prefix <> "" -> shouldInclude prefix e = true ->
  exists rest,
    Js.replaceRootOrTrailingSlash (name e) = prefix ++ String "/" rest
    /\ Js.includes "/" rest = false.
Proof.
  intros Hne H. unfold shouldInclude in H.
  destruct (String.eqb_spec prefix "") as [->|_]; [contradiction|].
  destruct (Js.startsWith _ _) eqn:Hp; [|discriminate H].
  cbn [andb] in H. apply negb_true_iff in H.
  unfold Js.startsWith in Hp. apply prefix_split in Hp.
  rewrite length_append_slash in Hp.
  replace (String.length prefix + 1)%nat with (S (String.length prefix)) in H by lia.
  eexists. split; [|exact H].
  rewrite Hp at 1. now rewrite append_assoc.
Qed.

Lemma shouldInclude_root (e : FileItem) :
  shouldInclude "" e = negb (Js.includes "/" (Js.replaceRootOrTrailingSlash (name e))).
Proof. reflexivity. Qed.

Lemma shouldInclude_prefix_unique (p1 p2 : string) (e : FileItem) :
  shouldInclude p1 e = true -> shouldInclude p2 e = true -> p1 = p2.
Proof.
  intros H1 H2.
  destruct (String.eqb_spec p1 "") as [->|Hp1], (String.eqb_spec p2 "") as [->|Hp2].
  - reflexivity.
  - destruct (shouldInclude_split _ _ Hp2 H2) as (rest & Hr & _).
    rewrite shouldInclude_root, Hr, includes_slash_after in H1. discriminate H1.
  - destruct (shouldInclude_split _ _ Hp1 H1) as (rest & Hr & _).
    rewrite shouldInclude_root, Hr, includes_slash_after in H2. discriminate H2.
  - destruct (shouldInclude_split _ _ Hp1 H1) as (r1 & Hr1 & Hs1).
    destruct (shouldInclude_split _ _ Hp2 H2) as (r2 & Hr2 & Hs2).
    rewrite Hr1 in Hr2. now apply (last_slash_unique p1 r1 p2 r2).
Qed.

Lemma normalized_folder_prefix (folder : string) :
  normalizeFolderPath folder = folder ->
  Js.replaceRootOrTrailingSlash folder = Js.dropLast folder
  /\ (folder <> "" -> folder = Js.dropLast folder ++ "/" /\ Js.dropLast folder <> "").
Proof.
  intros Hnorm.
  destruct (normalizeFolderPath_ends folder) as (Hlead & Hend).
  rewrite Hnorm in Hlead, Hend.
  rewrite replaceRootOrTrailingSlash_cases, (startsWith_slash_root _ Hlead).
  destruct Hend as [-> | Hend]; [split; [reflexivity|congruence]|].
  rewrite Hend. split; [reflexivity|]. intros _.
  rewrite endsWith_slash in Hend. apply lastIsSlash_split in Hend.
  split; [exact Hend|]. intros Hd. rewrite Hd in Hend.
  rewrite Hend in Hlead. discriminate Hlead.
Qed.

(** X6.  An entry is listed in at most one folder: two folder strings
    that both list it have the same prefix, and are equal when they are
    normalized folder paths. *)
Theorem listed_in_one_folder
        (files1 files2 : list FileItem) (folder1 folder2 : string) (e : FileItem) :
  In e (filterFilesByFolder files1 folder1) ->
  In e (filterFilesByFolder files2 folder2) ->
  Js.replaceRootOrTrailingSlash folder1 = Js.replaceRootOrTrailingSlash folder2
  /\ (normalizeFolderPath folder1 = folder1 ->
      normalizeFolderPath folder2 = folder2 -> folder1 = folder2).
Proof.
  intros H1 H2. rewrite filterFilesByFolder_filter in H1, H2.
  apply filter_In in H1 as [_ H1]. apply filter_In in H2 as [_ H2].
  pose proof (shouldInclude_prefix_unique _ _ _ H1 H2) as Hp.
  split; [exact Hp|]. intros Hn1 Hn2.
  destruct (normalized_folder_prefix _ Hn1) as [Hr1 Hf1].
  destruct (normalized_folder_prefix _ Hn2) as [Hr2 Hf2].
  rewrite Hr1, Hr2 in Hp.
  destruct (String.eqb_spec folder1 "") as [->|Hne1],
           (String.eqb_spec folder2 "") as [->|Hne2].
  - reflexivity.
  - destruct (Hf2 Hne2) as [_ Hd]. simpl in Hp. congruence.
  - destruct (Hf1 Hne1) as [_ Hd]. simpl in Hp. congruence.
  - destruct (Hf1 Hne1) as [-> _]. destruct (Hf2 Hne2) as [-> _]. now rewrite Hp.
Qed.

Lemma listed_in_one_folder_witness :
  Js.replaceRootOrTrailingSlash "dir/" = Js.replaceRootOrTrailingSlash "dir"
  /\ (normalizeFolderPath "dir/" = "dir/" -> normalizeFolderPath "dir" = "dir" ->
      "dir/" = "dir").
Proof.
  apply (listed_in_one_folder exampleEntries exampleEntries "dir/" "dir"
           (mkFile "dir/b.txt")); vm_compute; auto.
Defined.

Lemma replaceTrailingSlash_cases (s : string) :
  replaceTrailingSlash s = if lastIsSlash s then Js.dropLast s else s.
Proof.
  induction s as [|c s IH]; [reflexivity|].
  destruct s as [|c' s']; [simpl; now destruct (Ascii.eqb c "/")|].
  change (replaceTrailingSlash (String c (String c' s')))
    with (String c (replaceTrailingSlash (String c' s'))).
  rewrite IH, (lastIsSlash_cons c (String c' s')), (dropLast_cons c (String c' s'))
    by discriminate.
  now destruct (lastIsSlash (String c' s')).
Qed.

(** A path is its version without trailing slash, plus that slash if
    there was one. *)
Lemma trailing_slash_split (n : string) :
  exists t, n = stripTrailingSlash n ++ t /\ (t = "" \/ t = "/").
Proof.
  unfold stripTrailingSlash. rewrite endsWith_slash.
  destruct (lastIsSlash n) eqn:Hl.
  - exists "/". split; [now apply lastIsSlash_split|now right].
  - exists "". split; [now rewrite append_empty_r|now left].
Qed.

Lemma replaceTrailingSlash_rest (rest t : string) :
  Js.includes "/" rest = false -> t = "" \/ t = "/" ->
  replaceTrailingSlash (rest ++ t) = rest.
Proof.
  intros Hrest [-> | ->]; rewrite replaceTrailingSlash_cases.
  - now rewrite append_empty_r, (lastIsSlash_no_slash _ Hrest).
  - now rewrite lastIsSlash_append_slash, dropLast_append_slash.
Qed.

(** X7.  The name shown for a listed row holds no slash, and the
    entry's path is the folder prefix (with its slash, unless at the
    root), the shown name, and possibly one trailing slash.  Stated for
    entry paths that do not begin with [//]. *)
Theorem getDisplayName_of_listed_row
        (files : list FileItem) (folder : string) (e : FileItem) :
  Js.startsWith "//" (name e) = false ->
  In e (filterFilesByFolder files folder) ->
  let prefix := Js.replaceRootOrTrailingSlash folder in
  Js.includes "/" (getDisplayName e folder) = false
  /\ exists t,
       (t = "" \/ t = "/")
       /\ name e = (if String.eqb prefix "" then "" else prefix ++ "/")
                   ++ getDisplayName e folder ++ t.
Proof.
  intros Hroot Hin prefix. rewrite filterFilesByFolder_filter in Hin.
  apply filter_In in Hin as [_ Hinc]. fold prefix in Hinc.
  destruct (trailing_slash_split (name e)) as (t & Hn & Ht).
  rewrite <- (normalize_without_root _ Hroot) in Hn.
  unfold getDisplayName. fold prefix.
  destruct (String.eqb_spec prefix "") as [Hp|Hp].
  - rewrite Hp in *. cbn [Js.truthy String.eqb negb andb].
    rewrite shouldInclude_root in Hinc. apply negb_true_iff in Hinc.
    assert (Hd : replaceTrailingSlash (name e) = Js.replaceRootOrTrailingSlash (name e)).
    { rewrite Hn at 1. now apply replaceTrailingSlash_rest. }
    rewrite Hd. split; [exact Hinc|]. exists t. split; [exact Ht|exact Hn].
  - destruct (shouldInclude_split _ _ Hp Hinc) as (rest & Hr & Hrest).
    assert (Hname : name e = (prefix ++ "/") ++ rest ++ t).
    { rewrite Hn at 1. rewrite Hr. rewrite !append_assoc. reflexivity. }
    apply truthy_true in Hp as Htruthy. rewrite Htruthy. cbn [andb].
    assert (Hs : Js.startsWith (prefix ++ "/") (name e) = true).
    { unfold Js.startsWith. rewrite Hname. apply prefix_append. }
    rewrite Hs.
    assert (Hsub : Js.substring_from (String.length prefix + 1) (name e) = rest ++ t).
    { rewrite Nat.add_1_r, <- length_append_slash. rewrite Hname at 1.
      apply substring_from_append. }
    rewrite Hsub, (replaceTrailingSlash_rest _ _ Hrest Ht).
    split; [exact Hrest|]. exists t. split; [exact Ht|exact Hname].
Qed.

Lemma getDisplayName_of_listed_row_witness :
  Js.includes "/" (getDisplayName (mkDir "dir/sub/") "dir/") = false
  /\ exists t,
       (t = "" \/ t = "/")
       /\ name (mkDir "dir/sub/")
          = (if String.eqb (Js.replaceRootOrTrailingSlash "dir/") "" then ""
             else Js.replaceRootOrTrailingSlash "dir/" ++ "/")
            ++ getDisplayName (mkDir "dir/sub/") "dir/" ++ t.
Proof.
  apply (getDisplayName_of_listed_row [mkDir "dir/sub/"; mkFile "dir/sub/c.txt"]).
  - reflexivity.
  - vm_compute. auto.
Defined.

(** ** fileService.ts: the statistics against the listing *)

Lemma split_slash_cons (c : ascii) (s : string) :
  Js.split_slash (String c s)
  = if Ascii.eqb c "/" then "" :: Js.split_slash s
    else match Js.split_slash s with
         | seg :: rest => String c seg :: rest
         | [] => [String c ""]
         end.
Proof. reflexivity. Qed.

Lemma split_slash_no_slash (s : string) :
  Js.includes "/" s = false -> Js.split_slash s = [s].
Proof.
  induction s as [|c s IH]; [reflexivity|].
  rewrite includes_slash_cons. intros H. apply orb_false_elim in H as [Hc Hs].
  now rewrite split_slash_cons, Hc, (IH Hs).
Qed.

Lemma split_slash_at_slash (a b : string) :
  Js.includes "/" a = false ->
  Js.split_slash (a ++ String "/" b) = a :: Js.split_slash b.
Proof.
  induction a as [|c a IH]; intros H.
  - change ("" ++ String "/" b) with (String "/" b).
    now rewrite split_slash_cons, Ascii.eqb_refl.
  - rewrite includes_slash_cons in H. apply orb_false_elim in H as [Hc Ha].
    now rewrite append_cons, split_slash_cons, Hc, (IH Ha).
Qed.

(** A slash-free string, with or without one trailing slash, has at
    most one non-empty segment, and exactly one unless it is empty. *)
Lemma segmentCount_rest (rest t : string) :
  Js.includes "/" rest = false -> t = "" \/ t = "/" ->
  Js.segmentCount (rest ++ t) = if String.eqb rest "" then 0%nat else 1%nat.
Proof.
  intros Hrest Ht. unfold Js.segmentCount.
  assert (Hsplit : List.filter Js.truthy (Js.split_slash (rest ++ t))
                   = List.filter Js.truthy [rest]).
  { destruct Ht as [-> | ->].
    - now rewrite append_empty_r, split_slash_no_slash.
    - rewrite (split_slash_at_slash rest "" Hrest). simpl.
      now destruct (Js.truthy rest). }
  rewrite Hsplit. simpl. unfold Js.truthy. now destruct (String.eqb rest "").
Qed.

Lemma filter_length_le {A} (f g : A -> bool) (l : list A) :
  (forall x, In x l -> f x = true -> g x = true) ->
  (List.length (List.filter f l) <= List.length (List.filter g l))%nat.
Proof.
  induction l as [|x l IH]; intros H; [simpl; lia|].
  assert (IH' := IH (fun y Hy => H y (or_intror Hy))).
  simpl. destruct (f x) eqn:Hf.
  - rewrite (H x (or_introl eq_refl) Hf). simpl. lia.
  - destruct (g x); simpl; lia.
Qed.

(** A listed entry is counted by the statistics. *)
Lemma listed_entry_counted (folder : string) (e : FileItem) :
  normalizeFolderPath folder = folder ->
  Js.startsWith "//" (name e) = false ->
  name e <> "/" ->
  shouldInclude (Js.replaceRootOrTrailingSlash folder) e = true ->
  inCurrentFolder folder e = true.
Proof.
  intros Hnorm Hroot Hslash Hinc.
  destruct (normalized_folder_prefix _ Hnorm) as [Hr Hf].
  destruct (trailing_slash_split (name e)) as (t & Hn & Ht).
  rewrite <- (normalize_without_root _ Hroot) in Hn.
  unfold inCurrentFolder.
  destruct (String.eqb_spec folder "") as [->|Hne].
  - change (Js.replaceRootOrTrailingSlash "") with "" in Hinc.
    rewrite shouldInclude_root in Hinc. apply negb_true_iff in Hinc.
    set (r := Js.replaceRootOrTrailingSlash (name e)) in *.
    destruct Ht as [-> | ->].
    + rewrite append_empty_r in Hn. now rewrite Hn, Hinc.
    + rewrite Hn. rewrite (segmentCount_rest r "/" Hinc) by now right.
      rewrite endsWith_slash, lastIsSlash_append_slash.
      destruct (String.eqb_spec r "") as [Hr0|_]; [|now rewrite orb_true_r].
      rewrite Hr0 in Hn. contradiction.
  - destruct (Hf Hne) as [Hfolder Hd]. rewrite Hr in Hinc.
    destruct (shouldInclude_split _ _ Hd Hinc) as (rest & Hrel & Hrest).
    assert (Hname : name e = folder ++ rest ++ t).
    { rewrite Hn at 1. rewrite Hrel. remember (Js.dropLast folder) as d.
      rewrite Hfolder, !append_assoc. reflexivity. }
    assert (Hs : Js.startsWith folder (name e) = true).
    { unfold Js.startsWith. rewrite Hname. apply prefix_append. }
    rewrite Hs. cbn [andb].
    assert (Hsub : Js.substring_from (String.length folder) (name e) = rest ++ t).
    { rewrite Hname at 1. apply substring_from_append. }
    rewrite Hsub, (segmentCount_rest _ _ Hrest Ht).
    destruct (String.eqb rest ""); now rewrite orb_true_r.
Qed.

(** X8.  For a normalized folder path and entries whose paths neither
    begin with [//] nor are the single slash, every listed row is among
    the entries the statistics count, so the item count of the status
    bar is at least the number of rows. *)
Theorem listed_rows_are_counted (files : list FileItem) (folder : string) :
  normalizeFolderPath folder = folder ->
  Forall (fun e => Js.startsWith "//" (name e) = false /\ name e <> "/") files ->
  (forall e, In e (filterFilesByFolder files folder) ->
             In e (List.filter (inCurrentFolder folder) files))
  /\ (List.length (filterFilesByFolder files folder)
      <= count (getFileStats files folder))%nat.
Proof.
  intros Hnorm Hfiles. rewrite filterFilesByFolder_filter.
  assert (Himp : forall e, In e files ->
                   shouldInclude (Js.replaceRootOrTrailingSlash folder) e = true ->
                   inCurrentFolder folder e = true).
  { intros e Hin Hinc. rewrite List.Forall_forall in Hfiles.
    destruct (Hfiles e Hin) as [Hroot Hslash].
    now apply listed_entry_counted. }
  split.
  - intros e He. apply filter_In in He as [Hin Hinc].
    apply filter_In. split; [exact Hin|now apply Himp].
  - unfold getFileStats. cbn [count]. now apply filter_length_le.
Qed.

Lemma listed_rows_are_counted_witness :
  (forall e, In e (filterFilesByFolder [mkDir "dir/"; mkFile "dir/b.txt"] "dir/") ->
             In e (List.filter (inCurrentFolder "dir/") [mkDir "dir/"; mkFile "dir/b.txt"]))
  /\ (List.length (filterFilesByFolder [mkDir "dir/"; mkFile "dir/b.txt"] "dir/")
      <= count (getFileStats [mkDir "dir/"; mkFile "dir/b.txt"] "dir/"))%nat.
Proof.
  apply (listed_rows_are_counted [mkDir "dir/"; mkFile "dir/b.txt"] "dir/").
  - reflexivity.
  - repeat constructor; discriminate.
Defined.

(** ** fileService.ts: [sortFiles] *)

Section SortProperties.

Variable localeCompare : string -> string -> Z.

Lemma insertSorted_permutation (x : FileItem) (l : list FileItem) :
  Permutation (insertSorted localeCompare x l) (x :: l).
Proof.
  induction l as [|y l IH]; [reflexivity|]. simpl.
  destruct (compareFiles localeCompare x y <=? 0); [reflexivity|].
  rewrite IH. apply perm_swap.
Qed.

Lemma sortFiles_permutation (l : list FileItem) :
  Permutation (sortFiles localeCompare l) l.
Proof.
  induction l as [|x l IH]; [reflexivity|].
  unfold sortFiles in *. simpl. rewrite insertSorted_permutation. now constructor.
Qed.

Lemma compareFiles_kinds (x y : FileItem) :
  is_dir x <> is_dir y ->
  compareFiles localeCompare x y = if is_dir x then -1 else 1.
Proof.
  intros H. unfold compareFiles.
  destruct (is_dir x), (is_dir y); try reflexivity; congruence.
Qed.

Lemma insertSorted_directoriesFirst (x : FileItem) (l : list FileItem) :
  directoriesFirst l -> directoriesFirst (insertSorted localeCompare x l).
Proof.
  induction l as [|y l IH]; intros Hl.
  - simpl. split; [intros _; constructor|exact I].
  - destruct Hl as [Hy Hl]. simpl.
    destruct (Z.leb_spec (compareFiles localeCompare x y) 0) as [Hle|Hgt].
    + split; [|split; assumption]. intros Hx.
      destruct (is_dir y) eqn:Hdy.
      * rewrite compareFiles_kinds in Hle by congruence. rewrite Hx in Hle. lia.
      * constructor; [exact Hdy|now apply Hy].
    + split; [|now apply IH]. intros Hdy.
      assert (Hx : is_dir x = false).
      { destruct (is_dir x) eqn:Hdx; [|reflexivity].
        rewrite compareFiles_kinds in Hgt by congruence. rewrite Hdx in Hgt. lia. }
      rewrite List.Forall_forall. intros z Hz.
      apply (Permutation_in _ (insertSorted_permutation x l)) in Hz.
      destruct Hz as [<-|Hz]; [exact Hx|].
      specialize (Hy Hdy). rewrite List.Forall_forall in Hy. now apply Hy.
Qed.

(** X9.  [sortFiles] returns a rearrangement of its input (no row is
    lost or doubled) in which no directory comes after a file, whatever
    the comparison of names is. *)
Theorem sortFiles_rearranges_directories_first (files : list FileItem) :
  Permutation (sortFiles localeCompare files) files
  /\ directoriesFirst (sortFiles localeCompare files)
  /\ List.length (sortFiles localeCompare files) = List.length files.
Proof.
  split; [apply sortFiles_permutation|]. split.
  - induction files as [|x l IH]; [exact I|].
    unfold sortFiles in *. simpl. now apply insertSorted_directoriesFirst.
  - apply Permutation_length, sortFiles_permutation.
Qed.

Lemma compareFiles_antisym (x y : FileItem) :
  (forall a b, localeCompare a b > 0 -> localeCompare b a <= 0) ->
  compareFiles localeCompare x y > 0 -> compareFiles localeCompare y x <= 0.
Proof.
  intros Hanti. unfold compareFiles.
  destruct (is_dir x), (is_dir y); simpl; try lia; apply Hanti.
Qed.

Lemma adjacentSorted_cons {A} (compare : A -> A -> Z) (x y : A) (l : list A) :
  compare x y <= 0 -> adjacentSorted compare (y :: l) ->
  adjacentSorted compare (x :: y :: l).
Proof. intros H1 H2. split; assumption. Qed.

Lemma adjacentSorted_tail {A} (compare : A -> A -> Z) (x : A) (l : list A) :
  adjacentSorted compare (x :: l) -> adjacentSorted compare l.
Proof. destruct l as [|y l]; [intros _; exact I|now intros [_ H]]. Qed.

Lemma insertSorted_sorted (x : FileItem) (l : list FileItem) :
  (forall a b, localeCompare a b > 0 -> localeCompare b a <= 0) ->
  adjacentSorted (compareFiles localeCompare) l ->
  adjacentSorted (compareFiles localeCompare) (insertSorted localeCompare x l).
Proof.
  intros Hanti. induction l as [|y l IH]; intros Hl; [exact I|].
  simpl insertSorted.
  destruct (Z.leb_spec (compareFiles localeCompare x y) 0) as [Hle|Hgt].
  - now apply adjacentSorted_cons.
  - assert (Hyx : compareFiles localeCompare y x <= 0)
      by (apply compareFiles_antisym; [exact Hanti|lia]).
    specialize (IH (adjacentSorted_tail _ _ _ Hl)).
    destruct l as [|z l]; [now apply adjacentSorted_cons|].
    destruct Hl as [Hyz Hl]. simpl insertSorted in *.
    destruct (compareFiles localeCompare x z <=? 0);
      now apply adjacentSorted_cons.
Qed.

Lemma sortFiles_of_sorted (l : list FileItem) :
  adjacentSorted (compareFiles localeCompare) l -> sortFiles localeCompare l = l.
Proof.
  induction l as [|x l IH]; intros Hl; [reflexivity|].
  unfold sortFiles in *. simpl.
  rewrite (IH (adjacentSorted_tail _ _ _ Hl)).
  destruct l as [|y l]; [reflexivity|]. destruct Hl as [Hxy _]. simpl.
  destruct (Z.leb_spec (compareFiles localeCompare x y) 0); [reflexivity|lia].
Qed.

(** X10.  When the comparison of names never ranks two names both
    ways round, the rows returned by [sortFiles] are in order (each row
    against the next: kind first, then name), sorting them again changes
    nothing, and a list that is already in order is returned as it is. *)
Theorem sortFiles_sorted (files : list FileItem) :
  (forall a b, localeCompare a b > 0 -> localeCompare b a <= 0) ->
  adjacentSorted (compareFiles localeCompare) (sortFiles localeCompare files)
  /\ sortFiles localeCompare (sortFiles localeCompare files)
     = sortFiles localeCompare files
  /\ (adjacentSorted (compareFiles localeCompare) files ->
      sortFiles localeCompare files = files).
Proof.
  intros Hanti.
  assert (Hsorted : adjacentSorted (compareFiles localeCompare)
                      (sortFiles localeCompare files)).
  { induction files as [|x l IH]; [exact I|].
    unfold sortFiles in *. simpl. now apply insertSorted_sorted. }
  split; [exact Hsorted|]. split; [now apply sortFiles_of_sorted|].
  apply sortFiles_of_sorted.
Qed.

End SortProperties.

Lemma codeUnitCompare_antisym (a b : string) :
  codeUnitCompare a b > 0 -> codeUnitCompare b a <= 0.
Proof.
  unfold codeUnitCompare. rewrite (String.compare_antisym b a).
  destruct (String.compare a b); simpl; lia.
Qed.

Lemma sortFiles_sorted_witness :
  let files := [mkFile "b.txt"; mkDir "z/"; mkFile "a.txt"; mkDir "m/"] in
  adjacentSorted (compareFiles codeUnitCompare) (sortFiles codeUnitCompare files)
  /\ sortFiles codeUnitCompare (sortFiles codeUnitCompare files)
     = sortFiles codeUnitCompare files
  /\ (adjacentSorted (compareFiles codeUnitCompare) files ->
      sortFiles codeUnitCompare files = files).
Proof.
  intros files. apply (sortFiles_sorted codeUnitCompare files).
  exact codeUnitCompare_antisym.
Defined.

(** ** fileExplorer.ts: more on the selection *)

Section MoreExplorerProperties.

Import FileExplorer.

Lemma index_Some_range {A} (l : list A) (i : Z) (x : A) :
  Js.index l i = Some x -> 0 <= i < Z.of_nat (List.length l).
Proof.
  unfold Js.index. destruct (Z.ltb_spec i 0) as [Hneg|Hpos]; [discriminate|].
  intros H. assert (Hn : nth_error l (Z.to_nat i) <> None) by congruence.
  apply List.nth_error_Some in Hn. lia.
Qed.

(** The rows from [lo] on, [n] of them, all present: the loop runs to
    its end and adds exactly their paths. *)
Lemma addRange_rows (files : list FileItem) (n lo : nat) (sel : gset string) :
  (lo + n <= List.length files)%nat ->
  addRange files (Z.of_nat lo) n sel
  = (list_to_set (name <$> take n (drop lo files)) ∪ sel, true).
Proof.
  revert lo sel. induction n as [|n IH]; intros lo sel Hlen.
  - cbn [addRange]. rewrite take_0, fmap_nil, list_to_set_nil.
    now rewrite (left_id_L ∅ (∪)).
  - destruct (lookup_lt_is_Some_2 files lo) as [file Hfile]; [lia|].
    rewrite (addRange_step _ _ _ _ _ Hfile), IH by lia.
    rewrite (drop_S _ _ _ Hfile), firstn_cons, fmap_cons, list_to_set_cons.
    f_equal. rewrite (assoc_L (∪)). f_equal. apply (comm_L (∪)).
Qed.

Lemma anchorInRange_withSelection (sel : gset string) (anchor : Z) (s : State) :
  anchor = -1 \/ 0 <= anchor < Z.of_nat (List.length (currentRenderedFiles s)) ->
  anchorInRange (withSelection sel anchor s).
Proof. intros H. exact H. Qed.

Lemma handleFileListClick_anchor (event : MouseEvent) (s : State) :
  anchorInRange s -> anchorInRange (stateOf (handleFileListClick event s)).
Proof.
  intros Hinv. unfold handleFileListClick.
  destruct (isLoading s); [exact Hinv|].
  destruct (target event) as [element|];
    [|apply anchorInRange_withSelection; now left].
  destruct (missing _ || _); [exact Hinv|].
  destruct (Js.index _ _) as [file|] eqn:Hfile; [|exact Hinv].
  apply index_Some_range in Hfile.
  destruct (shiftKey event && negb (lastClickedIndex s =? -1)).
  - destruct (addRange _ _ _ _) as [sel []];
      apply anchorInRange_withSelection; exact Hinv.
  - destruct (ctrlKey event || metaKey event);
      apply anchorInRange_withSelection; now right.
Qed.

Lemma step_anchor (s s' : State) : step s s' -> anchorInRange s -> anchorInRange s'.
Proof.
  intros Hstep Hinv. destruct Hstep.
  - now left.
  - now apply handleFileListClick_anchor.
  - unfold handleFileListDblClick.
    destruct (isLoading s); [exact Hinv|].
    destruct (target event); [|exact Hinv].
    destruct (_ =? -1); [exact Hinv|].
    destruct (Js.index _ _); [now left|exact Hinv].
  - unfold handleFileListContextMenu.
    destruct (isLoading s); [exact Hinv|].
    destruct (target event); [|exact Hinv].
    destruct (negb _ && _); [|exact Hinv].
    destruct (Js.index _ _); [|exact Hinv].
    destruct (negb _); exact Hinv.
  - exact Hinv.
Qed.

Lemma handleFileListClick_returns (event : MouseEvent) (s : State) :
  anchorInRange s -> exists s', handleFileListClick event s = Returned s'.
Proof.
  intros Hinv. unfold handleFileListClick.
  destruct (isLoading s); [eauto|].
  destruct (target event) as [element|]; [|eauto].
  destruct (missing _ || _); [eauto|].
  destruct (Js.index _ _) as [file|] eqn:Hfile; [|eauto].
  apply index_Some_range in Hfile.
  destruct (shiftKey event && negb (lastClickedIndex s =? -1)) eqn:Hshift.
  - apply andb_prop in Hshift as [_ Hset]. apply negb_true_iff, Z.eqb_neq in Hset.
    destruct Hinv as [Hunset|Hanchor]; [contradiction|].
    set (i := default (-1) (data_index element)) in *.
    set (lo := Z.min (lastClickedIndex s) i).
    set (hi := Z.max (lastClickedIndex s) i).
    replace lo with (Z.of_nat (Z.to_nat lo)) by lia.
    rewrite addRange_rows by lia. eauto.
  - destruct (ctrlKey event || metaKey event); eauto.
Qed.

(** X11.  In every state reached by renders and events, the anchor is
    unset or the index of a rendered row, and the click handler returns
    for every event: the range loop never reads past the rendered rows. *)
Theorem anchor_stays_in_range (s : State) :
  reachable s ->
  anchorInRange s
  /\ (forall event, exists s', handleFileListClick event s = Returned s').
Proof.
  intros Hreach.
  assert (Hinv : anchorInRange s).
  { induction Hreach as [|s s' _ IH Hstep]; [now left|].
    eapply step_anchor; eassumption. }
  split; [exact Hinv|]. intros event. now apply handleFileListClick_returns.
Qed.

Lemma anchor_stays_in_range_witness :
  anchorInRange fiveRows
  /\ (forall event, exists s', handleFileListClick event fiveRows = Returned s').
Proof.
  apply (anchor_stays_in_range fiveRows).
  eapply reachable_step; [apply reachable_initial|].
  apply (step_update [mkFile "a"; mkFile "b"; mkFile "c"; mkFile "d"; mkFile "e"] false).
Defined.

(** X12.  With the anchor on row [anchor], a shift-click on row [i]
    selects exactly the rows from the lower to the higher of the two
    indices, both included, in place of the old selection or, with ctrl
    held, in addition to it; the anchor stays. *)
Theorem shift_click_selects_range
        (s : State) (anchor i : nat) (file : FileItem) (preserveExisting : bool) :
  isLoading s = false ->
  lastClickedIndex s = Z.of_nat anchor ->
  (anchor < List.length (currentRenderedFiles s))%nat ->
  currentRenderedFiles s !! i = Some file ->
  name file <> "" ->
  handleFileListClick (clickRange file i preserveExisting) s
  = Returned
      (withSelection
         (list_to_set
            (name <$> take (Nat.max anchor i - Nat.min anchor i + 1)
                        (drop (Nat.min anchor i) (currentRenderedFiles s)))
          ∪ (if preserveExisting then selectedFiles s else ∅))
         (Z.of_nat anchor) s).
Proof.
  intros Hidle Hanchor Hlt Hfile Hname.
  pose proof (lookup_lt_Some _ _ _ Hfile) as Hi.
  rewrite clickRange_result by (try assumption; rewrite Hanchor; lia).
  cbv zeta. rewrite Hanchor.
  replace (Z.min (Z.of_nat anchor) (Z.of_nat i)) with (Z.of_nat (Nat.min anchor i)) by lia.
  replace (Z.to_nat (Z.max (Z.of_nat anchor) (Z.of_nat i) - Z.of_nat (Nat.min anchor i) + 1))
    with (Nat.max anchor i - Nat.min anchor i + 1)%nat by lia.
  rewrite addRange_rows by lia. reflexivity.
Qed.

Lemma shift_click_selects_range_witness :
  handleFileListClick (clickRange (mkFile "b") 1 false)
    (withSelection {[ "d" ]} 3 fiveRows)
  = Returned
      (withSelection
         (list_to_set
            (name <$> take (Nat.max 3 1 - Nat.min 3 1 + 1)
                        (drop (Nat.min 3 1)
                           (currentRenderedFiles (withSelection {[ "d" ]} 3 fiveRows))))
          ∪ ∅)
         (Z.of_nat 3) (withSelection {[ "d" ]} 3 fiveRows)).
Proof.
  apply (shift_click_selects_range (withSelection {[ "d" ]} 3 fiveRows) 3 1
           (mkFile "b") false); try reflexivity.
  - simpl. lia.
  - discriminate.
Defined.

Lemma clickToggle_result (s : State) (i : nat) (file : FileItem) :
  isLoading s = false ->
  currentRenderedFiles s !! i = Some file ->
  name file <> "" ->
  handleFileListClick (clickToggle file i) s
  = Returned
      (withSelection
         (if bool_decide (name file ∈ selectedFiles s)
          then selectedFiles s ∖ {[ name file ]}
          else {[ name file ]} ∪ selectedFiles s)
         (Z.of_nat i) s).
Proof.
  intros Hidle Hfile Hname. unfold handleFileListClick, clickToggle.
  cbn [target ctrlKey metaKey shiftKey appendFileItem data_filename data_index default from_option id].
  rewrite Hidle, (missing_name _ Hname), of_nat_not_unset, index_lookup, Hfile.
  reflexivity.
Qed.

(** X13.  A ctrl-click on a row flips whether its path is selected and
    leaves the other paths alone; a second ctrl-click on the same row
    restores the selection; the anchor is on the row after each. *)
Theorem ctrl_click_twice_restores (s : State) (i : nat) (file : FileItem) :
  isLoading s = false ->
  currentRenderedFiles s !! i = Some file ->
  name file <> "" ->
  let s1 := stateOf (handleFileListClick (clickToggle file i) s) in
  let s2 := stateOf (handleFileListClick (clickToggle file i) s1) in
  (name file ∈ selectedFiles s1 <-> name file ∉ selectedFiles s)
  /\ (forall path, path <> name file ->
        (path ∈ selectedFiles s1 <-> path ∈ selectedFiles s))
  /\ lastClickedIndex s1 = Z.of_nat i
  /\ selectedFiles s2 = selectedFiles s
  /\ lastClickedIndex s2 = Z.of_nat i.
Proof.
  intros Hidle Hfile Hname s1 s2. subst s2 s1.
  rewrite (clickToggle_result s i file Hidle Hfile Hname). cbn [stateOf].
  rewrite clickToggle_result by assumption. cbn [stateOf withSelection selectedFiles
    lastClickedIndex].
  destruct (bool_decide_reflect (name file ∈ selectedFiles s)) as [Hin|Hout].
  - split; [rewrite elem_of_difference, elem_of_singleton; tauto|].
    split; [intros path Hp; rewrite elem_of_difference, elem_of_singleton; tauto|].
    split; [reflexivity|]. split; [|reflexivity].
    rewrite bool_decide_eq_false_2
      by (rewrite elem_of_difference, elem_of_singleton; tauto).
    apply set_eq. intros x.
    rewrite elem_of_union, elem_of_difference, elem_of_singleton.
    destruct (decide (x = name file)) as [->|]; tauto.
  - split; [rewrite elem_of_union, elem_of_singleton; tauto|].
    split; [intros path Hp; rewrite elem_of_union, elem_of_singleton; tauto|].
    split; [reflexivity|]. split; [|reflexivity].
    rewrite bool_decide_eq_true_2
      by (rewrite elem_of_union, elem_of_singleton; tauto).
    apply set_eq. intros x.
    rewrite elem_of_difference, elem_of_union, elem_of_singleton.
    destruct (decide (x = name file)) as [->|]; tauto.
Qed.

Lemma ctrl_click_twice_restores_witness :
  let s1 := stateOf (handleFileListClick (clickToggle (mkFile "c") 2) fiveRows) in
  let s2 := stateOf (handleFileListClick (clickToggle (mkFile "c") 2) s1) in
  (name (mkFile "c") ∈ selectedFiles s1 <-> name (mkFile "c") ∉ selectedFiles fiveRows)
  /\ (forall path, path <> name (mkFile "c") ->
        (path ∈ selectedFiles s1 <-> path ∈ selectedFiles fiveRows))
  /\ lastClickedIndex s1 = Z.of_nat 2
  /\ selectedFiles s2 = selectedFiles fiveRows
  /\ lastClickedIndex s2 = Z.of_nat 2.
Proof.
  apply (ctrl_click_twice_restores fiveRows 2 (mkFile "c")); try reflexivity.
  discriminate.
Defined.

End MoreExplorerProperties.

(** ** uiManager.ts and navigation.ts: navigating *)

Lemma canGoForward_addPath (path : string) (h : NavigationHistory) :
  wfHistory h -> canGoForward (addPath path h) = false.
Proof.
  intros Hwf. rewrite addPath_cases by assumption. cbv zeta.
  unfold canGoForward. destruct (strictNeq _ path) eqn:Hs; cbn [history currentIndex].
  - apply Z.ltb_irrefl.
  - apply Z.ltb_ge. rewrite List.length_firstn.
    destruct Hwf as [[Hh Hc]|Hc]; [|lia].
    apply strictNeq_false in Hs. rewrite Hh, Hc in Hs. discriminate Hs.
Qed.

Section NavigationProperties.

Variable localeCompare : string -> string -> Z.

Lemma navigateToFolder_idle (folderPath : string) (a : App) :
  getIsLoading a = false ->
  wfHistory (navigationHistory a) ->
  let a' := navigateToFolder localeCompare folderPath a in
  getCurrentPath (navigationHistory a') = normalizeFolderPath folderPath
  /\ canGoForward (navigationHistory a') = false
  /\ wfHistory (navigationHistory a')
  /\ FileExplorer.currentRenderedFiles (fileExplorer a')
     = sortFiles localeCompare
         (filterFilesByFolder (getCurrentFiles a) (normalizeFolderPath folderPath))
  /\ FileExplorer.selectedFiles (fileExplorer a') = ∅
  /\ FileExplorer.lastClickedIndex (fileExplorer a') = -1
  /\ appState a' = appState a.
Proof.
  intros Hidle Hwf a'. subst a'. unfold navigateToFolder. rewrite Hidle.
  unfold refreshUI.
  cbn [navigationHistory withNavigation withExplorer fileExplorer appState
       FileExplorer.updateFileList FileExplorer.currentRenderedFiles
       FileExplorer.selectedFiles FileExplorer.lastClickedIndex].
  rewrite (getCurrentPath_addPath _ _ Hwf).
  split; [reflexivity|]. split; [now apply canGoForward_addPath|].
  split; [now apply wfHistory_addPath|]. repeat split.
Qed.

(** X14.  When the gate is clear, [navigateToFolder] makes the
    normalized folder path the current one, with nothing to go forward
    to; it renders the sorted children of that folder, with an empty
    selection and no anchor, and leaves the cached entries alone.  The
    history keeps its entries up to the cursor, drops the ones after
    it, and gains the path as last entry unless it was the current
    one. *)
Theorem navigateToFolder_shows_folder (folderPath : string) (a : App) :
  getIsLoading a = false ->
  wfHistory (navigationHistory a) ->
  let a' := navigateToFolder localeCompare folderPath a in
  let h := navigationHistory a in
  getCurrentPath (navigationHistory a') = normalizeFolderPath folderPath
  /\ canGoForward (navigationHistory a') = false
  /\ wfHistory (navigationHistory a')
  /\ FileExplorer.currentRenderedFiles (fileExplorer a')
     = sortFiles localeCompare
         (filterFilesByFolder (getCurrentFiles a) (normalizeFolderPath folderPath))
  /\ FileExplorer.selectedFiles (fileExplorer a') = ∅
  /\ FileExplorer.lastClickedIndex (fileExplorer a') = -1
  /\ appState a' = appState a
  /\ history (navigationHistory a')
     = (firstn (Z.to_nat (currentIndex h + 1)) (history h)
        ++ (if strictNeq (Js.index (history h) (currentIndex h))
                 (normalizeFolderPath folderPath)
            then [normalizeFolderPath folderPath] else []))%list.
Proof.
  intros Hidle Hwf a' h.
  destruct (navigateToFolder_idle folderPath a Hidle Hwf)
    as (Hcur & Hfwd & Hwf' & Hrows & Hsel & Hanchor & Happ).
  fold a' in Hcur, Hfwd, Hwf', Hrows, Hsel, Hanchor, Happ.
  repeat (split; [assumption|]).
  subst a' h. unfold navigateToFolder. rewrite Hidle. unfold refreshUI.
  cbn [navigationHistory withNavigation withExplorer].
  rewrite addPath_cases by exact Hwf. cbv zeta.
  destruct (strictNeq _ _); cbn [history]; [reflexivity|].
  now rewrite app_nil_r.
Qed.

Lemma child_path_normalized (folder segment : string) :
  normalizeFolderPath folder = folder -> isSegment segment ->
  normalizeFolderPath (folder ++ segment ++ "/") = folder ++ segment ++ "/".
Proof.
  intros Hnorm [Hne Hseg].
  destruct (normalizeFolderPath_ends folder) as (Hlead & _).
  rewrite Hnorm in Hlead. apply normalizeFolderPath_fixed.
  - destruct folder as [|c folder].
    + change ("" ++ segment ++ "/") with (segment ++ "/").
      destruct segment as [|c segment]; [contradiction|].
      rewrite includes_slash_cons in Hseg. apply orb_false_elim in Hseg as [Hc _].
      now rewrite append_cons, startsWith_slash_cons.
    + now rewrite append_cons, startsWith_slash_cons in *.
  - right. rewrite endsWith_slash, <- append_assoc. apply lastIsSlash_append_slash.
Qed.

(** X15.  Entering a child folder and pressing Up shows the folder
    again: its path is current and its sorted children are rendered.
    Up is a visit, not a step back: the history holds the folder as a
    new last entry after the child. *)
Theorem up_after_entering_child (folder segment : string) (a : App) :
  getIsLoading a = false ->
  wfHistory (navigationHistory a) ->
  normalizeFolderPath folder = folder ->
  isSegment segment ->
  let child := folder ++ segment ++ "/" in
  let a1 := navigateToFolder localeCompare child a in
  let a2 := upClick localeCompare a1 in
  getCurrentPath (navigationHistory a1) = child
  /\ getCurrentPath (navigationHistory a2) = folder
  /\ history (navigationHistory a2) = (history (navigationHistory a1) ++ [folder])%list
  /\ FileExplorer.currentRenderedFiles (fileExplorer a2)
     = sortFiles localeCompare (filterFilesByFolder (getCurrentFiles a) folder)
  /\ FileExplorer.selectedFiles (fileExplorer a2) = ∅.
Proof.
  intros Hidle Hwf Hnorm Hseg child a1 a2.
  destruct (navigateToFolder_idle child a Hidle Hwf)
    as (Hcur1 & Hfwd1 & Hwf1 & _ & _ & _ & Happ1).
  fold a1 in Hcur1, Hfwd1, Hwf1, Happ1.
  assert (Hchild : normalizeFolderPath child = child)
    by (apply child_path_normalized; assumption).
  rewrite Hchild in Hcur1.
  assert (Hidle1 : getIsLoading a1 = false).
  { unfold getIsLoading. now rewrite Happ1. }
  assert (Hparent : getParentPath child = folder).
  { apply getParentPath_segment; [|exact Hseg|now right].
    destruct (normalizeFolderPath_ends folder) as (_ & Hend).
    now rewrite Hnorm in Hend. }
  assert (Hup : a2 = navigateToFolder localeCompare folder a1).
  { subst a2. unfold upClick. rewrite Hidle1, Hcur1, Hparent.
    destruct (Js.truthy child) eqn:Ht; [reflexivity|].
    apply truthy_false in Ht. unfold child in Ht.
    destruct folder; [now apply append_slash_not_empty in Ht|discriminate Ht]. }
  destruct (navigateToFolder_idle folder a1 Hidle1 Hwf1)
    as (Hcur2 & _ & _ & Hrows2 & Hsel2 & _ & _).
  rewrite <- Hup in Hcur2, Hrows2, Hsel2. rewrite Hnorm in Hcur2, Hrows2.
  split; [exact Hcur1|]. split; [exact Hcur2|].
  split.
  - rewrite Hup. unfold navigateToFolder. rewrite Hidle1, Hnorm.
    unfold refreshUI. cbn [navigationHistory withNavigation withExplorer].
    rewrite addPath_cases by exact Hwf1. cbv zeta.
    assert (Hneq : strictNeq (Js.index (history (navigationHistory a1))
                               (currentIndex (navigationHistory a1))) folder = true).
    { destruct (strictNeq _ folder) eqn:Hs; [reflexivity|].
      apply strictNeq_false in Hs.
      assert (Hc : getCurrentPath (navigationHistory a1) = folder).
      { unfold getCurrentPath. rewrite Hs.
        apply index_Some_range in Hs.
        destruct (Z.leb_spec 0 (currentIndex (navigationHistory a1))); [|lia].
        destruct (Z.ltb_spec (currentIndex (navigationHistory a1))
                   (Z.of_nat (List.length (history (navigationHistory a1))))); [|lia].
        reflexivity. }
      rewrite Hcur1 in Hc. apply (f_equal String.length) in Hc.
      unfold child in Hc. rewrite !length_append in Hc.
      destruct Hseg as [Hne _]. destruct segment; [contradiction|simpl in Hc; lia]. }
    rewrite Hneq. cbn [history]. f_equal.
    apply List.firstn_all2. unfold canGoForward in Hfwd1. apply Z.ltb_ge in Hfwd1. lia.
  - split; [|exact Hsel2]. rewrite Hrows2. unfold getCurrentFiles. now rewrite Happ1.
Qed.

(** X16.  A successful [loadArchive], whatever was open before, ends
    at the root of the new archive: the history is the single root
    entry (nothing to go back, forward or up to), the cached entries
    are the loaded ones, the sorted root children are rendered with an
    empty selection, the file browser is shown, the toolbar enabled and
    the gate clear. *)
Theorem loadArchive_success_lands_on_root
        (archivePath : string) (files : list FileItem) (a : App) :
  let a' := loadArchive localeCompare archivePath (Resolved files) a in
  navigationHistory a' = {| history := [""]; currentIndex := 0 |}
  /\ canGoBack (navigationHistory a') = false
  /\ canGoForward (navigationHistory a') = false
  /\ upClick localeCompare a' = a'
  /\ getCurrentFiles a' = files
  /\ getCurrentArchivePath a' = archivePath
  /\ FileExplorer.currentRenderedFiles (fileExplorer a')
     = sortFiles localeCompare (filterFilesByFolder files "")
  /\ FileExplorer.selectedFiles (fileExplorer a') = ∅
  /\ view (shell a') = FileBrowser
  /\ toolbarEnabled (shell a') = true
  /\ getIsLoading a' = false.
Proof. cbv zeta. repeat split. Qed.

End NavigationProperties.

Lemma navigateToFolder_shows_folder_witness :
  let a := setIsLoading false busyApp in
  let a' := navigateToFolder codeUnitCompare "/dir" a in
  getCurrentPath (navigationHistory a') = normalizeFolderPath "/dir"
  /\ canGoForward (navigationHistory a') = false
  /\ wfHistory (navigationHistory a')
  /\ FileExplorer.currentRenderedFiles (fileExplorer a')
     = sortFiles codeUnitCompare
         (filterFilesByFolder (getCurrentFiles a) (normalizeFolderPath "/dir"))
  /\ FileExplorer.selectedFiles (fileExplorer a') = ∅
  /\ FileExplorer.lastClickedIndex (fileExplorer a') = -1
  /\ appState a' = appState a
  /\ history (navigationHistory a')
     = (firstn (Z.to_nat (currentIndex (navigationHistory a) + 1))
          (history (navigationHistory a))
        ++ (if strictNeq (Js.index (history (navigationHistory a))
                            (currentIndex (navigationHistory a)))
                 (normalizeFolderPath "/dir")
            then [normalizeFolderPath "/dir"] else []))%list.
Proof.
  apply (navigateToFolder_shows_folder codeUnitCompare "/dir" (setIsLoading false busyApp)).
  - reflexivity.
  - right. simpl. lia.
Defined.

Lemma up_after_entering_child_witness :
  let a := setIsLoading false busyApp in
  let child := "dir/" ++ "sub" ++ "/" in
  let a1 := navigateToFolder codeUnitCompare child a in
  let a2 := upClick codeUnitCompare a1 in
  getCurrentPath (navigationHistory a1) = child
  /\ getCurrentPath (navigationHistory a2) = "dir/"
  /\ history (navigationHistory a2) = (history (navigationHistory a1) ++ ["dir/"])%list
  /\ FileExplorer.currentRenderedFiles (fileExplorer a2)
     = sortFiles codeUnitCompare (filterFilesByFolder (getCurrentFiles a) "dir/")
  /\ FileExplorer.selectedFiles (fileExplorer a2) = ∅.
Proof.
  apply (up_after_entering_child codeUnitCompare "dir/" "sub" (setIsLoading false busyApp)).
  - reflexivity.
  - right. simpl. lia.
  - reflexivity.
  - split; [discriminate|reflexivity].
Defined.

(** ** toolbar.ts: commands, failure and the clipboard *)

Section CommandProperties.

Variable localeCompare : string -> string -> Z.

(** X17.  A paste or a delete that fails, at the mutation or at the
    reload after it, leaves the cached entries, the archive path, the
    history and the file list as they were; if the backend was called
    the run ends with an error notice and the gate clear. *)
Theorem failed_command_keeps_entries
        (mutation : Settled unit) (reload : Settled (list FileItem)) (a : App) :
  mutation = Rejected \/ reload = Rejected ->
  (let a' := runPaste localeCompare mutation reload a in
   navigationHistory a' = navigationHistory a
   /\ getCurrentFiles a' = getCurrentFiles a
   /\ getCurrentArchivePath a' = getCurrentArchivePath a
   /\ fileExplorer a' = fileExplorer a
   /\ (snd (handlePaste a) = true ->
       getIsLoading a' = false /\ exists rest, trace (shell a') = ShowError :: rest))
  /\ (let a' := runDelete localeCompare mutation reload a in
      navigationHistory a' = navigationHistory a
      /\ getCurrentFiles a' = getCurrentFiles a
      /\ getCurrentArchivePath a' = getCurrentArchivePath a
      /\ fileExplorer a' = fileExplorer a
      /\ (snd (confirmClick (handleDelete a)) = true ->
          getIsLoading a' = false /\ exists rest, trace (shell a') = ShowError :: rest)).
Proof.
  intros Hfail. split.
  - cbv zeta. unfold runPaste, handlePaste.
    destruct (clipboardFiles (shell a)) as [clipboard|],
             (clipboardOperation (shell a)) as [op|] eqn:Hop;
      try (repeat split; intros; discriminate).
    destruct (List.length clipboard =? 0)%nat;
      [repeat split; intros; discriminate|].
    destruct mutation as [[]|].
    + destruct reload as [files|]; [destruct Hfail; discriminate|].
      cbn [pasteSettled emit setIsLoading shell withShell withAppState
           clipboardOperation].
      rewrite Hop. destruct op; repeat split; eauto.
    + repeat split; eauto.
  - cbv zeta. unfold runDelete, handleDelete, confirmClick.
    destruct (List.length (getSelectedFiles a) =? 0)%nat.
    + cbn [emit shell withShell confirmDialog].
      destruct (confirmDialog (shell a)) as [pending|];
        [|repeat split; intros; discriminate].
      destruct mutation as [[]|].
      * destruct reload as [files|]; [destruct Hfail; discriminate|].
        repeat split; eauto.
      * repeat split; eauto.
    + destruct (confirmDialog (shell a)) as [pending|] eqn:Hd.
      * rewrite Hd. destruct mutation as [[]|].
        -- destruct reload as [files|]; [destruct Hfail; discriminate|].
           repeat split; eauto.
        -- repeat split; eauto.
      * cbn [setConfirmDialog shell withShell confirmDialog].
        destruct mutation as [[]|].
        -- destruct reload as [files|]; [destruct Hfail; discriminate|].
           repeat split; eauto.
        -- repeat split; eauto.
Qed.

(** X18.  With rows selected, Cut followed by a successful Paste
    empties the clipboard, so a second Paste is not sent to the backend;
    after Copy the clipboard survives the Paste and a second Paste is
    sent again; a cut whose paste fails keeps its clipboard. *)
Theorem clipboard_after_paste (files : list FileItem) (reload : Settled (list FileItem))
        (a : App) :
  FileExplorer.selectedFiles (fileExplorer a) <> ∅ ->
  (let pasted := runPaste localeCompare (Resolved tt) (Resolved files) (handleCut a) in
   snd (handlePaste (handleCut a)) = true
   /\ clipboardFiles (shell pasted) = None
   /\ snd (handlePaste pasted) = false)
  /\ (let pasted := runPaste localeCompare (Resolved tt) (Resolved files) (handleCopy a) in
      snd (handlePaste (handleCopy a)) = true
      /\ clipboardFiles (shell pasted) = Some (getSelectedFiles a)
      /\ snd (handlePaste pasted) = true)
  /\ clipboardFiles (shell (runPaste localeCompare Rejected reload (handleCut a)))
     = Some (getSelectedFiles a).
Proof.
  intros Hsel.
  assert (Hlen : (List.length (getSelectedFiles a) =? 0)%nat = false).
  { apply Nat.eqb_neq. intros Hl. apply Hsel.
    apply length_zero_iff_nil in Hl. unfold getSelectedFiles in Hl.
    now apply elements_empty_iff, leibniz_equiv in Hl. }
  unfold handleCut, handleCopy. rewrite Hlen.
  remember (getSelectedFiles a) as selected eqn:Hselected. clear Hselected.
  unfold runPaste, handlePaste, pasteSettled, reloadSettled, refreshUI,
    setCurrentFiles, setIsLoading, setClipboard, emit.
  cbn [shell withShell withAppState withExplorer clipboardFiles clipboardOperation
       fst snd].
  rewrite Hlen.
  cbn [shell withShell withAppState withExplorer clipboardFiles clipboardOperation
       fst snd].
  rewrite ?Hlen. repeat split.
Qed.

End CommandProperties.

Lemma failed_command_keeps_entries_witness :
  (let a' := runPaste codeUnitCompare Rejected (Resolved []) busyApp in
   navigationHistory a' = navigationHistory busyApp
   /\ getCurrentFiles a' = getCurrentFiles busyApp
   /\ getCurrentArchivePath a' = getCurrentArchivePath busyApp
   /\ fileExplorer a' = fileExplorer busyApp
   /\ (snd (handlePaste busyApp) = true ->
       getIsLoading a' = false /\ exists rest, trace (shell a') = ShowError :: rest))
  /\ (let a' := runDelete codeUnitCompare Rejected (Resolved []) busyApp in
      navigationHistory a' = navigationHistory busyApp
      /\ getCurrentFiles a' = getCurrentFiles busyApp
      /\ getCurrentArchivePath a' = getCurrentArchivePath busyApp
      /\ fileExplorer a' = fileExplorer busyApp
      /\ (snd (confirmClick (handleDelete busyApp)) = true ->
          getIsLoading a' = false /\ exists rest, trace (shell a') = ShowError :: rest)).
Proof.
  apply (failed_command_keeps_entries codeUnitCompare Rejected (Resolved []) busyApp).
  left. reflexivity.
Defined.

Lemma clipboard_after_paste_witness :
  (let pasted :=
     runPaste codeUnitCompare (Resolved tt) (Resolved []) (handleCut busyApp) in
   snd (handlePaste (handleCut busyApp)) = true
   /\ clipboardFiles (shell pasted) = None
   /\ snd (handlePaste pasted) = false)
  /\ (let pasted :=
        runPaste codeUnitCompare (Resolved tt) (Resolved []) (handleCopy busyApp) in
      snd (handlePaste (handleCopy busyApp)) = true
      /\ clipboardFiles (shell pasted) = Some (getSelectedFiles busyApp)
      /\ snd (handlePaste pasted) = true)
  /\ clipboardFiles (shell (runPaste codeUnitCompare Rejected (Resolved []) (handleCut busyApp)))
     = Some (getSelectedFiles busyApp).
Proof.
  apply (clipboard_after_paste codeUnitCompare [] (Resolved []) busyApp).
  vm_compute. discriminate.
Defined.

(** ** fileExplorer.ts: the path bar *)

Lemma joinSegments_cons (segment : string) (rest : list string) :
  joinSegments (segment :: rest) = segment ++ String "/" (joinSegments rest).
Proof. reflexivity. Qed.

Lemma split_joinSegments (segments : list string) :
  Forall isSegment segments ->
  List.filter Js.truthy (Js.split_slash (joinSegments segments)) = segments.
Proof.
  induction 1 as [|segment rest [Hne Hseg] _ IH]; [reflexivity|].
  rewrite joinSegments_cons, (split_slash_at_slash _ _ Hseg).
  cbn [List.filter]. apply truthy_true in Hne. now rewrite Hne, IH.
Qed.

Lemma appendSegments_result (segments : list string) (nav : PathNavigation) :
  pathItems (appendSegments segments nav)
  = (pathItems nav ++ map (fun segment => (segment, CurrentPathVariable)) segments)%list
  /\ currentPathVariable (appendSegments segments nav)
     = currentPathVariable nav ++ joinSegments segments.
Proof.
  revert nav. induction segments as [|segment rest IH]; intros nav.
  - simpl. now rewrite List.app_nil_r, append_empty_r.
  - cbn [appendSegments]. destruct (IH
      {| pathItems := (pathItems nav ++ [(segment, CurrentPathVariable)])%list;
         currentPathVariable := currentPathVariable nav ++ segment ++ "/" |})
      as [Hitems Hvar].
    rewrite Hitems, Hvar. cbn [pathItems currentPathVariable]. split.
    + now rewrite <- List.app_assoc.
    + rewrite joinSegments_cons, !append_assoc. reflexivity.
Qed.

(** X19.  For a folder made of segments, the path bar shows the
    archive name and then the segments in order; the archive item
    navigates to the root, and every folder item, whichever it is,
    navigates to the whole current folder: the listeners all read the
    one variable, which holds the full path once the loop is done. *)
Theorem path_items_share_current_path (segments : list string) (archiveName : string) :
  archiveName <> "" ->
  segments <> [] ->
  Forall isSegment segments ->
  let nav := updatePathNavigation (joinSegments segments) archiveName in
  map fst (pathItems nav) = archiveName :: segments
  /\ clickedPath nav 0 = Some ""
  /\ (forall i, (i < List.length segments)%nat ->
                clickedPath nav (S i) = Some (joinSegments segments)).
Proof.
  intros Harchive Hsegments Hall nav. subst nav. unfold updatePathNavigation.
  apply truthy_true in Harchive. rewrite Harchive. cbn [negb].
  assert (Hfolder : Js.truthy (joinSegments segments) = true).
  { apply truthy_true. destruct segments as [|segment rest]; [contradiction|].
    rewrite joinSegments_cons. destruct segment; discriminate. }
  rewrite Hfolder. cbn [negb]. rewrite (split_joinSegments _ Hall).
  destruct (appendSegments_result segments
              {| pathItems := [(archiveName, Literal "")]; currentPathVariable := "" |})
    as [Hitems Hvar].
  cbn [pathItems currentPathVariable] in Hitems, Hvar.
  unfold clickedPath. rewrite Hitems, Hvar.
  split; [|split].
  - cbn [List.app map fst]. f_equal. rewrite List.map_map. cbn [fst]. apply List.map_id.
  - reflexivity.
  - intros i Hi. cbn [List.app nth_error].
    rewrite List.nth_error_map.
    destruct (nth_error segments i) as [segment|] eqn:Hnth; [reflexivity|].
    apply List.nth_error_None in Hnth. lia.
Qed.

Lemma path_items_share_current_path_witness :
  let nav := updatePathNavigation (joinSegments ["docs"; "images"]) "x.zip" in
  map fst (pathItems nav) = "x.zip" :: ["docs"; "images"]
  /\ clickedPath nav 0 = Some ""
  /\ (forall i, (i < List.length ["docs"; "images"])%nat ->
                clickedPath nav (S i) = Some (joinSegments ["docs"; "images"])).
Proof.
  apply (path_items_share_current_path ["docs"; "images"] "x.zip").
  - discriminate.
  - discriminate.
  - repeat constructor; discriminate.
Defined.

(** ** windowService.ts: file name and directory of a path *)

Lemma lastIndexOf_slash_generic (i : Z) (s : string) :
  lastIndexOf_from "/" i s = Js.lastIndexOf_slash_from i s.
Proof.
  revert i. induction s as [|c s IH]; intros i; [reflexivity|].
  cbn [lastIndexOf_from Js.lastIndexOf_slash_from]. now rewrite IH.
Qed.

(** The segments of a string with a last slash end with the part after
    that slash. *)
Lemma split_slash_last (a b : string) :
  Js.includes "/" b = false ->
  exists init, Js.split_slash (a ++ String "/" b) = (init ++ [b])%list.
Proof.
  intros Hb.
  assert (H : exists seg init,
            Js.split_slash (a ++ String "/" b) = (seg :: init ++ [b])%list).
  { induction a as [|c a (seg & init & IH)].
    - exists "", []. change ("" ++ String "/" b) with (String "/" b).
      now rewrite split_slash_cons, Ascii.eqb_refl, split_slash_no_slash.
    - rewrite append_cons, split_slash_cons, IH.
      destruct (Ascii.eqb c "/").
      + now exists "", (seg :: init).
      + now exists (String c seg), init. }
  destruct H as (seg & init & H). now exists (seg :: init).
Qed.

Lemma index_last {A} (init : list A) (x : A) :
  Js.index (init ++ [x])%list (Z.of_nat (List.length (init ++ [x])%list) - 1) = Some x.
Proof.
  rewrite List.length_app. simpl List.length.
  rewrite index_nonneg by lia.
  replace (Z.to_nat (Z.of_nat (List.length init + 1) - 1)) with (List.length init) by lia.
  rewrite List.nth_error_app2 by lia. now rewrite Nat.sub_diag.
Qed.

Lemma replaceBackslashes_empty (p : string) :
  replaceBackslashes p = "" -> p = "".
Proof. destruct p; [reflexivity|discriminate]. Qed.

Lemma directory_and_file_name_at (filePath dir file : string) :
  replaceBackslashes filePath = dir ++ String "/" file ->
  Js.includes "/" file = false ->
  getDirectoryPath filePath = dir /\ getFileNameFromPath filePath = file.
Proof.
  intros Hn Hfile. unfold getFileNameFromPath, getDirectoryPath, lastIndexOf.
  rewrite lastIndexOf_slash_generic.
  destruct (Js.truthy filePath) eqn:Ht;
    [|apply truthy_false in Ht; subst filePath; destruct dir; discriminate Hn].
  cbn [negb]. rewrite Hn.
  destruct (split_slash_last dir file Hfile) as [init ->].
  rewrite index_last, lastIndexOf_slash_from_last by (assumption || lia).
  destruct (Z.eqb_spec (0 + Z.of_nat (String.length dir)) (-1)); [lia|].
  replace (Z.to_nat (0 + Z.of_nat (String.length dir))) with (String.length dir) by lia.
  rewrite substring_to_append. split; reflexivity.
Qed.

(** X20.  For every path, with its backslashes read as slashes: the
    file name holds no slash; if the path holds a slash, it is the
    directory, a slash and the file name; if it holds none, the
    directory is empty and the file name is the whole path. *)
Theorem directory_and_file_name (filePath : string) :
  let normalizedPath := replaceBackslashes filePath in
  Js.includes "/" (getFileNameFromPath filePath) = false
  /\ (Js.includes "/" normalizedPath = true ->
      normalizedPath
      = getDirectoryPath filePath ++ "/" ++ getFileNameFromPath filePath)
  /\ (Js.includes "/" normalizedPath = false ->
      getDirectoryPath filePath = ""
      /\ getFileNameFromPath filePath = normalizedPath).
Proof.
  cbv zeta.
  destruct (last_slash_split (replaceBackslashes filePath)) as [Hnone|(a & b & Hn & Hb)].
  - unfold getFileNameFromPath, getDirectoryPath, lastIndexOf.
    rewrite lastIndexOf_slash_generic.
    destruct (Js.truthy filePath) eqn:Ht;
      [|apply truthy_false in Ht; subst; repeat split; discriminate].
    cbn [negb].
    rewrite (split_slash_no_slash _ Hnone), (lastIndexOf_slash_from_none _ _ Hnone).
    cbn. split; [exact Hnone|]. split; [congruence|]. intros _. split; reflexivity.
  - destruct (directory_and_file_name_at filePath a b Hn Hb) as [-> ->].
    split; [exact Hb|]. split; [intros _; exact Hn|].
    rewrite Hn, includes_slash_after. discriminate.
Qed.

Lemma directory_and_file_name_witness :
  replaceBackslashes "C:\Users\Me\archive.zip"
  = getDirectoryPath "C:\Users\Me\archive.zip" ++ "/"
    ++ getFileNameFromPath "C:\Users\Me\archive.zip".
Proof.
  destruct (directory_and_file_name "C:\Users\Me\archive.zip") as (_ & H & _).
  apply H. reflexivity.
Defined.

Lemma includes_char_cons (c x : ascii) (s : string) :
  Js.includes (String c "") (String x s)
  = Ascii.eqb x c || Js.includes (String c "") s.
Proof.
  cbn [Js.includes]. rewrite prefix_cons, (Ascii.eqb_sym c x).
  destruct s; simpl; now rewrite andb_true_r.
Qed.

Lemma lastIndexOf_from_none (c : ascii) (i : Z) (s : string) :
  Js.includes (String c "") s = false -> lastIndexOf_from c i s = -1.
Proof.
  revert i. induction s as [|x s IH]; intros i H; [reflexivity|].
  rewrite includes_char_cons in H. apply orb_false_elim in H as [Hx Hs].
  cbn [lastIndexOf_from]. rewrite (IH _ Hs), Hx. reflexivity.
Qed.

Lemma lastIndexOf_from_last (c : ascii) (i : Z) (a b : string) :
  0 <= i -> Js.includes (String c "") b = false ->
  lastIndexOf_from c i (a ++ String c b) = i + Z.of_nat (String.length a).
Proof.
  revert i. induction a as [|x a IH]; intros i Hi Hb.
  - change ("" ++ String c b) with (String c b). cbn [lastIndexOf_from].
    rewrite (lastIndexOf_from_none _ _ _ Hb), Ascii.eqb_refl. simpl. lia.
  - rewrite append_cons. cbn [lastIndexOf_from]. rewrite IH by (assumption || lia).
    destruct (Z.leb_spec 0 (i + 1 + Z.of_nat (String.length a))); [|lia].
    simpl String.length. lia.
Qed.

(** The two utilities on a path whose last slash is known. *)
(** X21.  For an archive at directory, slash, base name, dot,
    extension (the extension without dot, the name without slash, the
    base name not empty), the default extraction path is the directory,
    a slash and the base name: only the last extension is dropped.  For
    an archive directly under the root directory the result is the bare
    base name. *)
Theorem getDefaultExtractPath_drops_extension (archivePath dir base ext : string) :
  replaceBackslashes archivePath = dir ++ "/" ++ base ++ "." ++ ext ->
  Js.includes "/" base = false ->
  Js.includes "/" ext = false ->
  Js.includes "." ext = false ->
  base <> "" ->
  getFileNameWithoutExtension archivePath = base
  /\ getDefaultExtractPath archivePath
     = if String.eqb dir "" then base else dir ++ "/" ++ base.
Proof.
  intros Hn Hbase Hext Hdot Hne.
  assert (Hfile : Js.includes "/" (base ++ String "." ext) = false).
  { rewrite includes_slash_append, Hbase, includes_slash_cons, Hext. reflexivity. }
  destruct (directory_and_file_name_at archivePath dir (base ++ String "." ext) Hn Hfile)
    as [Hdir Hname].
  assert (Hstem : getFileNameWithoutExtension archivePath = base).
  { unfold getFileNameWithoutExtension, lastIndexOf. rewrite Hname.
    rewrite lastIndexOf_from_last by (assumption || lia).
    destruct (Z.eqb_spec (0 + Z.of_nat (String.length base)) (-1)); [lia|].
    destruct (Z.eqb_spec (0 + Z.of_nat (String.length base)) 0) as [H0|_].
    - destruct base; [contradiction|simpl in H0; lia].
    - cbn [orb].
      replace (Z.to_nat (0 + Z.of_nat (String.length base))) with (String.length base)
        by lia.
      apply substring_to_append. }
  split; [exact Hstem|]. unfold getDefaultExtractPath. rewrite Hstem, Hdir.
  unfold Js.truthy. now destruct (String.eqb dir "").
Qed.

Lemma getDefaultExtractPath_drops_extension_witness :
  getFileNameWithoutExtension "C:\Users\Me\archive.tar.gz" = "archive.tar"
  /\ getDefaultExtractPath "C:\Users\Me\archive.tar.gz"
     = if String.eqb "C:/Users/Me" "" then "archive.tar"
       else "C:/Users/Me" ++ "/" ++ "archive.tar".
Proof.
  apply (getDefaultExtractPath_drops_extension
           "C:\Users\Me\archive.tar.gz" "C:/Users/Me" "archive.tar" "gz");
    try reflexivity.
  discriminate.
Defined.

(** ** uiManager.ts: searching *)

Lemma getFileNameFromPath_trailing_slash (filePath : string) :
  Js.endsWith "/" (replaceBackslashes filePath) = true ->
  getFileNameFromPath filePath = "".
Proof.
  intros Hend. rewrite endsWith_slash in Hend. apply lastIsSlash_split in Hend.
  now destruct (directory_and_file_name_at filePath
                  (Js.dropLast (replaceBackslashes filePath)) "" Hend eq_refl).
Qed.

Lemma getFileNameFromPath_no_slash (filePath : string) :
  Js.includes "/" (replaceBackslashes filePath) = false ->
  getFileNameFromPath filePath = replaceBackslashes filePath.
Proof.
  intros Hnone. unfold getFileNameFromPath.
  destruct (Js.truthy filePath) eqn:Ht; cbn [negb].
  - now rewrite (split_slash_no_slash _ Hnone).
  - apply truthy_false in Ht. now subst filePath.
Qed.

Section SearchProperties.

Variable localeCompare : string -> string -> Z.
Variable toLowerCase : string -> string.

(** What [performSearch] compares with the query: the whole path of an
    entry whose path ends with a slash, the last segment of any other. *)
Lemma matchesQuery_cases (query : string) (e : FileItem) :
  let n := replaceBackslashes (name e) in
  (Js.endsWith "/" n = true ->
   matchesQuery toLowerCase query e
   = Js.includes (toLowerCase query) (toLowerCase (name e)))
  /\ (forall dir file,
        n = dir ++ "/" ++ file -> isSegment file ->
        matchesQuery toLowerCase query e
        = Js.includes (toLowerCase query) (toLowerCase file))
  /\ (isSegment n ->
      matchesQuery toLowerCase query e
      = Js.includes (toLowerCase query) (toLowerCase n)).
Proof.
  cbv zeta. unfold matchesQuery. split; [|split].
  - intros Hend. now rewrite (getFileNameFromPath_trailing_slash _ Hend).
  - intros dir file Hn [Hne Hfile].
    destruct (directory_and_file_name_at (name e) dir file Hn Hfile) as [_ ->].
    apply truthy_true in Hne. now rewrite Hne.
  - intros [Hne Hnone]. rewrite (getFileNameFromPath_no_slash _ Hnone).
    apply truthy_true in Hne. now rewrite Hne.
Qed.

(** X22.  A search with an archive open and the gate clear renders
    the children of the current folder that match, each once and
    rearranged by [sortFiles], with an empty selection; the history and
    the cached entries stay.  A child whose path ends with a slash, as
    that of a directory entry does, matches when its whole path holds
    the query; any other child when its last segment does (both sides
    in lower case, backslashes read as slashes).  With no archive open
    the search only shows an error, and while the gate is set it does
    nothing. *)
Theorem performSearch_results (query : string) (a : App) :
  (getCurrentArchivePath a <> "" ->
   getIsLoading a = false ->
   let a' := performSearch localeCompare toLowerCase query a in
   let children :=
     filterFilesByFolder (getCurrentFiles a) (getCurrentPath (navigationHistory a)) in
   let rendered := FileExplorer.currentRenderedFiles (fileExplorer a') in
   Permutation rendered (List.filter (matchesQuery toLowerCase query) children)
   /\ (forall e, In e rendered -> In e children)
   /\ (forall e,
         In e children ->
         let n := replaceBackslashes (name e) in
         (Js.endsWith "/" n = true ->
          (In e rendered
           <-> Js.includes (toLowerCase query) (toLowerCase (name e)) = true))
         /\ (forall dir file,
               n = dir ++ "/" ++ file -> isSegment file ->
               (In e rendered
                <-> Js.includes (toLowerCase query) (toLowerCase file) = true))
         /\ (isSegment n ->
             (In e rendered
              <-> Js.includes (toLowerCase query) (toLowerCase n) = true)))
   /\ FileExplorer.selectedFiles (fileExplorer a') = ∅
   /\ navigationHistory a' = navigationHistory a
   /\ appState a' = appState a)
  /\ (getCurrentArchivePath a = "" ->
      performSearch localeCompare toLowerCase query a = emit ShowError a)
  /\ (getCurrentArchivePath a <> "" -> getIsLoading a = true ->
      performSearch localeCompare toLowerCase query a = a).
Proof.
  split; [|split].
  - intros Hopen Hidle. cbv zeta. unfold performSearch.
    apply truthy_true in Hopen. rewrite Hopen, Hidle. cbn [negb].
    set (children := filterFilesByFolder _ _).
    set (results := List.filter _ children).
    assert (Hrows : forall a0,
              a0 = withExplorer
                     (FileExplorer.updateFileList (sortFiles localeCompare results) false
                        (fileExplorer a)) a ->
              forall a', a' = a0 \/ a' = emit ShowInfo a0 ->
              FileExplorer.currentRenderedFiles (fileExplorer a')
              = sortFiles localeCompare results
              /\ FileExplorer.selectedFiles (fileExplorer a') = ∅
              /\ navigationHistory a' = navigationHistory a
              /\ appState a' = appState a).
    { intros a0 -> a' [-> | ->]; repeat split. }
    destruct (Hrows _ eq_refl
                (if (List.length results =? 0)%nat
                 then emit ShowInfo
                        (withExplorer
                           (FileExplorer.updateFileList (sortFiles localeCompare results)
                              false (fileExplorer a)) a)
                 else withExplorer
                        (FileExplorer.updateFileList (sortFiles localeCompare results)
                           false (fileExplorer a)) a))
      as (Hr & Hs & Hn & Ha).
    { destruct (List.length results =? 0)%nat; [now right|now left]. }
    rewrite Hr.
    assert (Hin : forall e, In e (sortFiles localeCompare results)
                            <-> In e children /\ matchesQuery toLowerCase query e = true).
    { intros e. unfold results. rewrite <- List.filter_In. split; intros He.
      - exact (Permutation_in _ (sortFiles_permutation localeCompare _) He).
      - exact (Permutation_in _ (Permutation_sym (sortFiles_permutation localeCompare _)) He). }
    split; [apply sortFiles_permutation|].
    split; [intros e He; now apply Hin in He|].
    split; [|repeat split; assumption].
    intros e He. cbv zeta.
    destruct (matchesQuery_cases query e) as (Hdir & Hfile & Hbare).
    split; [|split].
    + intros Hend. rewrite Hin, (Hdir Hend). tauto.
    + intros dir file Hsplit Hseg. rewrite Hin, (Hfile dir file Hsplit Hseg). tauto.
    + intros Hseg. rewrite Hin, (Hbare Hseg). tauto.
  - intros Hclosed. unfold performSearch. now rewrite Hclosed.
  - intros Hopen Hbusy. unfold performSearch.
    apply truthy_true in Hopen. now rewrite Hopen, Hbusy.
Qed.

End SearchProperties.

Lemma performSearch_results_witness :
  let a :=
    navigateToFolder codeUnitCompare "docs/"
      (loadArchive codeUnitCompare "x.zip"
         (Resolved [mkDir "docs/"; mkDir "docs/images/"; mkFile "docs/a.txt"])
         initialApp) in
  let rendered :=
    FileExplorer.currentRenderedFiles
      (fileExplorer (performSearch codeUnitCompare (fun s => s) "docs" a)) in
  (In (mkDir "docs/images/") rendered <-> Js.includes "docs" "docs/images/" = true)
  /\ (In (mkFile "docs/a.txt") rendered <-> Js.includes "docs" "a.txt" = true).
Proof.
  intros a rendered.
  destruct (performSearch_results codeUnitCompare (fun s => s) "docs" a) as [H _].
  destruct H as (_ & _ & Hrows & _); [discriminate|reflexivity|].
  split.
  - destruct (Hrows (mkDir "docs/images/")) as (Hdir & _); [vm_compute; tauto|].
    apply Hdir. reflexivity.
  - destruct (Hrows (mkFile "docs/a.txt")) as (_ & Hfile & _); [vm_compute; tauto|].
    apply (Hfile "docs" "a.txt"); [reflexivity|]. split; [discriminate|reflexivity].
Defined.

(** A search for the name of the current folder: in [docs/], the
    query [docs] finds the directory [docs/images/], shown as [images],
    and not the file [docs/a.txt]. *)
Lemma performSearch_folder_name :
  let a :=
    navigateToFolder codeUnitCompare "docs/"
      (loadArchive codeUnitCompare "x.zip"
         (Resolved [mkDir "docs/"; mkDir "docs/images/"; mkFile "docs/a.txt"])
         initialApp) in
  FileExplorer.currentRenderedFiles
    (fileExplorer (performSearch codeUnitCompare (fun s => s) "docs" a))
  = [mkDir "docs/images/"]
  /\ getDisplayName (mkDir "docs/images/") (getCurrentPath (navigationHistory a)) = "images".
Proof. vm_compute. split; reflexivity. Qed.

(** ** fileService.ts: every entry shows up in its parent folder *)

Lemma segment_no_leading_slash (segment rest : string) :
  isSegment segment -> Js.startsWith "/" (segment ++ rest) = false.
Proof.
  intros [Hne Hseg]. destruct segment as [|c segment]; [contradiction|].
  rewrite includes_slash_cons in Hseg. apply orb_false_elim in Hseg as [Hc _].
  now rewrite append_cons, startsWith_slash_cons.
Qed.

(** X23.  An entry whose path is a normalized folder path followed by
    one segment, with or without a trailing slash, is listed when that
    folder is shown. *)
Theorem listed_in_parent_folder
        (files : list FileItem) (folder segment t : string) (e : FileItem) :
  normalizeFolderPath folder = folder ->
  isSegment segment ->
  t = "" \/ t = "/" ->
  In e files ->
  name e = folder ++ segment ++ t ->
  In e (filterFilesByFolder files folder).
Proof.
  intros Hnorm Hseg Ht Hin Hname. rewrite filterFilesByFolder_filter.
  apply filter_In. split; [exact Hin|].
  destruct (normalized_folder_prefix _ Hnorm) as [Hr Hf].
  destruct (normalizeFolderPath_ends folder) as (Hlead & _).
  rewrite Hnorm in Hlead.
  assert (Hstart : Js.startsWith "/" (name e) = false).
  { rewrite Hname. destruct folder as [|c folder].
    - change ("" ++ segment ++ t) with (segment ++ t).
      now apply segment_no_leading_slash.
    - now rewrite append_cons, startsWith_slash_cons in *. }
  assert (Hrel : Js.replaceRootOrTrailingSlash (name e) = folder ++ segment).
  { rewrite (normalize_without_root _ (startsWith_slash_root _ Hstart)).
    unfold stripTrailingSlash. rewrite endsWith_slash, Hname.
    destruct Hseg as [Hne Hslash]. destruct Ht as [-> | ->].
    - rewrite append_empty_r, (lastIsSlash_append _ _ Hne).
      now rewrite (lastIsSlash_no_slash _ Hslash).
    - rewrite <- append_assoc, lastIsSlash_append_slash.
      apply dropLast_append_slash. }
  rewrite Hr. destruct (String.eqb_spec folder "") as [->|Hne].
  - change (Js.dropLast "") with "". rewrite shouldInclude_root, Hrel.
    change ("" ++ segment) with segment. destruct Hseg as [_ ->]. reflexivity.
  - destruct (Hf Hne) as [Hfolder Hd]. unfold shouldInclude. rewrite Hrel.
    destruct (String.eqb_spec (Js.dropLast folder) ""); [contradiction|].
    rewrite <- Hfolder.
    assert (Hp : Js.startsWith folder (folder ++ segment) = true)
      by apply prefix_append.
    rewrite Hp. cbn [andb].
    replace (String.length (Js.dropLast folder) + 1)%nat with (String.length folder).
    + rewrite substring_from_append. destruct Hseg as [_ ->]. reflexivity.
    + rewrite Hfolder at 1. rewrite length_append_slash. lia.
Qed.

Lemma listed_in_parent_folder_witness :
  In (mkDir "dir/sub/") (filterFilesByFolder [mkDir "dir/sub/"; mkFile "a.txt"] "dir/").
Proof.
  apply (listed_in_parent_folder [mkDir "dir/sub/"; mkFile "a.txt"] "dir/" "sub" "/").
  - reflexivity.
  - split; [discriminate|reflexivity].
  - now right.
  - now left.
  - reflexivity.
Defined.
